(** * fbigposter / mcp-browser: browser-driven media generation

    A shallow embedding of the Python sources [facebook_metrics.py],
    [browser.py], [grok.py], [sora.py] and [server.py], and the
    properties of the generation workflows proved over it.

    Python [str] values are Rocq strings.  Only ASCII text is modelled: a
    character is its code point, and a character above 127 stands for no
    Python character, so what is proved about the parsers is proved for
    ASCII text.  Python [int] is [Z], a Python [set] of strings is a
    [gset string], and the file system touched by [Path.write_bytes] is a
    [gmap string bytes]. *)

From Stdlib Require Import ZArith QArith Ascii String List Lia Bool.
From stdpp Require Import base decidable gmap strings pretty.

Local Open Scope string_scope.
Local Open Scope Z_scope.

(** ** Python string primitives *)

Module PyStr.

(** The character is ASCII. *)
Definition is_ascii (c : ascii) : bool := (nat_of_ascii c <? 128)%nat.

(** [str.isspace] on the ASCII range: TAB..CR, FS..US and SPACE. *)
Definition is_space (c : ascii) : bool :=
  let n := nat_of_ascii c in
  ((9 <=? n)%nat && (n <=? 13)%nat) || ((28 <=? n)%nat && (n <=? 32)%nat).

(** C's [isspace], which is what [int()] and [float()] skip around an
    ASCII literal: TAB..CR and SPACE, but not FS..US. *)
Definition is_c_space (c : ascii) : bool :=
  let n := nat_of_ascii c in
  ((9 <=? n)%nat && (n <=? 13)%nat) || (n =? 32)%nat.

Definition is_digit (c : ascii) : bool :=
  let n := nat_of_ascii c in (48 <=? n)%nat && (n <=? 57)%nat.

Definition digit_val (c : ascii) : Z := Z.of_nat (nat_of_ascii c) - 48.

Definition lower (c : ascii) : ascii :=
  let n := nat_of_ascii c in
  if (65 <=? n)%nat && (n <=? 90)%nat then ascii_of_nat (n + 32) else c.

Fixpoint lower_str (s : string) : string :=
  match s with
  | EmptyString => EmptyString
  | String c s' => String (lower c) (lower_str s')
  end.

Fixpoint lstrip (s : string) : string :=
  match s with
  | String c s' => if is_space c then lstrip s' else s
  | EmptyString => EmptyString
  end.

Fixpoint rstrip (s : string) : string :=
  match s with
  | EmptyString => EmptyString
  | String c s' =>
      match rstrip s' with
      | EmptyString => if is_space c then EmptyString else String c EmptyString
      | r => String c r
      end
  end.

(** [s.strip()] *)
Definition strip (s : string) : string := rstrip (lstrip s).

(** The white space [int()] and [float()] skip before and after an ASCII
    literal. *)
Fixpoint c_lstrip (s : string) : string :=
  match s with
  | String c s' => if is_c_space c then c_lstrip s' else s
  | EmptyString => EmptyString
  end.

Fixpoint c_rstrip (s : string) : string :=
  match s with
  | EmptyString => EmptyString
  | String c s' =>
      match c_rstrip s' with
      | EmptyString => if is_c_space c then EmptyString else String c EmptyString
      | r => String c r
      end
  end.

Definition c_strip (s : string) : string := c_rstrip (c_lstrip s).

(** [s.replace(c, "")] for a one-character pattern [c]. *)
Fixpoint remove_char (c : ascii) (s : string) : string :=
  match s with
  | EmptyString => EmptyString
  | String d s' =>
      if Ascii.eqb c d then remove_char c s' else String d (remove_char c s')
  end.

(** [len(s)], as an integer. *)
Fixpoint len_acc (acc : Z) (s : string) : Z :=
  match s with
  | EmptyString => acc
  | String _ s' => len_acc (acc + 1) s'
  end.

Definition len (s : string) : Z := len_acc 0 s.

(** [s.startswith(p)] *)
Fixpoint startswith (p s : string) : bool :=
  match p, s with
  | EmptyString, _ => true
  | String a p', String b s' => Ascii.eqb a b && startswith p' s'
  | String _ _, EmptyString => false
  end.

(** [p in s] for strings: [p] occurs as a contiguous substring of [s]. *)
Fixpoint contains (p s : string) : bool :=
  startswith p s ||
  match s with
  | EmptyString => false
  | String _ s' => contains p s'
  end.

(** [s.split(c, 1)]: [None] when [c] does not occur (the list then has a
    single element), otherwise the text before and after the first [c]. *)
Fixpoint split_once (c : ascii) (s : string) : option (string * string) :=
  match s with
  | EmptyString => None
  | String d s' =>
      if Ascii.eqb c d then Some (EmptyString, s')
      else match split_once c s' with
           | Some (a, b) => Some (String d a, b)
           | None => None
           end
  end.

(** [s[:n]] *)
Fixpoint take (n : nat) (s : string) : string :=
  match n, s with
  | S n', String c s' => String c (take n' s')
  | _, _ => EmptyString
  end.

(** The double quote character, for selectors that embed quoted text. *)
Definition dq : string := String "034"%char EmptyString.

End PyStr.

(** ** Python numeric literals: [int(str)] and [float(str)] *)

Module PyNum.
Import PyStr.

(** [digit (["_"] digit)*] after the first digit has been read: returns
    the accumulated value, the number of digits and the unread rest. *)
Fixpoint digitpart_go (acc cnt : Z) (s : string) : Z * Z * string :=
  match s with
  | String c s' =>
      if is_digit c then digitpart_go (10 * acc + digit_val c) (cnt + 1) s'
      else if Ascii.eqb c "_"%char then
        match s' with
        | String d s'' =>
            if is_digit d
            then digitpart_go (10 * acc + digit_val d) (cnt + 1) s''
            else (acc, cnt, s)
        | EmptyString => (acc, cnt, s)
        end
      else (acc, cnt, s)
  | EmptyString => (acc, cnt, s)
  end.

Definition digitpart (s : string) : option (Z * Z * string) :=
  match s with
  | String c s' =>
      if is_digit c then Some (digitpart_go (digit_val c) 1 s') else None
  | EmptyString => None
  end.

(** An optional sign: the multiplier and the rest. *)
Definition sign (s : string) : Z * string :=
  match s with
  | String "+"%char s' => (1, s')
  | String "-"%char s' => (-1, s')
  | _ => (1, s)
  end.

(** [sys.get_int_max_str_digits()], which the program leaves at its
    default. *)
Definition INT_MAX_STR_DIGITS : Z := 4300.

(** [int(s)] in base 10 for ASCII [s]; [None] stands for [ValueError],
    which is also what a literal of more than [INT_MAX_STR_DIGITS] digits
    raises. *)
Definition py_int (s : string) : option Z :=
  let '(sg, body) := sign (c_strip s) in
  match digitpart body with
  | Some (v, cnt, EmptyString) =>
      if cnt <=? INT_MAX_STR_DIGITS then Some (sg * v) else None
  | _ => None
  end.

(** A Python float.  [Fdec q] is the double nearest to the decimal [q]:
    rounding is a function of [q], so equal decimals are equal floats. *)
Inductive pyfloat : Type :=
| Fnan
| Finf (negative : bool)
| Fdec (q : Q).

(** [10 ** k] as a rational, for any integer [k]. *)
Definition pow10 (k : Z) : Q := Qpower (10 # 1) k.

(** [number]: mantissa, number of fraction digits, rest. *)
Definition number (s : string) : option (Z * Z * string) :=
  match digitpart s with
  | Some (ip, _, String "."%char r) =>
      match digitpart r with
      | Some (fp, fn, r') => Some (ip * 10 ^ fn + fp, fn, r')
      | None => Some (ip, 0, r)
      end
  | Some (ip, _, r) => Some (ip, 0, r)
  | None =>
      match s with
      | String "."%char r =>
          match digitpart r with
          | Some (fp, fn, r') => Some (fp, fn, r')
          | None => None
          end
      | _ => None
      end
  end.

(** [exponent]: the value of an optional exponent that must use up the
    rest of the text. *)
Definition exponent (s : string) : option Z :=
  match s with
  | EmptyString => Some 0
  | String c r =>
      if Ascii.eqb (lower c) "e"%char then
        let '(sg, body) := sign r in
        match digitpart body with
        | Some (v, _, EmptyString) => Some (sg * v)
        | _ => None
        end
      else None
  end.

(** [float(s)] for ASCII [s]; [None] stands for [ValueError]. *)
Definition py_float (s : string) : option pyfloat :=
  let '(sg, body) := sign (c_strip s) in
  let low := lower_str body in
  if String.eqb low "inf" || String.eqb low "infinity"
  then Some (Finf (sg <? 0))
  else if String.eqb low "nan" then Some Fnan
  else
    match number body with
    | Some (m, fn, r) =>
        match exponent r with
        | Some e => Some (Fdec (Qred (inject_Z (sg * m) * pow10 (e - fn))))
        | None => None
        end
    | None => None
    end.

End PyNum.

(** ** facebook_metrics.py: the metric parsers *)

Module FacebookMetrics.
Import PyStr PyNum.

Definition is_placeholder (text : string) : bool :=
  String.eqb text "--" || String.eqb text "" || String.eqb text "-".

Definition parse_number (text : string) : Z :=
  let text := strip text in
  if is_placeholder text then 0
  else
    let text := remove_char ","%char text in
    match py_int text with
    | Some n => n
    | None => 0
    end.

Definition parse_distribution (text : string) : option pyfloat :=
  let text := strip text in
  if is_placeholder text then None
  else
    let text := remove_char "x"%char text in
    match py_float text with
    | Some f => Some f
    | None => None
    end.

End FacebookMetrics.

(** ** The browser world

    The workflows talk to a browser through Playwright.  Every call they
    make is an [Action]; the world records the actions in [trace] (latest
    first), keeps a wall clock in milliseconds, the set of open tabs and
    the files written.  What the browser answers is decided by an [Env],
    an oracle that sees the whole world so far. *)

Definition page : Type := nat.
Definition bytes : Type := list Byte.byte.

(** An [ElementHandle]: the page and selector that produced it, and its
    position among the matches. *)
Record element : Type := Element {
  el_page : page;
  el_selector : string;
  el_index : nat
}.

Inductive Action : Type :=
| ANewPage (p : page)                                (* ctx.new_page() *)
| AGoto (p : page) (url : string)                    (* page.goto *)
| AReload (p : page)                                 (* page.reload *)
| AWaitForSelector (p : page) (sel : string) (timeout_ms : Z)
| AQuerySelector (p : page) (sel : string)
| AQuerySelectorAll (p : page) (sel : string)
| ATextCount (p : page) (text : string) (exact : bool)  (* get_by_text(..).count() *)
| ATextClick (p : page) (text : string) (exact : bool)  (* get_by_text(..).first.click() *)
| AClick (el : element)
| AFill (el : element) (text : string)
| AGetAttribute (el : element) (name : string)
| AKeyPress (p : page) (key : string)
| AKeyType (p : page) (text : string)
| ARequestGet (p : page) (url : string)              (* page.request.get + body() *)
| AMkdirParent (path : string)                       (* out.parent.mkdir(...) *)
| AWriteBytes (path : string) (content : bytes)
| AClosePage (p : page)
| ASleep (ms : Z).

Record World : Type := mkWorld {
  now : Z;                       (* time.time(), in milliseconds *)
  trace : list Action;           (* actions performed, latest first *)
  open_pages : gset page;        (* tabs opened and not yet closed *)
  next_page : page;
  fs : gmap string bytes         (* files written so far *)
}.

Record Env : Type := mkEnv {
  (** time an action takes beyond its nominal duration, in milliseconds *)
  env_latency : World -> Action -> N;
  (** [Some msg]: the action raises [Exception(msg)] *)
  env_fault : World -> Action -> option string;
  (** [page.url] *)
  env_url : World -> page -> string;
  (** number of elements matching a selector *)
  env_count : World -> page -> string -> nat;
  (** number of elements matched by [get_by_text] *)
  env_text_count : World -> page -> string -> bool -> nat;
  (** [element.get_attribute(name)] *)
  env_attribute : World -> element -> string -> option string;
  (** body of the response to [page.request.get(url)] *)
  env_body : World -> page -> string -> bytes;
  (** [base64.b64decode]; [inl msg] stands for [binascii.Error(msg)] *)
  env_b64decode : string -> string + bytes;
  (** what a [Path.write_bytes] that raises leaves behind: [None] when the
      file could not be opened and is as it was, [Some n] when it was
      opened, which truncates it, and [n] bytes went in before the error *)
  env_partial : World -> string -> bytes -> option nat
}.

(** ** config.py *)

Module Config.
Definition GROK_URL : string := "https://grok.com/imagine".
Definition SORA_STORYBOARD_URL : string := "https://sora.chatgpt.com/storyboard".
Definition SORA_DRAFTS_URL : string := "https://sora.chatgpt.com/drafts".
Definition DEFAULT_TIMEOUT_MS : Z := 120000.
Definition SORA_TIMEOUT_MS : Z := 1800000.
Definition RETRY_ATTEMPTS : Z := 3.
Definition RETRY_DELAY_S : Z := 10.
Definition SORA_RETRY_DELAY_S : Z := 30.
Definition SCREENSHOT_POLL_INTERVAL_S : Z := 3.
Definition SORA_DRAFT_POLL_INTERVAL_S : Z := 30.
End Config.

(** ** Coroutines: state passing with exceptions

    An [async def] returning [A] is a function from the world to the new
    world and an outcome.  [Raise e] is a Python [Exception] whose [str]
    is [e]; [Diverge] marks a loop that ran out of its iteration budget
    (shown below never to happen). *)

Inductive outcome (A : Type) : Type :=
| Ret (a : A)
| Raise (e : string)
| Diverge.

Arguments Ret {A} a.
Arguments Raise {A} e.
Arguments Diverge {A}.

Definition Async (A : Type) : Type := World -> World * outcome A.

Definition ret {A} (a : A) : Async A := fun w => (w, Ret a).

Definition raise {A} (e : string) : Async A := fun w => (w, Raise e).

Definition bind {A B} (m : Async A) (k : A -> Async B) : Async B :=
  fun w =>
    match m w with
    | (w1, Ret a) => k a w1
    | (w1, Raise e) => (w1, Raise e)
    | (w1, Diverge) => (w1, Diverge)
    end.

Declare Scope async_scope.
Delimit Scope async_scope with async.
Notation "x <- m ;; k" := (bind m (fun x => k))
  (at level 100, m at next level, right associativity) : async_scope.
Notation "m ;; k" := (bind m (fun _ => k))
  (at level 100, right associativity) : async_scope.
Local Open Scope async_scope.

(** [try: m except Exception as e: handler(e)] *)
Definition try_except {A} (m : Async A) (handler : string -> Async A) : Async A :=
  fun w =>
    match m w with
    | (w1, Raise e) => handler e w1
    | r => r
    end.

(** [page = None; try: page = await acquire; body(page)
     except Exception as e: handler(page, e)]: the handler sees whether
    the page variable had been assigned when the exception was raised. *)
Definition try_with_page {A} (acquire : Async page) (body : page -> Async A)
    (handler : option page -> string -> Async A) : Async A :=
  fun w =>
    match acquire w with
    | (w1, Ret p) =>
        match body p w1 with
        | (w2, Raise e) => handler (Some p) e w2
        | r => r
        end
    | (w1, Raise e) => handler None e w1
    | (w1, Diverge) => (w1, Diverge)
    end.

(** [while time.time() < deadline: body], where the body either returns
    from the enclosing function ([Some a]) or falls through to the next
    iteration ([None]); leaving the loop yields [None].  [fuel] bounds the
    number of evaluations of the loop condition. *)
Fixpoint while_before {A} (fuel : nat) (deadline : Z) (body : Async (option A))
    : Async (option A) :=
  fun w =>
    match fuel with
    | O => (w, Diverge)
    | S fuel' =>
        if now w <? deadline then
          match body w with
          | (w1, Ret (Some a)) => (w1, Ret (Some a))
          | (w1, Ret None) => while_before fuel' deadline body w1
          | (w1, Raise e) => (w1, Raise e)
          | (w1, Diverge) => (w1, Diverge)
          end
        else (w, Ret None)
    end.

(** Iterations a loop with the given timeout can make when each one
    sleeps for [interval_ms], plus the final failing test. *)
Definition poll_fuel (timeout_ms interval_ms : Z) : nat :=
  Z.to_nat (timeout_ms / interval_ms) + 2.

(** ** Playwright calls *)

Section Playwright.
Context (E : Env).

Definition nominal (act : Action) : Z :=
  match act with
  | ASleep ms => ms
  | _ => 0
  end.

(** Log the action and let its time pass. *)
Definition advance (act : Action) (w : World) : World :=
  {| now := now w + nominal act + Z.of_N (env_latency E w act);
     trace := act :: trace w;
     open_pages := open_pages w;
     next_page := next_page w;
     fs := fs w |}.

(** A call into the browser: it may raise, otherwise it answers [value]
    and leaves [effect] on the world. *)
Definition perform {A} (act : Action) (value : World -> A)
    (effect : World -> World) : Async A :=
  fun w =>
    match env_fault E w act with
    | Some e => (advance act w, Raise e)
    | None => (effect (advance act w), Ret (value w))
    end.

Definition time_time : Async Z := fun w => (w, Ret (now w)).

(** [await asyncio.sleep(ms / 1000)] *)
Definition sleep (ms : Z) : Async unit :=
  fun w => (advance (ASleep ms) w, Ret tt).

Definition page_url (p : page) : Async string :=
  fun w => (w, Ret (env_url E w p)).

Definition with_open (p : page) (w : World) : World :=
  {| now := now w; trace := trace w;
     open_pages := {[p]} ∪ open_pages w;
     next_page := S (next_page w); fs := fs w |}.

Definition without_open (p : page) (w : World) : World :=
  {| now := now w; trace := trace w;
     open_pages := open_pages w ∖ {[p]};
     next_page := next_page w; fs := fs w |}.

Definition with_file (path : string) (content : bytes) (w : World) : World :=
  {| now := now w; trace := trace w; open_pages := open_pages w;
     next_page := next_page w; fs := <[path := content]> (fs w) |}.

Definition new_page : Async page :=
  fun w => perform (ANewPage (next_page w)) (fun _ => next_page w)
             (with_open (next_page w)) w.

Definition page_goto (p : page) (url : string) : Async unit :=
  perform (AGoto p url) (fun _ => tt) id.

Definition page_reload (p : page) : Async unit :=
  perform (AReload p) (fun _ => tt) id.

Definition wait_for_selector (p : page) (sel : string) (timeout_ms : Z)
    : Async unit :=
  perform (AWaitForSelector p sel timeout_ms) (fun _ => tt) id.

Definition query_selector (p : page) (sel : string) : Async (option element) :=
  perform (AQuerySelector p sel)
    (fun w => match env_count E w p sel with
              | O => None
              | S _ => Some (Element p sel 0)
              end) id.

Definition query_selector_all (p : page) (sel : string) : Async (list element) :=
  perform (AQuerySelectorAll p sel)
    (fun w => map (Element p sel) (seq 0 (env_count E w p sel))) id.

Definition text_count (p : page) (text : string) (exact : bool) : Async nat :=
  perform (ATextCount p text exact)
    (fun w => env_text_count E w p text exact) id.

Definition text_click_first (p : page) (text : string) (exact : bool)
    : Async unit :=
  perform (ATextClick p text exact) (fun _ => tt) id.

Definition click (el : element) : Async unit :=
  perform (AClick el) (fun _ => tt) id.

Definition fill (el : element) (text : string) : Async unit :=
  perform (AFill el text) (fun _ => tt) id.

Definition get_attribute (el : element) (name : string)
    : Async (option string) :=
  perform (AGetAttribute el name) (fun w => env_attribute E w el name) id.

Definition keyboard_press (p : page) (key : string) : Async unit :=
  perform (AKeyPress p key) (fun _ => tt) id.

Definition keyboard_type (p : page) (text : string) : Async unit :=
  perform (AKeyType p text) (fun _ => tt) id.

Definition request_get_body (p : page) (url : string) : Async bytes :=
  perform (ARequestGet p url) (fun w => env_body E w p url) id.

Definition mkdir_parent (path : string) : Async unit :=
  perform (AMkdirParent path) (fun _ => tt) id.

(** [Path.write_bytes]: [open(path, 'wb')] and one [write].  A call that
    returns has stored [content]; a call that raises has stored nothing, or
    has emptied the file and stored a prefix of [content]. *)
Definition write_bytes (path : string) (content : bytes) : Async unit :=
  fun w =>
    match env_fault E w (AWriteBytes path content) with
    | Some e =>
        (match env_partial E w path content with
         | Some n => with_file path (firstn n content)
                       (advance (AWriteBytes path content) w)
         | None => advance (AWriteBytes path content) w
         end, Raise e)
    | None => (with_file path content (advance (AWriteBytes path content) w),
               Ret tt)
    end.

(** [page.close()]: the tab is gone when the call returns.  When the call
    raises nothing has confirmed that the tab is gone, and it stays in
    [open_pages]. *)
Definition page_close (p : page) : Async unit :=
  fun w =>
    match env_fault E w (AClosePage p) with
    | Some e => (advance (AClosePage p) w, Raise e)
    | None => (without_open p (advance (AClosePage p) w), Ret tt)
    end.

End Playwright.

(** ** browser.py *)

Module Browser.
Section Browser.
Context (E : Env).

(** [get_context()] followed by [ctx.new_page()] is the single call
    [new_page]; [set_default_timeout] has no observable effect. *)
Definition get_page (url : string) : Async page :=
  p <- new_page E;;
  page_goto E p url;;
  ret p.

Definition wait_for_element (p : page) (selector : string) (timeout_ms : Z)
    : Async bool :=
  try_except
    (wait_for_selector E p selector timeout_ms;; ret true)
    (fun _ => ret false).

Definition close_page (p : page) : Async unit :=
  try_except (page_close E p) (fun _ => ret tt).

End Browser.
End Browser.

(** ** The retry loop shared by both workflows *)

(** The dict returned by the workflows; [error] is absent on success. *)
Record result : Type := mkResult {
  success : bool;
  path : string;
  generation_time_ms : Z;
  error : option string
}.

(** How one pass through the body of [for attempt in range(...)] ends:
    [return d], [continue] or [break], the last two with the value of
    [last_error] at that point.  Falling off the end of the [except]
    block is a [Continue]. *)
Inductive ctl : Type :=
| Return (d : result)
| Continue (last_error : string)
| Break (last_error : string).

Definition failed_result (last_error : string) : result :=
  {| success := false;
     path := "";
     generation_time_ms := 0;
     error := Some ("Failed after " +:+ pretty Config.RETRY_ATTEMPTS
                    +:+ " attempts: " +:+ last_error) |}.

(** [for attempt in attempts: body(attempt)] followed by the failure
    return after the loop. *)
Fixpoint for_attempts (body : Z -> Async ctl) (attempts : list Z)
    (last_error : string) : Async result :=
  match attempts with
  | [] => ret (failed_result last_error)
  | attempt :: rest =>
      c <- body attempt;;
      match c with
      | Return d => ret d
      | Continue e => for_attempts body rest e
      | Break e => ret (failed_result e)
      end
  end.

(** [range(1, RETRY_ATTEMPTS + 1)] *)
Definition attempt_range : list Z := seqZ 1 Config.RETRY_ATTEMPTS.

(** [last_error_of body attempts w w' e]: the attempts, run in order from
    [w], gave up in [w'], and [e] is the error of the last attempt that
    ran.  Every attempt before it ended in [continue]; the last one ended
    in [break], or in [continue] when no attempt was left. *)
Inductive last_error_of (body : Z -> Async ctl)
    : list Z -> World -> World -> string -> Prop :=
| last_break a rest w w' e :
    body a w = (w', Ret (Break e)) ->
    last_error_of body (a :: rest) w w' e
| last_continue a w w' e :
    body a w = (w', Ret (Continue e)) ->
    last_error_of body [a] w w' e
| earlier_continue a rest w w1 w' e1 e :
    body a w = (w1, Ret (Continue e1)) ->
    last_error_of body rest w1 w' e ->
    last_error_of body (a :: rest) w w' e.

Section Retry.
Context (E : Env).
Import Browser Config.

(** The block repeated at every recoverable failure:
    [if attempt < RETRY_ATTEMPTS: close_page; sleep; continue] then
    [break]. *)
Definition retry_or_break (delay_s attempt : Z) (p : page) (last_error : string)
    : Async ctl :=
  if attempt <? RETRY_ATTEMPTS then
    close_page E p;;
    sleep E (delay_s * 1000);;
    ret (Continue last_error)
  else ret (Break last_error).

(** The [except Exception as e] block. *)
Definition on_exception (delay_s attempt : Z) (p : option page) (e : string)
    : Async ctl :=
  match p with
  | Some p => close_page E p
  | None => ret tt
  end;;
  (if attempt <? RETRY_ATTEMPTS then sleep E (delay_s * 1000) else ret tt);;
  ret (Continue e).

End Retry.

(** ** grok.py *)

Module Grok.
Import PyStr Browser Config.

Definition editor_sel : string := "[contenteditable=" +:+ dq +:+ "true" +:+ dq +:+ "]".
Definition submit_sel : string := "button[aria-label=" +:+ dq +:+ "Submit" +:+ dq +:+ "]".
Definition image_sel : string := "img[alt=" +:+ dq +:+ "Generated image" +:+ dq +:+ "]".

(** Minimum length of a full-resolution data URI. *)
Definition FULL_RES_MIN : Z := 150000.

Section Grok.
Context (E : Env).

(** [for img in imgs:] with its early [return]. *)
Fixpoint scan_images (imgs : list element) : Async (option bytes) :=
  match imgs with
  | [] => ret None
  | img :: rest =>
      a <- get_attribute E img "src";;
      let src := default "" a in
      if startswith "data:image/" src && (FULL_RES_MIN <? len src) then
        match split_once ","%char src with
        | Some (_, encoded) =>
            match env_b64decode E encoded with
            | inr data => ret (Some data)
            | inl e => raise e
            end
        | None => raise "not enough values to unpack (expected 2, got 1)"
        end
      else scan_images rest
  end.

Definition _poll_for_loaded_image (p : page) (timeout_ms : Z)
    : Async (option bytes) :=
  t <- time_time;;
  let deadline := t + timeout_ms in
  while_before (poll_fuel timeout_ms (SCREENSHOT_POLL_INTERVAL_S * 1000))
    deadline
    (imgs <- query_selector_all E p image_sel;;
     found <- scan_images imgs;;
     match found with
     | Some data => ret (Some data)
     | None => sleep E (SCREENSHOT_POLL_INTERVAL_S * 1000);; ret None
     end).

(** The body of the [try] once [page] is bound. *)
Definition grok_steps (prompt output_path : string) (attempt start_time : Z)
    (p : page) : Async ctl :=
  sleep E 3000;;
  url <- page_url E p;;
  if contains "login" url || contains "oauth" url then
    retry_or_break E RETRY_DELAY_S attempt p
      "Redirected to login. Log in to X/Grok first (SMI_HEADLESS=false)"
  else
    found <- wait_for_element E p editor_sel 15000;;
    if negb found then
      retry_or_break E RETRY_DELAY_S attempt p
        "Could not find prompt editor on Grok Imagine page"
    else
      editor <- query_selector E p editor_sel;;
      match editor with
      | None => raise "'NoneType' object has no attribute 'click'"
      | Some editor =>
          click E editor;;
          keyboard_press E p "Control+a";;
          keyboard_press E p "Backspace";;
          keyboard_type E p prompt;;
          sleep E 500;;
          submit <- query_selector E p submit_sel;;
          match submit with
          | None =>
              retry_or_break E RETRY_DELAY_S attempt p
                "Could not find Submit button"
          | Some submit =>
              click E submit;;
              sleep E 20000;;
              image_data <- _poll_for_loaded_image p DEFAULT_TIMEOUT_MS;;
              match image_data with
              | None | Some [] =>
                  retry_or_break E RETRY_DELAY_S attempt p
                    "No full-res image found after generation"
              | Some data =>
                  mkdir_parent E output_path;;
                  write_bytes E output_path data;;
                  t <- time_time;;
                  let elapsed_ms := t - start_time in
                  close_page E p;;
                  ret (Return {| success := true;
                                 path := output_path;
                                 generation_time_ms := elapsed_ms;
                                 error := None |})
              end
          end
      end.

Definition grok_attempt (prompt output_path : string) (attempt : Z)
    : Async ctl :=
  start_time <- time_time;;
  try_with_page (get_page E GROK_URL)
    (grok_steps prompt output_path attempt start_time)
    (on_exception E RETRY_DELAY_S attempt).

Definition generate_grok_image (prompt output_path aspect_ratio : string)
    : Async result :=
  for_attempts (grok_attempt prompt output_path) attempt_range "".

End Grok.
End Grok.

(** ** sora.py *)

Module Sora.
Import PyStr Browser Config.

Definition master_sel : string :=
  "textarea[placeholder*=" +:+ dq +:+ "Describe your video" +:+ dq +:+ "]".
Definition has_text_sel (label : string) : string :=
  "button:has-text(" +:+ dq +:+ label +:+ dq +:+ ")".
Definition create_text_sel : string := has_text_sel "Create".
Definition create_aria_sel : string :=
  "button[aria-label=" +:+ dq +:+ "Create" +:+ dq +:+ "]".
Definition scene_sel : string :=
  "[class*=" +:+ dq +:+ "scene" +:+ dq +:+ "], [data-testid*="
  +:+ dq +:+ "scene" +:+ dq +:+ "]".
Definition draft_sel : string :=
  "a[href^=" +:+ dq +:+ "/d/" +:+ dq +:+ "]".
Definition tile_sel (href : string) : string :=
  "a[href=" +:+ dq +:+ href +:+ dq +:+ "]".

Definition timed_out_msg : string :=
  "Video generation timed out — no new draft appeared".

(** [[h for h in current_hrefs if h not in existing_draft_set]] *)
Definition new_hrefs (current_hrefs : list string)
    (existing_draft_set : gset string) : list string :=
  filter (fun h => h ∉ existing_draft_set) current_hrefs.

Section Sora.
Context (E : Env).

(** [for label in [...]] of [_set_duration], leaving [dur_btn]. *)
Fixpoint find_duration_button (p : page) (labels : list string)
    : Async (option element) :=
  match labels with
  | [] => ret None
  | label :: rest =>
      dur_btn <- query_selector E p (has_text_sel label);;
      match dur_btn with
      | Some b => ret (Some b)
      | None => find_duration_button p rest
      end
  end.

Definition _set_duration (p : page) (duration : Z) : Async unit :=
  try_except
    (dur_btn <- find_duration_button p ["10s"; "5s"; "15s"; "20s"; "25s"];;
     match dur_btn with
     | None => ret tt
     | Some dur_btn =>
         click E dur_btn;;
         sleep E 1000;;
         let option_text := pretty duration +:+ " seconds" in
         n <- text_count E p option_text true;;
         if (0 <? n)%nat then
           text_click_first E p option_text true;;
           sleep E 500
         else ret tt
     end)
    (fun _ => ret tt).

Definition _wait_for_scene_cards (p : page) (timeout_s : Z) : Async bool :=
  t <- time_time;;
  let deadline := t + timeout_s * 1000 in
  r <- while_before (poll_fuel (timeout_s * 1000) 5000) deadline
         (scenes <- query_selector_all E p scene_sel;;
          if (1 <=? length scenes)%nat then ret (Some tt)
          else
            n <- text_count E p "Scene 1" false;;
            if (0 <? n)%nat then ret (Some tt)
            else sleep E 5000;; ret None);;
  ret (match r with Some _ => true | None => false end).

(** [for link in links:] of [_get_draft_hrefs]. *)
Fixpoint collect_hrefs (links : list element) : Async (list string) :=
  match links with
  | [] => ret []
  | link :: rest =>
      href <- get_attribute E link "href";;
      hrefs <- collect_hrefs rest;;
      match href with
      | None | Some EmptyString => ret hrefs
      | Some h => ret (h :: hrefs)
      end
  end.

Definition _get_draft_hrefs (p : page) : Async (list string) :=
  links <- query_selector_all E p draft_sel;;
  collect_hrefs links.

Definition _poll_drafts_for_new (p : page) (existing_draft_set : gset string)
    (timeout_ms : Z) : Async (option string) :=
  t <- time_time;;
  let deadline := t + timeout_ms in
  while_before (poll_fuel timeout_ms (SORA_DRAFT_POLL_INTERVAL_S * 1000))
    deadline
    (current_hrefs <- _get_draft_hrefs p;;
     match new_hrefs current_hrefs existing_draft_set with
     | h :: _ => ret (Some h)
     | [] =>
         page_reload E p;;
         sleep E (SORA_DRAFT_POLL_INTERVAL_S * 1000);;
         ret None
     end).

(** Steps 1 to 7 once [page] is bound: everything up to and including
    the click on Create.  [inr existing_drafts] when Create has been
    clicked, [inl c] when the attempt ended before. *)
Definition sora_steps_1_to_7 (prompt : string) (duration attempt : Z)
    (p : page) : Async (ctl + gset string) :=
  sleep E 5000;;
  url <- page_url E p;;
  if contains "login" url then
    c <- retry_or_break E SORA_RETRY_DELAY_S attempt p
           ("Redirected to login. Please log in to ChatGPT/Sora first "
            +:+ "(requires ChatGPT Plus/Pro, run with SMI_HEADLESS=false)");;
    ret (inl c)
  else
    _set_duration p duration;;
    found <- wait_for_element E p master_sel 15000;;
    if negb found then
      c <- retry_or_break E SORA_RETRY_DELAY_S attempt p
             "Could not find master prompt textarea ('Describe your video...')";;
      ret (inl c)
    else
      textarea <- query_selector E p master_sel;;
      match textarea with
      | None => raise "'NoneType' object has no attribute 'click'"
      | Some textarea =>
          click E textarea;;
          fill E textarea prompt;;
          sleep E 1000;;
          keyboard_press E p "Enter";;
          sleep E 3000;;
          scene_cards_found <- _wait_for_scene_cards p 600;;
          drafts_page <- get_page E SORA_DRAFTS_URL;;
          sleep E 3000;;
          hrefs <- _get_draft_hrefs drafts_page;;
          let existing_drafts : gset string := list_to_set hrefs in
          close_page E drafts_page;;
          let create_clicked := false in
          create_btn <- query_selector E p create_text_sel;;
          create_btn <- match create_btn with
                        | Some b => ret (Some b)
                        | None => query_selector E p create_aria_sel
                        end;;
          match create_btn with
          | None =>
              c <- retry_or_break E SORA_RETRY_DELAY_S attempt p
                     "Could not find Create button";;
              ret (inl c)
          | Some create_btn =>
              (if negb create_clicked then
                 click E create_btn;;
                 sleep E 5000
               else ret tt);;
              ret (inr existing_drafts)
          end
      end.

(** Step 8 up to the poll: go to the drafts listing and wait for an
    entry that was not in the snapshot. *)
Definition sora_await_new_entry (p : page) (existing_drafts : gset string)
    : Async (option string) :=
  page_goto E p SORA_DRAFTS_URL;;
  sleep E 3000;;
  _poll_drafts_for_new p existing_drafts SORA_TIMEOUT_MS.

(** Steps 8 to 10: everything after the click on Create. *)
Definition sora_steps_8_to_10 (output_path : string) (start_time : Z)
    (p : page) (existing_drafts : gset string) : Async ctl :=
  new_draft_href <- sora_await_new_entry p existing_drafts;;
  match new_draft_href with
  | None | Some EmptyString => ret (Break timed_out_msg)
  | Some new_draft_href =>
      tile_link <- query_selector E p (tile_sel new_draft_href);;
      match tile_link with
      | Some tile_link => click E tile_link
      | None => page_goto E p ("https://sora.chatgpt.com" +:+ new_draft_href)
      end;;
      sleep E 5000;;
      video_el <- query_selector E p "video";;
      match video_el with
      | None => ret (Break "No <video> element found on detail page")
      | Some video_el =>
          a <- get_attribute E video_el "src";;
          let video_src := default "" a in
          if negb (startswith "http" video_src) then
            ret (Break ("Video src is not a URL: " +:+ take 80 video_src))
          else
            mkdir_parent E output_path;;
            content <- request_get_body E p video_src;;
            write_bytes E output_path content;;
            t <- time_time;;
            let elapsed_ms := t - start_time in
            close_page E p;;
            ret (Return {| success := true;
                           path := output_path;
                           generation_time_ms := elapsed_ms;
                           error := None |})
      end
  end.

Definition sora_steps (prompt output_path : string)
    (duration attempt start_time : Z) (p : page) : Async ctl :=
  r <- sora_steps_1_to_7 prompt duration attempt p;;
  match r with
  | inl c => ret c
  | inr existing_drafts =>
      sora_steps_8_to_10 output_path start_time p existing_drafts
  end.

Definition sora_attempt (prompt output_path : string) (duration attempt : Z)
    : Async ctl :=
  start_time <- time_time;;
  try_with_page (get_page E SORA_STORYBOARD_URL)
    (sora_steps prompt output_path duration attempt start_time)
    (on_exception E SORA_RETRY_DELAY_S attempt).

Definition generate_sora_video (prompt output_path : string) (duration : Z)
    (aspect_ratio : string) : Async result :=
  for_attempts (sora_attempt prompt output_path duration) attempt_range "".

End Sora.
End Sora.

(** ** server.py: the tool surface *)

Module Server.
Import Grok Sora.

Section Server.
Context (E : Env).
(** [str(Path(output_dir) / filename)] *)
Context (path_join : string -> string -> string).

Definition generate_image (prompt output_dir filename aspect_ratio : string)
    : Async result :=
  let output_path := path_join output_dir filename in
  generate_grok_image E prompt output_path aspect_ratio.

Definition generate_video (prompt output_dir filename : string)
    (duration : Z) (aspect_ratio : string) : Async result :=
  let output_path := path_join output_dir filename in
  generate_sora_video E prompt output_path duration aspect_ratio.

End Server.
End Server.

(** ** Concrete browsers used to run the workflows *)

Module Scenario.
Import PyStr Config Grok Sora.

Definition world0 : World :=
  {| now := 0; trace := []; open_pages := ∅; next_page := 0%nat; fs := ∅ |}.

(** Number of clicks on the Create button in a trace: the irrevocable
    commit action of the video workflow. *)
Definition is_commit (a : Action) : bool :=
  match a with
  | AClick el =>
      String.eqb (el_selector el) create_text_sel
      || String.eqb (el_selector el) create_aria_sel
  | _ => false
  end.

Definition commit_clicks (t : list Action) : nat :=
  length (List.filter is_commit t).

(** A browser in which every call returns at once and none fails. *)
Definition ideal (url : string) (count : World -> page -> string -> nat)
    (attribute : World -> element -> string -> option string) : Env :=
  {| env_latency := fun _ _ => 0%N;
     env_fault := fun _ _ => None;
     env_url := fun _ _ => url;
     env_count := count;
     env_text_count := fun _ _ _ _ => 0%nat;
     env_attribute := attribute;
     env_body := fun _ _ _ => [Byte.x00];
     env_b64decode := fun _ => inr [Byte.x01];
     env_partial := fun _ _ _ => None |}.

(** Every tab lands on the login page. *)
Definition env_login : Env :=
  ideal "https://accounts.example/login" (fun _ _ _ => 1%nat) (fun _ _ _ => None).

(** The drafts listing always shows the one old draft. *)
Definition env_stale : Env :=
  ideal "https://sora.chatgpt.com/storyboard" (fun _ _ _ => 1%nat)
    (fun _ _ name => if String.eqb name "href" then Some "/d/old" else None).

(** As [env_stale], and reloading the listing fails. *)
Definition env_reload_fails : Env :=
  {| env_latency := env_latency env_stale;
     env_fault := fun _ a =>
       match a with
       | AReload _ => Some "Timeout 120000ms exceeded."
       | _ => None
       end;
     env_url := env_url env_stale;
     env_count := env_count env_stale;
     env_text_count := env_text_count env_stale;
     env_attribute := env_attribute env_stale;
     env_body := env_body env_stale;
     env_b64decode := env_b64decode env_stale;
     env_partial := env_partial env_stale |}.

(** [n] copies of the character [c]. *)
Fixpoint repeat_char (c : ascii) (n : nat) : string :=
  match n with
  | O => EmptyString
  | S n' => String c (repeat_char c n')
  end.

(** A finished render: a data URI of 150,022 characters. *)
Definition full_src : string :=
  "data:image/png;base64," +:+ repeat_char "A"%char (Z.to_nat 150000).

(** The blurry placeholder shown while the image renders. *)
Definition placeholder_src : string :=
  "data:image/png;base64," +:+ repeat_char "A"%char 400.

(** The result image is there, fully rendered, from the start. *)
Definition env_rendered : Env :=
  ideal "https://grok.com/imagine" (fun _ _ _ => 1%nat)
    (fun _ _ name => if String.eqb name "src" then Some full_src else None).

Definition grok_run : World * outcome result :=
  generate_grok_image env_rendered "a red fox" "out/image.png" "1:1" world0.

(** The run of the video workflow against [env_stale], phase by phase:
    after the storyboard tab is open, after the click on Create, and
    after the wait on the drafts listing. *)
Definition stale_opened : World :=
  fst (Browser.get_page env_stale SORA_STORYBOARD_URL world0).

Definition stale_committed : World :=
  fst (sora_steps_1_to_7 env_stale "a red fox" 25 1 0%nat stale_opened).

Definition stale_snapshot : gset string := list_to_set ["/d/old"].

Definition stale_waited : World :=
  fst (sora_await_new_entry env_stale 0%nat stale_snapshot stale_committed).

(** The drafts listing shows the old draft, and a new one from the
    moment Create has been clicked; its detail view has the video. *)
Definition env_fresh : Env :=
  ideal "https://sora.chatgpt.com/storyboard"
    (fun w _ sel =>
       if String.eqb sel draft_sel
       then (if (1 <=? commit_clicks (trace w))%nat then 2 else 1)%nat
       else 1%nat)
    (fun _ el name =>
       if String.eqb name "href"
       then Some (match el_index el with
                  | O => "/d/old"
                  | S _ => "/d/new"
                  end)
       else if String.eqb name "src"
            then Some "https://videos.example/new.mp4"
            else None).

(** The render is a placeholder until 118 s have passed and the full
    image from then on. *)
Definition env_late : Env :=
  ideal "https://grok.com/imagine" (fun _ _ _ => 1%nat)
    (fun w _ name =>
       if String.eqb name "src"
       then Some (if now w <? 118000 then placeholder_src else full_src)
       else None).

(** The new draft is listed once 100 s have passed. *)
Definition env_arrives : Env :=
  ideal "https://sora.chatgpt.com/drafts"
    (fun w _ _ => if now w <? 100000 then 1%nat else 2%nat)
    (fun _ el name =>
       if String.eqb name "href"
       then Some (match el_index el with
                  | O => "/d/old"
                  | S _ => "/d/new"
                  end)
       else None).

(** As [env_arrives], and reloading the listing takes 15 s. *)
Definition env_sluggish : Env :=
  {| env_latency := fun _ a =>
       match a with
       | AReload _ => 15000%N
       | _ => 0%N
       end;
     env_fault := env_fault env_arrives;
     env_url := env_url env_arrives;
     env_count := env_count env_arrives;
     env_text_count := env_text_count env_arrives;
     env_attribute := env_attribute env_arrives;
     env_body := env_body env_arrives;
     env_b64decode := env_b64decode env_arrives;
     env_partial := env_partial env_arrives |}.

Definition fresh_opened : World :=
  fst (Browser.get_page env_fresh SORA_STORYBOARD_URL world0).

Definition fresh_committed : World :=
  fst (sora_steps_1_to_7 env_fresh "a red fox" 25 1 0%nat fresh_opened).

Definition fresh_waited : World :=
  fst (sora_await_new_entry env_fresh 0%nat stale_snapshot fresh_committed).

End Scenario.

(** ** Specifications of coroutines *)

(** [sat m w Q X]: run from [w], the coroutine [m] either returns a value
    and a world satisfying [Q] or raises an exception satisfying [X]; it
    does not run out of fuel. *)
Definition sat {A} (m : Async A) (w : World) (Q : World -> A -> Prop)
    (X : World -> string -> Prop) : Prop :=
  match m w with
  | (w', Ret a) => Q w' a
  | (w', Raise e) => X w' e
  | (_, Diverge) => False
  end.

(** What every step of a workflow preserves: the clock does not go back,
    the trace only grows, and (unless the step is the commit itself) no
    commit click is added. *)
Definition frame (w w' : World) : Prop :=
  now w <= now w' /\
  Scenario.commit_clicks (trace w') = Scenario.commit_clicks (trace w) /\
  trace w `suffix_of` trace w'.

(** A result dict as the docstrings promise it. *)
Definition well_formed (r : result) : Prop :=
  (success r = true /\ error r = None) \/
  (success r = false /\ path r = "" /\ generation_time_ms r = 0 /\
   exists e, error r = Some e).

(** A data URI long enough to be the final render. *)
Definition full_res_src (src : string) : Prop :=
  PyStr.startswith "data:image/" src = true /\ Grok.FULL_RES_MIN < PyStr.len src.

(** [data] is what [base64.b64decode] makes of the part of [src] after its
    first comma. *)
Definition decodes_to (E : Env) (src : string) (data : bytes) : Prop :=
  exists pre enc,
    PyStr.split_once ","%char src = Some (pre, enc) /\
    env_b64decode E enc = inr data.

(** [data] is the decoded payload of a full-resolution result image that
    the page showed at some moment [w0]. *)
Definition rendered_image (E : Env) (data : bytes) : Prop :=
  exists w0 img src,
    el_selector img = Grok.image_sel /\
    env_attribute E w0 img "src" = Some src /\
    full_res_src src /\ decodes_to E src data.

(** ** Postconditions of the workflows *)

Section Posts.
Context (E : Env).
Import Scenario Sora.

(** What a [return] from inside the loop body guarantees. *)
Definition grok_returned (output_path : string) (w' : World) (d : result)
    : Prop :=
  success d = true /\ error d = None /\ path d = output_path /\
  exists data, rendered_image E data /\ fs w' !! output_path = Some data.

(** [h] is the first entry not in [snap] of a listing [L] that was read
    at some moment [wa] after [w]. *)
Definition fresh_draft (w : World) (p : page) (snap : gset string)
    (h : string) : Prop :=
  exists wa wb L,
    trace w `suffix_of` trace wa /\
    _get_draft_hrefs E p wa = (wb, Ret L) /\
    head (new_hrefs L snap) = Some h.

(** What holds when steps 1 to 7 end with the click on Create: the
    snapshot [snap] is the listing [L] read at a moment when this attempt
    had not clicked yet, and exactly one click has been added since. *)
Definition snapshot_then_commit (w w' : World) (snap : gset string) : Prop :=
  now w <= now w' /\
  commit_clicks (trace w') = Datatypes.S (commit_clicks (trace w)) /\
  exists dp wa wb L,
    _get_draft_hrefs E dp wa = (wb, Ret L) /\
    snap = list_to_set L /\
    trace w `suffix_of` trace wb /\
    trace wb `suffix_of` trace w' /\
    commit_clicks (trace wb) = commit_clicks (trace w).

Definition not_returned (c : ctl) : Prop :=
  exists msg, c = Continue msg \/ c = Break msg.

Definition sora_returned (output_path : string) (d : result) : Prop :=
  success d = true /\ error d = None /\ path d = output_path.

End Posts.

(** ** The polling loops and their predicates *)

Section Polling.
Context (E : Env).
Import Config Grok Sora.

(** Calls into the browser take no time. *)
Definition instant : Prop := forall w a, env_latency E w a = 0%N.

(** The predicate of [_poll_for_loaded_image]: a full-resolution result
    image is on the page. *)
Definition image_check (p : page) : Async (option bytes) :=
  imgs <- query_selector_all E p image_sel;;
  scan_images E imgs.

(** The predicate of [_poll_drafts_for_new]: the listing has an entry
    that is not in the snapshot. *)
Definition draft_check (p : page) (snap : gset string) : Async (option string) :=
  current_hrefs <- _get_draft_hrefs E p;;
  ret (head (new_hrefs current_hrefs snap)).

Definition reload_ok (p : page) : Prop :=
  forall w, env_fault E w (AReload p) = None.

(** The predicate is negative at every moment before [T] and positive,
    with answer [a], at every moment from [T] on. *)
Definition turns_true_at {A} (check : Async (option A)) (T : Z) (a : A) : Prop :=
  (forall w, now w < T -> exists w', check w = (w', Ret None)) /\
  (forall w, T <= now w -> exists w', check w = (w', Ret (Some a))).

(** The predicate is negative at every moment before [D]. *)
Definition negative_before {A} (check : Async (option A)) (D : Z) : Prop :=
  forall w, now w < D -> exists w', check w = (w', Ret None).

Definition IMAGE_INTERVAL_MS : Z := SCREENSHOT_POLL_INTERVAL_S * 1000.
Definition DRAFT_INTERVAL_MS : Z := SORA_DRAFT_POLL_INTERVAL_S * 1000.

(** One turn of the loop of [_poll_for_loaded_image]. *)
Definition image_round (p : page) : Async (option bytes) :=
  imgs <- query_selector_all E p image_sel;;
  found <- scan_images E imgs;;
  match found with
  | Some data => ret (Some data)
  | None => sleep E (SCREENSHOT_POLL_INTERVAL_S * 1000);; ret None
  end.

(** One turn of the loop of [_poll_drafts_for_new]. *)
Definition draft_round (p : page) (snap : gset string) : Async (option string) :=
  current_hrefs <- _get_draft_hrefs E p;;
  match new_hrefs current_hrefs snap with
  | h :: _ => ret (Some h)
  | [] =>
      page_reload E p;;
      sleep E (SORA_DRAFT_POLL_INTERVAL_S * 1000);;
      ret None
  end.

(** What the browser adds to a turn of the loop is at most [lag]
    milliseconds: a turn that answers ends within [lag] of its start, a
    turn that does not within [interval + lag]. *)
Definition takes_at_most {A} (round : Async (option A)) (interval lag : Z)
    : Prop :=
  forall w w' r,
    round w = (w', Ret r) ->
    now w' <= now w + lag + match r with
                            | Some _ => 0
                            | None => interval
                            end.

(** The positive half of the polling property as the specification words
    it, for the loop [poll] with predicate [check] called in [w]: a
    predicate that turns true at [T], before the deadline, makes the loop
    return the positive result by [T] plus one interval. *)
Definition positive_as_specified {A} (check : Async (option A))
    (poll : Z -> Async (option A)) (interval timeout_ms : Z) (w : World)
    (T : Z) (a : A) : Prop :=
  turns_true_at check T a ->
  now w <= T -> T < now w + timeout_ms ->
  exists w',
    poll timeout_ms w = (w', Ret (Some a)) /\
    now w' <= T + interval.

(** The negative half as the specification words it: a predicate that
    does not turn true before the deadline makes the loop return the
    sentinel. *)
Definition negative_as_specified {A} (check : Async (option A))
    (poll : Z -> Async (option A)) (timeout_ms : Z) (w : World) : Prop :=
  negative_before check (now w + timeout_ms) ->
  exists w', poll timeout_ms w = (w', Ret None).

End Polling.

(** ** browser.py: the remaining page helpers *)

Module BrowserTools.
Import Browser.

(** The dict returned by [check_auth]. *)
Record auth_status : Type := mkAuth {
  authenticated : bool;
  message : string
}.

Section BrowserTools.
Context (E : Env).
(** [str(Path(output_path))] *)
Context (path_str : string -> string).

Definition download_file (p : page) (url output_path : string) : Async string :=
  content <- request_get_body E p url;;
  mkdir_parent E output_path;;
  write_bytes E output_path content;;
  ret (path_str output_path).

Definition check_auth (url auth_indicator_selector : string) : Async auth_status :=
  try_except
    (p <- get_page E url;;
     sleep E 2000;;
     found <- wait_for_element E p auth_indicator_selector 10000;;
     current_url <- page_url E p;;
     close_page E p;;
     if found then
       ret {| authenticated := true;
              message := "Session active at " +:+ current_url |}
     else
       ret {| authenticated := false;
              message := "Not authenticated. Please log in manually at "
                         +:+ url |})
    (fun e => ret {| authenticated := false;
                     message := "Error checking auth: " +:+ e |}).

End BrowserTools.
End BrowserTools.

(** ** server.py: the session check *)

Module ServerChecks.
Import PyStr Config BrowserTools.

Definition grok_indicator : string :=
  "textarea, input[type=" +:+ dq +:+ "text" +:+ dq
  +:+ "], [contenteditable=" +:+ dq +:+ "true" +:+ dq
  +:+ "], [role=" +:+ dq +:+ "textbox" +:+ dq +:+ "]".

Definition sora_indicator : string :=
  "textarea, button:has-text(" +:+ dq +:+ "Create" +:+ dq
  +:+ "), input[type=" +:+ dq +:+ "text" +:+ dq +:+ "]".

Definition check_browser_session (E : Env) : Async (auth_status * auth_status) :=
  grok_status <- check_auth E GROK_URL grok_indicator;;
  sora_status <- check_auth E SORA_STORYBOARD_URL sora_indicator;;
  ret (grok_status, sora_status).

End ServerChecks.

(** ** browser.py: the session singletons

    [_playwright] and [_context] are module globals.  They are modelled on
    their own: the calls they make into Playwright are [SessionCall]s, and
    a [SessionEnv] says which of them raise. *)

Module Session.

Inductive SessionCall : Type :=
| CStart                      (* async_playwright().start() *)
| CProbe (ctx : nat)          (* _context.pages *)
| CMkdir                      (* user_data.mkdir(parents=True, exist_ok=True) *)
| CLaunch (pw : nat)          (* pw.chromium.launch_persistent_context(...) *)
| CCloseContext (ctx : nat)   (* _context.close() *)
| CStop (pw : nat).           (* _playwright.stop() *)

Record Globals : Type := mkGlobals {
  g_playwright : option nat;       (* _playwright *)
  g_context : option nat;          (* _context *)
  g_calls : list SessionCall;      (* calls made, latest first *)
  g_next : nat                     (* next fresh handle *)
}.

(** [Some msg]: the call raises [Exception(msg)]. *)
Definition SessionEnv : Type := Globals -> SessionCall -> option string.

Definition logged (c : SessionCall) (g : Globals) : Globals :=
  {| g_playwright := g_playwright g; g_context := g_context g;
     g_calls := c :: g_calls g; g_next := g_next g |}.

Definition set_playwright (h : option nat) (g : Globals) : Globals :=
  {| g_playwright := h; g_context := g_context g;
     g_calls := g_calls g; g_next := g_next g |}.

Definition set_context (h : option nat) (g : Globals) : Globals :=
  {| g_playwright := g_playwright g; g_context := h;
     g_calls := g_calls g; g_next := g_next g |}.

Definition fresh (g : Globals) : Globals :=
  {| g_playwright := g_playwright g; g_context := g_context g;
     g_calls := g_calls g; g_next := S (g_next g) |}.

Section Session.
Context (F : SessionEnv).

Definition _ensure_playwright (g : Globals) : Globals * outcome nat :=
  match g_playwright g with
  | Some pw => (g, Ret pw)
  | None =>
      match F g CStart with
      | Some e => (logged CStart g, Raise e)
      | None =>
          let pw := g_next g in
          (set_playwright (Some pw) (fresh (logged CStart g)), Ret pw)
      end
  end.

(** The part of [get_context] after the liveness check. *)
Definition launch_context (g : Globals) : Globals * outcome nat :=
  match _ensure_playwright g with
  | (g1, Ret pw) =>
      match F g1 CMkdir with
      | Some e => (logged CMkdir g1, Raise e)
      | None =>
          let g2 := logged CMkdir g1 in
          match F g2 (CLaunch pw) with
          | Some e => (logged (CLaunch pw) g2, Raise e)
          | None =>
              let ctx := g_next g2 in
              (set_context (Some ctx) (fresh (logged (CLaunch pw) g2)), Ret ctx)
          end
      end
  | (g1, Raise e) => (g1, Raise e)
  | (g1, Diverge) => (g1, Diverge)
  end.

Definition get_context (g : Globals) : Globals * outcome nat :=
  match g_context g with
  | Some ctx =>
      match F g (CProbe ctx) with
      | None => (logged (CProbe ctx) g, Ret ctx)
      | Some _ => launch_context (set_context None (logged (CProbe ctx) g))
      end
  | None => launch_context g
  end.

Definition shutdown (g : Globals) : Globals * outcome unit :=
  let g1 :=
    match g_context g with
    | Some ctx =>
        match F g (CCloseContext ctx) with
        | Some _ => set_context None (logged (CCloseContext ctx) g)  (* pass *)
        | None => set_context None (logged (CCloseContext ctx) g)
        end
    | None => g
    end in
  let g2 :=
    match g_playwright g1 with
    | Some pw =>
        match F g1 (CStop pw) with
        | Some _ => set_playwright None (logged (CStop pw) g1)  (* pass *)
        | None => set_playwright None (logged (CStop pw) g1)
        end
    | None => g1
    end in
  (g2, Ret tt).

End Session.

(** Number of times Playwright was started. *)
Definition starts (calls : list SessionCall) : nat :=
  length (List.filter (fun c => match c with CStart => true | _ => false end) calls).

(** Number of persistent contexts launched. *)
Definition launches (calls : list SessionCall) : nat :=
  length (List.filter (fun c => match c with CLaunch _ => true | _ => false end) calls).

End Session.

(** ** facebook_metrics.py: the content library scraper *)

Module Scraper.
Import PyStr PyNum FacebookMetrics Browser.

Definition FB_CONTENT_LIBRARY : string :=
  "https://www.facebook.com/professional_dashboard/content/content_library/".
Definition PAGE_LOAD_TIMEOUT_MS : Z := 30000.
Definition table_sel : string :=
  "[aria-label=" +:+ dq +:+ "Content Library" +:+ dq +:+ "]".

(** One element of [raw_rows]: the object the in-page script builds for a
    table row.  A key may be absent; [row.get(key, default)] then yields
    the default. *)
Record raw_row : Type := mkRawRow {
  r_caption : option string;
  r_publishedAt : option string;
  r_postType : option string;
  r_metrics : option (list string)
}.

Record post : Type := mkPost {
  caption : string;
  post_type : string;
  published_at : string;
  views : Z;
  viewers : Z;
  engagement : Z;
  net_follows : Z;
  impressions : Z;
  comments : Z;
  distribution : option pyfloat;
  watch_time_ms : Z
}.

(** [metrics[i] if len(metrics) > i else dflt] *)
Definition metric (metrics : list string) (i : nat) (dflt : string) : string :=
  match nth_error metrics i with
  | Some s => s
  | None => dflt
  end.

(** The body of [for row in raw_rows:]. *)
Definition parse_row (row : raw_row) : post :=
  let metrics := default [] (r_metrics row) in
  let watch_time := parse_number (metric metrics 7 "0") in
  let post_type := default "post" (r_postType row) in
  let post_type :=
    if String.eqb post_type "post" && (0 <? watch_time) then "reel"
    else post_type in
  {| caption := default "" (r_caption row);
     post_type := post_type;
     published_at := default "" (r_publishedAt row);
     views := parse_number (metric metrics 0 "0");
     viewers := parse_number (metric metrics 1 "0");
     engagement := parse_number (metric metrics 2 "0");
     net_follows := parse_number (metric metrics 3 "0");
     impressions := parse_number (metric metrics 4 "0");
     comments := parse_number (metric metrics 5 "0");
     distribution := parse_distribution (metric metrics 6 "--");
     watch_time_ms := watch_time |}.

(** The dict returned by the scraper; [post_count] and [elapsed_ms] are
    present on success, [error] on failure. *)
Record scrape_result : Type := mkScrape {
  s_success : bool;
  s_posts : list post;
  s_post_count : option Z;
  s_scraped_at : string;
  s_elapsed_ms : option Z;
  s_error : option string
}.

(** What the three in-page scripts of the scraper answer: the time the
    call takes, and either an exception text or the value.  They leave no
    entry in the trace. *)
Record Scripts : Type := mkScripts {
  js_scroll : World -> page -> N * option string;
  js_row_count : World -> page -> N * (string + Z);
  js_rows : World -> page -> N * (string + list raw_row)
}.

Definition elapse (ms : N) (w : World) : World :=
  {| now := now w + Z.of_N ms; trace := trace w; open_pages := open_pages w;
     next_page := next_page w; fs := fs w |}.

Section Scraper.
Context (E : Env) (J : Scripts).
(** [datetime.fromtimestamp(t, timezone.utc).isoformat()] *)
Context (isoformat : Z -> string).

Definition _iso_now : Async string := fun w => (w, Ret (isoformat (now w))).

(** [page.evaluate("window.scrollTo(0, document.body.scrollHeight)")] *)
Definition evaluate_scroll (p : page) : Async unit :=
  fun w =>
    match js_scroll J w p with
    | (ms, Some e) => (elapse ms w, Raise e)
    | (ms, None) => (elapse ms w, Ret tt)
    end.

(** [page.evaluate] of the script that counts the table rows. *)
Definition evaluate_row_count (p : page) : Async Z :=
  fun w =>
    match js_row_count J w p with
    | (ms, inl e) => (elapse ms w, Raise e)
    | (ms, inr n) => (elapse ms w, Ret n)
    end.

(** [page.evaluate] of the script that extracts the rows. *)
Definition evaluate_rows (p : page) : Async (list raw_row) :=
  fun w =>
    match js_rows J w p with
    | (ms, inl e) => (elapse ms w, Raise e)
    | (ms, inr rows) => (elapse ms w, Ret rows)
    end.

(** [for _ in range(rounds):] of the scroll loop, entered with
    [prev_count]. *)
Fixpoint scroll_loop (p : page) (rounds : nat) (prev_count : Z) : Async unit :=
  match rounds with
  | O => ret tt
  | S rounds' =>
      evaluate_scroll p;;
      sleep E 1000;;
      curr_count <- evaluate_row_count p;;
      if curr_count =? prev_count then ret tt
      else scroll_loop p rounds' curr_count
  end.

Definition failed_scrape (scraped_at e : string) : scrape_result :=
  {| s_success := false; s_posts := []; s_post_count := None;
     s_scraped_at := scraped_at; s_elapsed_ms := None; s_error := Some e |}.

(** The body of the [try] once [page] is bound. *)
Definition scrape_steps (start : Z) (p : page) : Async scrape_result :=
  table_found <- wait_for_element E p table_sel PAGE_LOAD_TIMEOUT_MS;;
  if negb table_found then
    url <- page_url E p;;
    if contains "login" (lower_str url) then
      close_page E p;;
      scraped_at <- _iso_now;;
      ret (failed_scrape scraped_at
             "Not logged in. Run with SMI_HEADLESS=false and log in manually.")
    else
      close_page E p;;
      scraped_at <- _iso_now;;
      ret (failed_scrape scraped_at "Content Library table not found on page.")
  else
    sleep E 2000;;
    scroll_loop p 10 0;;
    raw_rows <- evaluate_rows p;;
    let posts := map parse_row raw_rows in
    close_page E p;;
    t <- time_time;;
    let elapsed := t - start in
    scraped_at <- _iso_now;;
    ret {| s_success := true;
           s_posts := posts;
           s_post_count := Some (Z.of_nat (length posts));
           s_scraped_at := scraped_at;
           s_elapsed_ms := Some elapsed;
           s_error := None |}.

Definition scrape_facebook_content_library : Async scrape_result :=
  start <- time_time;;
  try_with_page (get_page E FB_CONTENT_LIBRARY)
    (scrape_steps start)
    (fun p e =>
       match p with
       | Some p => close_page E p
       | None => ret tt
       end;;
       scraped_at <- _iso_now;;
       ret (failed_scrape scraped_at e)).

End Scraper.
End Scraper.

(** ** What a step leaves alone *)

(** The step kept the [frame] and wrote no file. *)
Definition calm (w w' : World) : Prop :=
  frame w w' /\ fs w' = fs w.

(** The step wrote no file and clicked Create at most once. *)
Definition spent (w w' : World) : Prop :=
  now w <= now w' /\ fs w' = fs w /\
  (Scenario.commit_clicks (trace w') <= S (Scenario.commit_clicks (trace w)))%nat.

(** A write to [out] that raises leaves the file as it was. *)
Definition clean_failure (E : Env) (out : string) : Prop :=
  forall w content e,
    env_fault E w (AWriteBytes out content) = Some e ->
    env_partial E w out content = None.

(** Between [w] and [w'] no file but [out] has changed. *)
Definition only_output (out : string) (w w' : World) : Prop :=
  forall q, q <> out -> fs w' !! q = fs w !! q.

(** Between [w] and [w'] no file but [out] has changed, and [out] has
    changed only if a write to it broke off half way. *)
Definition kept (E : Env) (out : string) (w w' : World) : Prop :=
  only_output out w w' /\ (clean_failure E out -> fs w' = fs w).

(** How the steps of an attempt end when they started at [w] and the
    attempt's clock reading was [start_time]: a [return] is a success that
    reports at least [least] milliseconds on top of what had passed;
    anything else has [kept] the files. *)
Definition ended (E : Env) (out : string) (least start_time : Z)
    (w w' : World) (c : ctl) : Prop :=
  match c with
  | Return d => success d = true /\
                now w - start_time + least <= generation_time_ms d /\
                only_output out w w'
  | _ => kept E out w w'
  end.

(** How a whole attempt ends: at most one more click on Create, and
    either a success reporting at least [least] milliseconds or the files
    [kept]. *)
Definition attempt_post (E : Env) (out : string) (least : Z) (w w' : World)
    (c : ctl) : Prop :=
  (Scenario.commit_clicks (trace w') <= S (Scenario.commit_clicks (trace w)))%nat /\
  match c with
  | Return d => success d = true /\ least <= generation_time_ms d /\
                only_output out w w'
  | _ => kept E out w w'
  end.

(** How a whole call ends. *)
Definition call_post (E : Env) (out : string) (least : Z) (attempts : nat)
    (w w' : World) (r : result) : Prop :=
  (Scenario.commit_clicks (trace w')
   <= Scenario.commit_clicks (trace w) + attempts)%nat /\
  only_output out w w' /\
  ((success r = true /\ least <= generation_time_ms r) \/
   (success r = false /\ kept E out w w')).

(** ** More concrete browsers *)

Module MoreScenarios.
Import Scenario.

(** Tabs open, but every navigation fails. *)
Definition env_offline : Env :=
  {| env_latency := env_latency env_stale;
     env_fault := fun _ a =>
       match a with
       | AGoto _ _ => Some "net::ERR_INTERNET_DISCONNECTED"
       | _ => None
       end;
     env_url := env_url env_stale;
     env_count := env_count env_stale;
     env_text_count := env_text_count env_stale;
     env_attribute := env_attribute env_stale;
     env_body := env_body env_stale;
     env_b64decode := env_b64decode env_stale;
     env_partial := env_partial env_stale |}.

End MoreScenarios.

(** ** Postconditions for the scraper *)

(** The step let time pass and touched no tab. *)
Definition steady (w w' : World) : Prop :=
  now w <= now w' /\ open_pages w' = open_pages w.

(** The last call was [close] on the tab [p], made in a world that had
    the tabs [tabs] open, and the tab is gone if that call did not
    raise. *)
Definition closed_last (E : Env) (p : page) (tabs : gset page) (w' : World)
    : Prop :=
  exists w0,
    open_pages w0 = tabs /\
    trace w' = AClosePage p :: trace w0 /\
    (env_fault E w0 (AClosePage p) = None -> open_pages w' = tabs ∖ {[p]}).

(** A scrape result as the docstring promises it. *)
Definition scrape_shape (r : Scraper.scrape_result) : Prop :=
  (Scraper.s_success r = true /\ Scraper.s_error r = None /\
   Scraper.s_post_count r = Some (Z.of_nat (length (Scraper.s_posts r))) /\
   exists t, Scraper.s_elapsed_ms r = Some t /\ 3000 <= t) \/
  (Scraper.s_success r = false /\ Scraper.s_posts r = [] /\
   Scraper.s_post_count r = None /\ Scraper.s_elapsed_ms r = None /\
   exists e, Scraper.s_error r = Some e).

(** Every character of the string satisfies [f]. *)
Fixpoint str_forall (f : ascii -> bool) (s : string) : bool :=
  match s with
  | EmptyString => true
  | String c s' => f c && str_forall f s'
  end.

(** The characters an integer metric may be written with: digits, white
    space, thousands commas, underscores and a sign. *)
Definition numeric_char (c : ascii) : bool :=
  PyStr.is_digit c || PyStr.is_space c || Ascii.eqb c ","%char
  || Ascii.eqb c "_"%char || Ascii.eqb c "+"%char || Ascii.eqb c "-"%char.


(** * Properties *)

(** ** Rules for [sat] *)

Section SatRules.
Context {A B : Type}.
Implicit Types (w : World) (X : World -> string -> Prop).

Lemma sat_ret (a : A) w (Q : World -> A -> Prop) X :
  Q w a -> sat (ret a) w Q X.
Proof. intros H. exact H. Qed.

Lemma sat_raise (e : string) w (Q : World -> A -> Prop) X :
  X w e -> sat (raise e) w Q X.
Proof. intros H. exact H. Qed.

Lemma sat_conseq (m : Async A) w (Q Q' : World -> A -> Prop) X X' :
  sat m w Q X ->
  (forall w' a, m w = (w', Ret a) -> Q w' a -> Q' w' a) ->
  (forall w' e, m w = (w', Raise e) -> X w' e -> X' w' e) ->
  sat m w Q' X'.
Proof.
  unfold sat. destruct (m w) as [w' [a|e|]]; intros H HQ HX; auto.
Qed.

Lemma sat_bind (m : Async A) (k : A -> Async B) w
    (Qm : World -> A -> Prop) Xm (Q : World -> B -> Prop) X :
  sat m w Qm Xm ->
  (forall w1 a, m w = (w1, Ret a) -> Qm w1 a -> sat (k a) w1 Q X) ->
  (forall w1 e, m w = (w1, Raise e) -> Xm w1 e -> X w1 e) ->
  sat (bind m k) w Q X.
Proof.
  unfold sat, bind. destruct (m w) as [w1 [a|e|]]; intros H HQ HX; auto.
  apply HQ; auto.
Qed.

Lemma sat_run (m : Async A) w (Q : World -> A -> Prop) X w' a :
  sat m w Q X -> m w = (w', Ret a) -> Q w' a.
Proof. unfold sat. intros H Heq. rewrite Heq in H. exact H. Qed.

Lemma sat_total (m : Async A) w (Q : World -> A -> Prop) :
  sat m w Q (fun _ _ => False) -> exists w' a, m w = (w', Ret a) /\ Q w' a.
Proof.
  unfold sat. destruct (m w) as [w' [a|e|]]; intros H; try contradiction.
  eauto.
Qed.

End SatRules.

Lemma sat_try_except {A} (m : Async A) (h : string -> Async A) w
    (Qm : World -> A -> Prop) Xm (Q : World -> A -> Prop) X :
  sat m w Qm Xm ->
  (forall w1 a, m w = (w1, Ret a) -> Qm w1 a -> Q w1 a) ->
  (forall w1 e, m w = (w1, Raise e) -> Xm w1 e -> sat (h e) w1 Q X) ->
  sat (try_except m h) w Q X.
Proof.
  unfold sat, try_except. destruct (m w) as [w1 [a|e|]]; intros H HQ HX; auto.
  apply HX; auto.
Qed.

Lemma sat_try_with_page {A} (acquire : Async page) (body : page -> Async A)
    (h : option page -> string -> Async A) w
    (Qa : World -> page -> Prop) Xa (Q : World -> A -> Prop) X :
  sat acquire w Qa Xa ->
  (forall w1 e, Xa w1 e -> sat (h None e) w1 Q X) ->
  (forall w1 p, Qa w1 p ->
     sat (body p) w1 Q (fun w2 e => sat (h (Some p) e) w2 Q X)) ->
  sat (try_with_page acquire body h) w Q X.
Proof.
  intros H Hn Hb. unfold sat, try_with_page in *.
  destruct (acquire w) as [w1 [p|e|]]; [ | exact (Hn _ _ H) | exact H].
  specialize (Hb _ _ H).
  destruct (body p w1) as [w2 [a|e|]]; auto.
Qed.

(** ** The frame *)

Lemma frame_refl w : frame w w.
Proof. split; [lia | split; reflexivity]. Qed.

Lemma frame_trans w1 w2 w3 : frame w1 w2 -> frame w2 w3 -> frame w1 w3.
Proof.
  intros (H1 & H2 & H3) (H4 & H5 & H6).
  split; [lia | split; [congruence | etrans; eassumption]].
Qed.

Lemma frame_advance E act w :
  Scenario.is_commit act = false -> 0 <= nominal act ->
  frame w (advance E act w).
Proof.
  intros Hc Hn. split; [|split]; cbn.
  - pose proof (N2Z.is_nonneg (env_latency E w act)). lia.
  - unfold Scenario.commit_clicks. cbn. rewrite Hc. reflexivity.
  - apply suffix_cons_r. reflexivity.
Qed.

(** ** Specifications of the Playwright calls *)

Section Calls.
Context (E : Env).
Import Scenario.

Lemma sat_perform {A} act (v : World -> A) eff w :
  sat (perform E act v eff) w
    (fun w' a => env_fault E w act = None /\
                 w' = eff (advance E act w) /\ a = v w)
    (fun w' e => env_fault E w act = Some e /\ w' = advance E act w).
Proof.
  unfold sat, perform. destruct (env_fault E w act); auto.
Qed.

(** A call that is not the commit and leaves no effect but its log. *)
Lemma sat_call {A} act (v : World -> A) w :
  is_commit act = false -> 0 <= nominal act ->
  sat (perform E act v id) w
    (fun w' a => frame w w' /\ a = v w) (fun w' _ => frame w w').
Proof.
  intros Hc Hn. eapply sat_conseq; [apply sat_perform | |]; cbn.
  - intros w' a _ (_ & -> & ->). split; [|reflexivity].
    apply frame_advance; assumption.
  - intros w' e _ (_ & ->). apply frame_advance; assumption.
Qed.

Lemma sat_time_time w :
  sat (time_time) w (fun w' t => w' = w /\ t = now w) (fun _ _ => False).
Proof. split; reflexivity. Qed.

Lemma sat_page_url p w :
  sat (page_url E p) w (fun w' u => w' = w /\ u = env_url E w p)
    (fun _ _ => False).
Proof. split; reflexivity. Qed.

Lemma sat_sleep ms w :
  0 <= ms ->
  sat (sleep E ms) w (fun w' _ => frame w w' /\ now w + ms <= now w')
    (fun _ _ => False).
Proof.
  intros Hms. unfold sat, sleep. split.
  - apply frame_advance; [reflexivity | exact Hms].
  - cbn. pose proof (N2Z.is_nonneg (env_latency E w (ASleep ms))). lia.
Qed.

Lemma sat_new_page w :
  sat (new_page E) w (fun w' _ => frame w w') (fun w' _ => frame w w').
Proof.
  unfold new_page.
  eapply sat_conseq; [apply sat_perform | |]; cbn.
  - intros w' a _ (_ & -> & _).
    apply (frame_advance E (ANewPage (next_page w)) w); [reflexivity | cbn; lia].
  - intros w' e _ (_ & ->).
    apply (frame_advance E (ANewPage (next_page w)) w); [reflexivity | cbn; lia].
Qed.

Lemma sat_write_bytes path content w :
  sat (write_bytes E path content) w
    (fun w' _ => frame w w' /\ fs w' = <[path := content]> (fs w))
    (fun w' _ => frame w w').
Proof.
  assert (Hf : frame w (advance E (AWriteBytes path content) w))
    by (apply frame_advance; [reflexivity | cbn; lia]).
  unfold sat, write_bytes.
  destruct (env_fault E w (AWriteBytes path content)).
  - destruct (env_partial E w path content); exact Hf.
  - split; [exact Hf | reflexivity].
Qed.

(** The commit click: whether or not the call raises, one more click on
    Create is on record. *)
Lemma sat_click_commit el w :
  is_commit (AClick el) = true ->
  sat (click E el) w
    (fun w' _ => now w <= now w' /\
                 commit_clicks (trace w') = S (commit_clicks (trace w)) /\
                 trace w `suffix_of` trace w')
    (fun w' _ => now w <= now w' /\
                 commit_clicks (trace w') = S (commit_clicks (trace w)) /\
                 trace w `suffix_of` trace w').
Proof.
  intros Hc. unfold click.
  assert (Hadv : now w <= now (advance E (AClick el) w) /\
                 commit_clicks (trace (advance E (AClick el) w))
                 = S (commit_clicks (trace w)) /\
                 trace w `suffix_of` trace (advance E (AClick el) w)).
  { split; [|split]; cbn.
    - pose proof (N2Z.is_nonneg (env_latency E w (AClick el))). lia.
    - unfold commit_clicks. cbn [List.filter]. cbn in Hc. rewrite Hc.
      reflexivity.
    - apply suffix_cons_r. reflexivity. }
  eapply sat_conseq; [apply sat_perform | |]; cbn.
  - intros w' a _ (_ & -> & _). exact Hadv.
  - intros w' e _ (_ & ->). exact Hadv.
Qed.

Lemma sat_query_selector p sel w :
  sat (query_selector E p sel) w
    (fun w' r => frame w w' /\ (r = None \/ r = Some (Element p sel 0)))
    (fun w' _ => frame w w').
Proof.
  eapply sat_conseq; [unfold query_selector; apply sat_call | |]; cbn;
    try reflexivity; try lia; auto.
  intros w' r _ [Hf ->]. split; [exact Hf|].
  destruct (env_count E w p sel); auto.
Qed.

Lemma sat_close_page p w :
  sat (Browser.close_page E p) w (fun w' _ => frame w w' /\ fs w' = fs w)
    (fun _ _ => False).
Proof.
  unfold sat, Browser.close_page, try_except, page_close.
  assert (Hf : frame w (advance E (AClosePage p) w)).
  { apply (frame_advance E (AClosePage p) w); [reflexivity | cbn; lia]. }
  destruct (env_fault E w (AClosePage p)); cbn; auto.
Qed.

End Calls.

(** ** Loops *)

Lemma poll_fuel_enough timeout_ms interval_ms :
  0 < interval_ms ->
  timeout_ms <= (Z.of_nat (poll_fuel timeout_ms interval_ms) - 1) * interval_ms.
Proof.
  intros Hi. unfold poll_fuel.
  pose proof (Z.div_mod timeout_ms interval_ms ltac:(lia)) as Hdm.
  pose proof (Z.mod_pos_bound timeout_ms interval_ms Hi) as Hm.
  destruct (Z_lt_le_dec (timeout_ms / interval_ms) 0) as [Hneg | Hpos].
  - assert (Z.to_nat (timeout_ms / interval_ms) = 0%nat) as -> by lia.
    cbn. nia.
  - rewrite Nat2Z.inj_add, Z2Nat.id by lia. nia.
Qed.

Lemma sat_while {A} (body : Async (option A)) interval deadline
    (Inv : World -> Prop) (Q : World -> option A -> Prop) X :
  0 < interval ->
  (forall w, Inv w -> now w < deadline ->
     sat body w
       (fun w1 r => match r with
                    | Some a => Q w1 (Some a)
                    | None => Inv w1 /\ now w + interval <= now w1
                    end) X) ->
  (forall w, Inv w -> deadline <= now w -> Q w None) ->
  forall fuel w,
    Inv w -> deadline - now w <= (Z.of_nat fuel - 1) * interval ->
    (1 <= fuel)%nat ->
    sat (while_before fuel deadline body) w Q X.
Proof.
  intros Hi Hbody Hexit. induction fuel as [|fuel IH]; intros w Hinv Hfuel Hpos.
  - lia.
  - unfold sat. cbn [while_before].
    destruct (Z.ltb_spec (now w) deadline) as [Hlt | Hge].
    + specialize (Hbody w Hinv Hlt). unfold sat in Hbody.
      destruct (body w) as [w1 [[a|]|e|]]; auto.
      destruct Hbody as [Hinv1 Hadv].
      apply IH; [exact Hinv1 | nia | nia].
    + apply Hexit; assumption.
Qed.

(** The loop as the polling functions call it: the deadline is [timeout]
    after the current time and the fuel is [poll_fuel]. *)
Lemma sat_poll {A} (body : Async (option A)) interval timeout w
    (Inv : World -> Prop) (Q : World -> option A -> Prop) X :
  0 < interval ->
  Inv w ->
  (forall w0, Inv w0 ->
     sat body w0
       (fun w1 r => match r with
                    | Some a => Q w1 (Some a)
                    | None => Inv w1 /\ now w0 + interval <= now w1
                    end) X) ->
  (forall w0, Inv w0 -> Q w0 None) ->
  sat (while_before (poll_fuel timeout interval) (now w + timeout) body) w Q X.
Proof.
  intros Hi Hinv Hbody Hexit.
  apply (sat_while body interval (now w + timeout) Inv Q X); auto.
  - pose proof (poll_fuel_enough timeout interval Hi). lia.
  - unfold poll_fuel. lia.
Qed.

(** ** Tactics for stepping through a coroutine *)

Ltac unfold_calls :=
  unfold page_goto, page_reload, wait_for_selector, query_selector,
    query_selector_all, text_count, text_click_first, click, fill,
    get_attribute, keyboard_press, keyboard_type, request_get_body,
    mkdir_parent.

(** A browser call that is not the commit. *)
Ltac call := unfold_calls; apply sat_call; [reflexivity | cbn; lia].

(** Sequencing: [tac] proves the specification of the first coroutine. *)
Tactic Notation "step" tactic3(tac) "as" ident(w) ident(a) ident(Heq) ident(H) :=
  eapply sat_bind;
    [ tac | intros w a Heq H; cbv beta in H | intros w a Heq H; cbv beta in H ].

(** [trace a `suffix_of` trace c] from a chain of such hypotheses. *)
Ltac suffix_chain :=
  solve [ reflexivity
        | assumption
        | match goal with
          | H : suffix ?a ?b |- suffix ?a ?c =>
              transitivity b; [exact H | suffix_chain]
          end ].

Ltac frames :=
  repeat match goal with
         | H : _ /\ _ |- _ => destruct H
         end;
  unfold frame in *;
  repeat match goal with
         | H : _ /\ _ |- _ => destruct H
         end;
  subst;
  repeat split; try lia; try congruence; try suffix_chain.


(** ** browser.py and the retry helpers *)

Section BrowserSpecs.
Context (E : Env).
Import Browser Config Scenario.

Lemma sat_get_page url w :
  sat (get_page E url) w (fun w' _ => frame w w') (fun w' _ => frame w w').
Proof.
  unfold get_page.
  step (apply sat_new_page) as w1 p Hp Hf1; [|exact Hf1].
  step call as w2 u Hu Hf2; [|frames].
  apply sat_ret. frames.
Qed.

Lemma sat_wait_for_element p sel t w :
  sat (wait_for_element E p sel t) w (fun w' _ => frame w w')
    (fun _ _ => False).
Proof.
  unfold wait_for_element.
  eapply sat_try_except with (Qm := fun w' _ => frame w w')
                             (Xm := fun w' _ => frame w w').
  - step call as w1 u Hu Hf1; [|frames]. apply sat_ret. frames.
  - auto.
  - intros w1 e _ Hf. apply sat_ret. exact Hf.
Qed.

Lemma sat_retry_or_break delay attempt p msg w :
  0 <= delay ->
  sat (retry_or_break E delay attempt p msg) w
    (fun w' c => frame w w' /\ fs w' = fs w /\
                 (c = Continue msg \/ c = Break msg))
    (fun _ _ => False).
Proof.
  intros Hd. unfold retry_or_break.
  destruct (attempt <? RETRY_ATTEMPTS).
  - step (apply sat_close_page) as w1 u Hu Hf1; [|contradiction].
    step (apply sat_sleep; lia) as w2 u2 Hu2 Hf2; [|contradiction].
    apply sat_ret. destruct Hf1 as [Hf1 Hfs]. destruct Hf2 as [Hf2 _].
    split; [frames | split; [|auto]].
    rewrite <- Hfs. unfold sleep in Hu2. inversion Hu2; reflexivity.
  - apply sat_ret. split; [apply frame_refl | auto].
Qed.

Lemma sat_on_exception delay attempt p e w :
  0 <= delay ->
  sat (on_exception E delay attempt p e) w
    (fun w' c => frame w w' /\ c = Continue e) (fun _ _ => False).
Proof.
  intros Hd. unfold on_exception.
  eapply sat_bind with (Qm := fun w' _ => frame w w')
                       (Xm := fun _ _ => False).
  - destruct p as [p|].
    + eapply sat_conseq; [apply sat_close_page | | ]; cbn; auto.
      intros w' a _ [H _]; exact H.
    + apply sat_ret, frame_refl.
  - intros w1 _ _ Hf1.
    eapply sat_bind with (Qm := fun w' _ => frame w1 w')
                         (Xm := fun _ _ => False).
    + destruct (attempt <? RETRY_ATTEMPTS).
      * eapply sat_conseq; [apply sat_sleep; lia | |]; cbn; auto.
        intros w' a _ [H _]; exact H.
      * apply sat_ret, frame_refl.
    + intros w2 _ _ Hf2. apply sat_ret. split; [frames | reflexivity].
    + auto.
  - auto.
Qed.

End BrowserSpecs.

(** ** The retry loop *)

Lemma sat_for_attempts (body : Z -> Async ctl) (P : World -> result -> Prop) :
  (forall a w, sat (body a) w
                 (fun w' c => match c with Return d => P w' d | _ => True end)
                 (fun _ _ => False)) ->
  forall attempts last_error w,
    sat (for_attempts body attempts last_error) w
      (fun w' r => P w' r \/ exists e, r = failed_result e)
      (fun _ _ => False).
Proof.
  intros Hbody. induction attempts as [|a rest IH]; intros le w; cbn [for_attempts].
  - apply sat_ret. eauto.
  - step (apply Hbody) as w1 c Hc Hp; [|contradiction].
    destruct c as [d | e | e].
    + apply sat_ret. auto.
    + apply IH.
    + apply sat_ret. eauto.
Qed.

(** ** grok.py *)

Section GrokSpecs.
Context (E : Env).
Import PyStr Browser Config Scenario Grok.

Lemma sat_scan_images imgs :
  (forall img, In img imgs -> el_selector img = image_sel) ->
  forall w,
    sat (scan_images E imgs) w
      (fun w' r => frame w w' /\
                   forall data, r = Some data -> rendered_image E data)
      (fun w' _ => frame w w').
Proof.
  induction imgs as [|img rest IH]; intros Hsel w; cbn [scan_images].
  - apply sat_ret. split; [apply frame_refl | discriminate].
  - step call as w1 a Ha Hf1; [|frames]. destruct Hf1 as [Hf1 ->].
    destruct (startswith "data:image/" _ && _) eqn:Hbig.
    + apply andb_prop in Hbig as [Hpre Hlen].
      destruct (env_attribute E w img "src") as [src|] eqn:Hattr;
        [|discriminate]. cbn [from_option id] in *.
      destruct (split_once ","%char src) as [[pre enc]|] eqn:Hsplit;
        [|apply sat_raise; exact Hf1].
      destruct (env_b64decode E enc) as [e|data] eqn:Hdec;
        [apply sat_raise; exact Hf1|].
      apply sat_ret. split; [exact Hf1|].
      intros data' [= <-]. exists w, img, src.
      split; [apply Hsel; left; reflexivity|].
      split; [exact Hattr|].
      split; [split; [exact Hpre | apply Z.ltb_lt; exact Hlen]|].
      exists pre, enc. auto.
    + eapply sat_conseq;
        [apply IH; intros; apply Hsel; right; assumption | |]; cbn.
      * intros w' r _ [Hf2 Hr]. split; [frames | exact Hr].
      * intros w' e _ Hf2. frames.
Qed.

Lemma sat_poll_for_loaded_image p timeout_ms w :
  sat (_poll_for_loaded_image E p timeout_ms) w
    (fun w' r => frame w w' /\
                 forall data, r = Some data -> rendered_image E data)
    (fun w' _ => frame w w').
Proof.
  unfold _poll_for_loaded_image.
  step (apply sat_time_time) as w0 t Ht Hw; [|contradiction].
  destruct Hw as [-> ->]. cbv zeta.
  apply sat_poll with (interval := SCREENSHOT_POLL_INTERVAL_S * 1000)
                      (Inv := fun w0 => frame w w0).
  - reflexivity.
  - apply frame_refl.
  - intros w0 Hinv.
    step call as w1 imgs Himgs Hf1; [|frames]. destruct Hf1 as [Hf1 ->].
    step (apply sat_scan_images) as w2 found Hfound Hf2.
    + intros img Hin. apply in_map_iff in Hin as (i & <- & _). reflexivity.
    + destruct Hf2 as [Hf2 Hr]. destruct found as [data|].
      * apply sat_ret. split; [frames | exact Hr].
      * step (apply sat_sleep; vm_compute; discriminate) as w3 u Hu Hf3; [|contradiction].
        apply sat_ret. split; [frames|]. destruct Hf3 as [_ Hs].
        destruct Hf1 as [Hn1 _], Hf2 as [Hn2 _]. lia.
    + frames.
  - intros w0 Hinv. split; [exact Hinv | discriminate].
Qed.

Lemma sat_grok_steps prompt output_path attempt start_time p w :
  sat (grok_steps E prompt output_path attempt start_time p) w
    (fun w' c => match c with
                 | Return d => grok_returned E output_path w' d
                 | _ => True
                 end)
    (fun _ _ => True).
Proof.
  assert (Hretry : forall msg w0,
    sat (retry_or_break E RETRY_DELAY_S attempt p msg) w0
      (fun w' c => match c with
                   | Return d => grok_returned E output_path w' d
                   | _ => True
                   end) (fun _ _ => True)).
  { intros msg w0.
    eapply sat_conseq; [apply sat_retry_or_break; vm_compute; discriminate | |]; cbn; auto.
    intros w' c _ (_ & _ & [-> | ->]); exact I. }
  unfold grok_steps.
  step (apply sat_sleep; lia) as w1 u1 Hu1 Hf1; [|exact I].
  step (apply sat_page_url) as w2 url Hurl Hw2; [|exact I].
  destruct (contains "login" url || contains "oauth" url); [apply Hretry|].
  step (apply sat_wait_for_element) as w3 found Hfound Hf3; [|exact I].
  destruct found; cbn [negb]; [|apply Hretry].
  step (apply sat_query_selector) as w4 editor Heditor Hf4; [|exact I].
  destruct Hf4 as [Hf4 [-> | ->]]; [apply sat_raise; exact I|].
  step call as w5 u5 Hu5 Hf5; [|exact I].
  step call as w6 u6 Hu6 Hf6; [|exact I].
  step call as w7 u7 Hu7 Hf7; [|exact I].
  step call as w8 u8 Hu8 Hf8; [|exact I].
  step (apply sat_sleep; lia) as w9 u9 Hu9 Hf9; [|exact I].
  step (apply sat_query_selector) as w10 submit Hsubmit Hf10; [|exact I].
  destruct Hf10 as [Hf10 [-> | ->]]; [apply Hretry|].
  step call as w11 u11 Hu11 Hf11; [|exact I].
  step (apply sat_sleep; lia) as w12 u12 Hu12 Hf12; [|exact I].
  step (apply sat_poll_for_loaded_image) as w13 image_data Himg Hf13; [|exact I].
  destruct Hf13 as [_ Hdata].
  destruct image_data as [[|b data]|]; [apply Hretry | | apply Hretry].
  step call as w14 u14 Hu14 Hf14; [|exact I].
  step (apply sat_write_bytes) as w15 u15 Hu15 Hf15; [|exact I].
  step (apply sat_time_time) as w16 t Ht Hw16; [|exact I].
  step (apply sat_close_page) as w17 u17 Hu17 Hf17; [|exact I].
  apply sat_ret. unfold grok_returned; cbn.
  repeat split. exists (b :: data). split; [apply Hdata; reflexivity|].
  destruct Hf17 as [_ ->]. destruct Hw16 as [-> _].
  destruct Hf15 as [_ ->]. apply lookup_insert_eq.
Qed.

Lemma sat_grok_attempt prompt output_path attempt w :
  sat (grok_attempt E prompt output_path attempt) w
    (fun w' c => match c with
                 | Return d => grok_returned E output_path w' d
                 | _ => True
                 end)
    (fun _ _ => False).
Proof.
  unfold grok_attempt.
  step (apply sat_time_time) as w0 t Ht Hw; [|contradiction].
  eapply sat_try_with_page with (Qa := fun _ _ => True) (Xa := fun _ _ => True).
  - eapply sat_conseq; [apply sat_get_page | |]; cbn; auto.
  - intros w1 e _.
    eapply sat_conseq; [apply sat_on_exception; vm_compute; discriminate | |]; cbn; auto.
    intros w' c _ [_ ->]. exact I.
  - intros w1 p0 _.
    eapply sat_conseq; [apply sat_grok_steps | |]; cbn; auto.
    intros w2 e _ _.
    eapply sat_conseq; [apply sat_on_exception; vm_compute; discriminate | |]; cbn; auto.
    intros w' c _ [_ ->]. exact I.
Qed.

Lemma sat_generate_grok_image prompt output_path aspect_ratio w :
  sat (generate_grok_image E prompt output_path aspect_ratio) w
    (fun w' r => grok_returned E output_path w' r \/
                 exists e, r = failed_result e)
    (fun _ _ => False).
Proof.
  unfold generate_grok_image.
  apply sat_for_attempts with (P := grok_returned E output_path).
  intros a w0. apply sat_grok_attempt.
Qed.

End GrokSpecs.

(** ** sora.py *)

Section SoraSpecs.
Context (E : Env).
Import PyStr Browser Config Scenario Sora.

Lemma sat_find_duration_button p labels :
  (forall label, In label labels ->
     is_commit (AClick (Element p (has_text_sel label) 0)) = false) ->
  forall w,
    sat (find_duration_button E p labels) w
      (fun w' r => frame w w' /\
                   forall b, r = Some b -> is_commit (AClick b) = false)
      (fun w' _ => frame w w').
Proof.
  induction labels as [|label rest IH]; intros Hl w; cbn [find_duration_button].
  - apply sat_ret. split; [apply frame_refl | discriminate].
  - step (apply sat_query_selector) as w1 b Hb Hf1; [|exact Hf1].
    destruct Hf1 as [Hf1 [-> | ->]].
    + eapply sat_conseq;
        [apply IH; intros; apply Hl; right; assumption | |]; cbn.
      * intros w' r _ [Hf2 Hr]. split; [frames | exact Hr].
      * intros w' e _ Hf2. frames.
    + apply sat_ret. split; [exact Hf1|].
      intros b [= <-]. apply Hl. left; reflexivity.
Qed.

Lemma sat_set_duration p duration w :
  sat (_set_duration E p duration) w (fun w' _ => frame w w')
    (fun _ _ => False).
Proof.
  unfold _set_duration.
  eapply sat_try_except with (Qm := fun w' _ => frame w w')
                             (Xm := fun w' _ => frame w w').
  - step (apply sat_find_duration_button) as w1 btn Hbtn Hf1.
    + intros label Hin. cbn in Hin.
      repeat (destruct Hin as [<- | Hin]; [reflexivity|]). contradiction.
    + destruct Hf1 as [Hf1 Hnc]. destruct btn as [btn|].
      * step (unfold click; apply sat_call; [apply Hnc; reflexivity | cbn; lia])
          as w2 u2 Hu2 Hf2; [|frames].
        step (apply sat_sleep; lia) as w3 u3 Hu3 Hf3; [|contradiction].
        step call as w4 n Hn Hf4; [|frames].
        destruct (0 <? n)%nat.
        -- step call as w5 u5 Hu5 Hf5; [|frames].
           eapply sat_conseq; [apply sat_sleep; lia | |]; cbn;
             [|intros; contradiction].
           intros w6 u6 _ Hf6. frames.
        -- apply sat_ret. frames.
      * apply sat_ret. exact Hf1.
    + exact Hf1.
  - auto.
  - intros w1 e _ Hf. apply sat_ret. exact Hf.
Qed.

Lemma sat_wait_for_scene_cards p timeout_s w :
  sat (_wait_for_scene_cards E p timeout_s) w (fun w' _ => frame w w')
    (fun w' _ => frame w w').
Proof.
  unfold _wait_for_scene_cards.
  step (apply sat_time_time) as w0 t Ht Hw; [|contradiction].
  destruct Hw as [-> ->]. cbv zeta.
  eapply sat_bind with (Qm := fun w' _ => frame w w')
                       (Xm := fun w' _ => frame w w').
  - apply sat_poll with (interval := 5000) (Inv := fun w0 => frame w w0).
    + reflexivity.
    + apply frame_refl.
    + intros w0 Hinv.
      step call as w1 scenes Hscenes Hf1; [|frames].
      destruct (1 <=? length scenes)%nat; [apply sat_ret; frames|].
      step call as w2 n Hn Hf2; [|frames].
      destruct (0 <? n)%nat; [apply sat_ret; frames|].
      step (apply sat_sleep; lia) as w3 u Hu Hf3; [|contradiction].
      apply sat_ret. frames.
    + intros w0 Hinv. exact Hinv.
  - intros w1 r _ Hf. apply sat_ret. exact Hf.
  - auto.
Qed.

Lemma sat_collect_hrefs links w :
  sat (collect_hrefs E links) w (fun w' _ => frame w w')
    (fun w' _ => frame w w').
Proof.
  revert w. induction links as [|link rest IH]; intros w; cbn [collect_hrefs].
  - apply sat_ret, frame_refl.
  - step call as w1 href Hhref Hf1; [|frames].
    step (apply IH) as w2 hrefs Hhrefs Hf2; [|frames].
    destruct href as [[|c h]|]; apply sat_ret; frames.
Qed.

Lemma sat_get_draft_hrefs p w :
  sat (_get_draft_hrefs E p) w (fun w' _ => frame w w')
    (fun w' _ => frame w w').
Proof.
  unfold _get_draft_hrefs.
  step call as w1 links Hlinks Hf1; [|frames].
  eapply sat_conseq; [apply sat_collect_hrefs | |]; cbn.
  - intros w' a _ Hf2. frames.
  - intros w' e _ Hf2. frames.
Qed.

Lemma sat_poll_drafts_for_new p snap timeout_ms w :
  sat (_poll_drafts_for_new E p snap timeout_ms) w
    (fun w' r => frame w w' /\ forall h, r = Some h -> fresh_draft E w p snap h)
    (fun w' _ => frame w w').
Proof.
  unfold _poll_drafts_for_new.
  step (apply sat_time_time) as w0 t Ht Hw; [|contradiction].
  destruct Hw as [-> ->]. cbv zeta.
  apply sat_poll with (interval := SORA_DRAFT_POLL_INTERVAL_S * 1000)
                      (Inv := fun w0 => frame w w0).
  - reflexivity.
  - apply frame_refl.
  - intros w0 Hinv.
    step (apply sat_get_draft_hrefs) as w1 L HL Hf1; [|frames].
    destruct (new_hrefs L snap) as [|h tl] eqn:Hnew.
    + step call as w2 u2 Hu2 Hf2; [|frames].
      step (apply sat_sleep; vm_compute; discriminate) as w3 u Hu Hf3;
        [|contradiction].
      apply sat_ret. frames.
    + apply sat_ret. split; [frames|].
      intros h' [= <-]. exists w0, w1, L. rewrite Hnew.
      split; [frames | auto].
  - intros w0 Hinv. split; [exact Hinv | discriminate].
Qed.

Lemma sat_sora_steps_1_to_7 prompt duration attempt p w :
  sat (sora_steps_1_to_7 E prompt duration attempt p) w
    (fun w' r => match r with
                 | inl c => frame w w' /\ not_returned c
                 | inr snap => snapshot_then_commit E w w' snap
                 end)
    (fun _ _ => True).
Proof.
  assert (Hretry : forall msg w0, frame w w0 ->
    sat (c <- retry_or_break E SORA_RETRY_DELAY_S attempt p msg;; ret (inl c)) w0
      (fun w' (r : ctl + gset string) =>
         match r with
         | inl c => frame w w' /\ not_returned c
         | inr snap => snapshot_then_commit E w w' snap
         end) (fun _ _ => True)).
  { intros msg w0 Hf0.
    step (apply sat_retry_or_break; vm_compute; discriminate)
      as w1 c Hc Hf1; [|exact I].
    apply sat_ret. destruct Hf1 as (Hf1 & _ & Hc').
    split; [frames | exists msg; exact Hc']. }
  unfold sora_steps_1_to_7.
  step (apply sat_sleep; lia) as w1 u1 Hu1 Hf1; [|exact I].
  destruct Hf1 as [Hf1 _].
  step (apply sat_page_url) as w2 url Hurl Hw2; [|exact I].
  destruct Hw2 as [-> _].
  destruct (contains "login" url); [apply Hretry; exact Hf1|].
  step (apply sat_set_duration) as w3 u3 Hu3 Hf3; [|exact I].
  step (apply sat_wait_for_element) as w4 found Hfound Hf4; [|exact I].
  destruct found; cbn [negb]; [|apply Hretry; frames].
  step (apply sat_query_selector) as w5 textarea Htextarea Hf5; [|exact I].
  destruct Hf5 as [Hf5 [-> | ->]]; [apply sat_raise; exact I|].
  step call as w6 u6 Hu6 Hf6; [|exact I].
  step call as w7 u7 Hu7 Hf7; [|exact I].
  step (apply sat_sleep; lia) as w8 u8 Hu8 Hf8; [|exact I].
  step call as w9 u9 Hu9 Hf9; [|exact I].
  step (apply sat_sleep; lia) as w10 u10 Hu10 Hf10; [|exact I].
  step (apply sat_wait_for_scene_cards) as w11 cards Hcards Hf11; [|exact I].
  step (apply sat_get_page) as w12 dp Hdp Hf12; [|exact I].
  step (apply sat_sleep; lia) as w13 u13 Hu13 Hf13; [|exact I].
  step (apply sat_get_draft_hrefs) as w14 L HL Hf14; [|exact I].
  cbv zeta.
  step (apply sat_close_page) as w15 u15 Hu15 Hf15; [|exact I].
  assert (Hsnap : frame w w14) by frames.
  assert (Hlater : frame w14 w15) by frames.
  assert (Hhere : frame w w15) by frames.
  clear Hf3 Hf4 Hf5 Hf6 Hf7 Hf8 Hf9 Hf10 Hf11 Hf12 Hf13 Hf14 Hf15.
  step (apply sat_query_selector) as w16 btn1 Hbtn1 Hf16; [|exact I].
  eapply sat_bind with
    (Qm := fun w' r => frame w15 w' /\
                       (r = None \/ exists sel, r = Some (Element p sel 0) /\
                          is_commit (AClick (Element p sel 0)) = true))
    (Xm := fun _ _ => True).
  - destruct Hf16 as [Hf16 [-> | ->]].
    + eapply sat_conseq; [apply sat_query_selector | |]; cbn; [|auto].
      intros w' r _ [Hf17 Hr]. split; [frames|].
      destruct Hr as [-> | ->]; [left; reflexivity|].
      right. exists create_aria_sel. split; reflexivity.
    + apply sat_ret. split; [frames|].
      right. exists create_text_sel. split; reflexivity.
  - intros w17 btn _ [Hf17 Hbtn].
    destruct Hbtn as [-> | (sel & -> & Hcommit)]; [apply Hretry; frames|].
    cbn [negb].
    eapply sat_bind with
      (Qm := fun w' _ => now w <= now w' /\
               commit_clicks (trace w') = Datatypes.S (commit_clicks (trace w)) /\
               trace w14 `suffix_of` trace w')
      (Xm := fun _ _ => True).
    + step (apply sat_click_commit; exact Hcommit) as w18 u18 Hu18 Hf18;
        [|exact I].
      eapply sat_conseq; [apply sat_sleep; lia | |]; cbn; [|auto].
      intros w19 u19 _ Hf19. frames.
    + intros w20 u20 _ (Hnow & Hclicks & Hsuf). apply sat_ret.
      split; [exact Hnow|]. split; [exact Hclicks|].
      exists dp, w13, w14, L. split; [exact HL|]. split; [reflexivity|].
      destruct Hsnap as (_ & Hs & Hsuf0). auto.
    + auto.
  - auto.
Qed.

Lemma sat_sora_await_new_entry p snap w :
  sat (sora_await_new_entry E p snap) w
    (fun w' r => frame w w' /\ forall h, r = Some h -> fresh_draft E w p snap h)
    (fun w' _ => frame w w').
Proof.
  unfold sora_await_new_entry.
  step call as w1 u1 Hu1 Hf1; [|frames].
  step (apply sat_sleep; lia) as w2 u2 Hu2 Hf2; [|contradiction].
  eapply sat_conseq; [apply sat_poll_drafts_for_new | |]; cbn.
  - intros w' r _ [Hf3 Hr]. split; [frames|].
    intros h Hh. destruct (Hr h Hh) as (wa & wb & L & Hsuf & Hread & Hhead).
    exists wa, wb, L. split; [frames | auto].
  - intros w' e _ Hf3. frames.
Qed.

Lemma sat_sora_steps_8_to_10 output_path start_time p snap w :
  sat (sora_steps_8_to_10 E output_path start_time p snap) w
    (fun w' c => frame w w' /\
                 match c with
                 | Return d => sora_returned output_path d
                 | Continue _ => False
                 | Break _ => True
                 end)
    (fun w' _ => frame w w').
Proof.
  unfold sora_steps_8_to_10.
  step (apply sat_sora_await_new_entry) as w1 href Hhref Hf1; [|frames].
  destruct Hf1 as [Hf1 _].
  destruct href as [[|c h]|]; [apply sat_ret; frames | | apply sat_ret; frames].
  step (apply sat_query_selector) as w2 tile Htile Hf2; [|frames].
  eapply sat_bind with (Qm := fun w' _ => frame w w')
                       (Xm := fun w' _ => frame w w').
  - destruct Hf2 as [Hf2 [-> | ->]].
    + eapply sat_conseq; [unfold page_goto; apply sat_call | |]; cbn;
        try reflexivity; try lia.
      * intros w' a _ [Hf3 _]. frames.
      * intros w' e _ Hf3. frames.
    + eapply sat_conseq; [unfold click; apply sat_call | |]; cbn;
        try reflexivity; try lia.
      * intros w' a _ [Hf3 _]. frames.
      * intros w' e _ Hf3. frames.
  - intros w3 u3 _ Hf3.
    step (apply sat_sleep; lia) as w4 u4 Hu4 Hf4; [|contradiction].
    step (apply sat_query_selector) as w5 video Hvideo Hf5; [|frames].
    destruct Hf5 as [Hf5 [-> | ->]]; [apply sat_ret; frames|].
    step call as w6 a Ha Hf6; [|frames].
    cbv zeta. destruct (negb _); [apply sat_ret; frames|].
    step call as w7 u7 Hu7 Hf7; [|frames].
    step call as w8 content Hcontent Hf8; [|frames].
    step (apply sat_write_bytes) as w9 u9 Hu9 Hf9; [|frames].
    step (apply sat_time_time) as w10 t Ht Hw10; [|contradiction].
    step (apply sat_close_page) as w11 u11 Hu11 Hf11; [|contradiction].
    apply sat_ret. split; [frames|]. repeat split.
  - auto.
Qed.

Lemma sat_sora_steps prompt output_path duration attempt start_time p w :
  sat (sora_steps E prompt output_path duration attempt start_time p) w
    (fun w' c => match c with
                 | Return d => sora_returned output_path d
                 | _ => True
                 end)
    (fun _ _ => True).
Proof.
  unfold sora_steps.
  step (apply sat_sora_steps_1_to_7) as w1 r Hr Hq; [|exact I].
  destruct r as [c | snap].
  - apply sat_ret. destruct Hq as [_ (msg & [-> | ->])]; exact I.
  - eapply sat_conseq; [apply sat_sora_steps_8_to_10 | |]; cbn; [|auto].
    intros w' c _ [_ Hc]. destruct c; auto.
Qed.

Lemma sat_sora_attempt prompt output_path duration attempt w :
  sat (sora_attempt E prompt output_path duration attempt) w
    (fun w' c => match c with
                 | Return d => sora_returned output_path d
                 | _ => True
                 end)
    (fun _ _ => False).
Proof.
  unfold sora_attempt.
  step (apply sat_time_time) as w0 t Ht Hw; [|contradiction].
  eapply sat_try_with_page with (Qa := fun _ _ => True) (Xa := fun _ _ => True).
  - eapply sat_conseq; [apply sat_get_page | |]; cbn; auto.
  - intros w1 e _.
    eapply sat_conseq;
      [apply sat_on_exception; vm_compute; discriminate | |]; cbn; auto.
    intros w' c _ [_ ->]. exact I.
  - intros w1 p0 _.
    eapply sat_conseq; [apply sat_sora_steps | |]; cbn; auto.
    intros w2 e _ _.
    eapply sat_conseq;
      [apply sat_on_exception; vm_compute; discriminate | |]; cbn; auto.
    intros w' c _ [_ ->]. exact I.
Qed.

Lemma sat_generate_sora_video prompt output_path duration aspect_ratio w :
  sat (generate_sora_video E prompt output_path duration aspect_ratio) w
    (fun w' r => sora_returned output_path r \/
                 exists e, r = failed_result e)
    (fun _ _ => False).
Proof.
  unfold generate_sora_video.
  apply sat_for_attempts with (P := fun _ => sora_returned output_path).
  intros a w0. apply sat_sora_attempt.
Qed.

End SoraSpecs.

(** ** The polling loops, turn by turn *)

Lemma while_hits {A} (body : Async (option A)) interval lag deadline T a :
  0 < interval -> 0 <= lag -> T + interval + lag <= deadline ->
  (forall w, now w < T ->
     exists w1, body w = (w1, Ret None) /\
                now w + interval <= now w1 <= now w + interval + lag) ->
  (forall w, T <= now w ->
     exists w1, body w = (w1, Ret (Some a)) /\
                now w <= now w1 <= now w + lag) ->
  forall fuel w,
    now w < T + interval + lag ->
    T - now w <= (Z.of_nat fuel - 1) * interval -> (1 <= fuel)%nat ->
    exists w', while_before fuel deadline body w = (w', Ret (Some a)) /\
               T <= now w' < T + interval + 2 * lag.
Proof.
  intros Hi Hl Hd Hneg Hpos.
  induction fuel as [|fuel IH]; intros w Hw Hfuel Hone.
  - lia.
  - cbn [while_before].
    destruct (Z.ltb_spec (now w) deadline) as [Hlt | Hge]; [|lia].
    destruct (Z_lt_le_dec (now w) T) as [Hbefore | Hafter].
    + destruct (Hneg w Hbefore) as (w1 & -> & Hnow).
      apply IH; [lia | nia | nia].
    + destruct (Hpos w Hafter) as (w1 & -> & Hnow).
      exists w1. split; [reflexivity | lia].
Qed.

Lemma while_misses {A} (body : Async (option A)) interval deadline :
  0 < interval ->
  (forall w, now w < deadline ->
     exists w1, body w = (w1, Ret None) /\ now w + interval <= now w1) ->
  forall fuel w,
    deadline - now w <= (Z.of_nat fuel - 1) * interval -> (1 <= fuel)%nat ->
    exists w', while_before fuel deadline body w = (w', Ret None) /\
               deadline <= now w'.
Proof.
  intros Hi Hneg. induction fuel as [|fuel IH]; intros w Hfuel Hone.
  - lia.
  - cbn [while_before].
    destruct (Z.ltb_spec (now w) deadline) as [Hlt | Hge].
    + destruct (Hneg w Hlt) as (w1 & -> & Hnow).
      apply IH; nia.
    + exists w. split; [reflexivity | exact Hge].
Qed.

Section Rounds.
Context (E : Env).
Import Config Grok Sora.

(** The loops are their turns, repeated until the deadline. *)
Lemma poll_for_loaded_image_rounds p timeout_ms :
  _poll_for_loaded_image E p timeout_ms
  = (t <- time_time;;
     while_before (poll_fuel timeout_ms IMAGE_INTERVAL_MS) (t + timeout_ms)
       (image_round E p)).
Proof. reflexivity. Qed.

Lemma poll_drafts_for_new_rounds p snap timeout_ms :
  _poll_drafts_for_new E p snap timeout_ms
  = (t <- time_time;;
     while_before (poll_fuel timeout_ms DRAFT_INTERVAL_MS) (t + timeout_ms)
       (draft_round E p snap)).
Proof. reflexivity. Qed.

Lemma clock_image_check p w :
  sat (image_check E p) w
    (fun w' _ => now w <= now w') (fun w' _ => now w <= now w').
Proof.
  unfold image_check.
  step call as w1 imgs Himgs Hf1; [|frames]. destruct Hf1 as [Hf1 ->].
  eapply sat_conseq; [apply sat_scan_images | |]; cbn.
  - intros img Hin. apply in_map_iff in Hin as (i & <- & _). reflexivity.
  - intros; frames.
  - intros; frames.
Qed.

Lemma clock_draft_check p snap w :
  sat (draft_check E p snap) w
    (fun w' _ => now w <= now w') (fun w' _ => now w <= now w').
Proof.
  unfold draft_check.
  step (apply sat_get_draft_hrefs) as w1 L HL Hf1; [|frames].
  apply sat_ret. frames.
Qed.

(** A turn of the image loop answers what its predicate answers, and a
    turn that does not answer has slept for the interval. *)
Lemma image_round_of_check p w w1 r :
  image_check E p w = (w1, Ret r) ->
  exists w2,
    image_round E p w = (w2, Ret r) /\
    now w + match r with
            | Some _ => 0
            | None => IMAGE_INTERVAL_MS
            end <= now w2.
Proof.
  intros Hcheck.
  pose proof (sat_run _ _ _ _ _ _ (clock_image_check p w) Hcheck) as Hnow.
  unfold image_check in Hcheck. unfold image_round. unfold bind in *.
  destruct (query_selector_all E p image_sel w) as [w0 [imgs|e|]];
    try discriminate.
  destruct (scan_images E imgs w0) as [w0' [found|e|]]; try discriminate.
  injection Hcheck as -> ->. destruct r as [data|].
  - exists w1. split; [reflexivity | lia].
  - eexists. split; [reflexivity|]. cbn.
    pose proof (N2Z.is_nonneg
                  (env_latency E w1 (ASleep (SCREENSHOT_POLL_INTERVAL_S * 1000)))).
    unfold IMAGE_INTERVAL_MS. lia.
Qed.

(** The same for the drafts loop, when the reload does not raise. *)
Lemma draft_round_of_check p snap w w1 r :
  reload_ok E p ->
  draft_check E p snap w = (w1, Ret r) ->
  exists w2,
    draft_round E p snap w = (w2, Ret r) /\
    now w + match r with
            | Some _ => 0
            | None => DRAFT_INTERVAL_MS
            end <= now w2.
Proof.
  intros Hreload Hcheck.
  pose proof (sat_run _ _ _ _ _ _ (clock_draft_check p snap w) Hcheck) as Hnow.
  unfold draft_check, bind at 1 in Hcheck. unfold draft_round, bind at 1.
  destruct (_get_draft_hrefs E p w) as [w0 [L|e|]]; try discriminate.
  cbn in Hcheck. injection Hcheck as -> <-.
  destruct (new_hrefs L snap) as [|h tl]; cbn [head].
  - eexists. split.
    + unfold bind, page_reload, perform. rewrite Hreload. reflexivity.
    + cbn.
      pose proof (N2Z.is_nonneg (env_latency E w1 (AReload p))).
      pose proof (N2Z.is_nonneg
        (env_latency E (advance E (AReload p) w1)
           (ASleep (SORA_DRAFT_POLL_INTERVAL_S * 1000)))).
      cbn in *. unfold DRAFT_INTERVAL_MS. lia.
  - exists w1. split; [reflexivity | lia].
Qed.

(** The positive half for any loop whose turns follow the predicate. *)
Lemma poll_hits {A} (check round : Async (option A)) interval lag timeout_ms
    w T a :
  0 < interval ->
  (forall w0 w1 r, check w0 = (w1, Ret r) ->
     exists w2, round w0 = (w2, Ret r) /\
                now w0 + match r with
                         | Some _ => 0
                         | None => interval
                         end <= now w2) ->
  turns_true_at check T a ->
  takes_at_most round interval lag ->
  now w <= T -> T + interval + lag <= now w + timeout_ms ->
  exists w',
    (t <- time_time;;
     while_before (poll_fuel timeout_ms interval) (t + timeout_ms) round) w
    = (w', Ret (Some a)) /\
    T <= now w' < T + interval + 2 * lag.
Proof.
  intros Hi Hround [Hneg Hpos] Hlag Hstart Hroom.
  assert (Hl : 0 <= lag).
  { destruct (Hpos (mkWorld T [] ∅ 0%nat ∅)) as [w1 Hc]; [cbn; lia|].
    destruct (Hround _ _ _ Hc) as (w2 & Hr & Hn).
    pose proof (Hlag _ _ _ Hr) as Hu. cbn in *. lia. }
  unfold bind at 1, time_time.
  pose proof (poll_fuel_enough timeout_ms interval Hi) as Hfuel.
  apply while_hits with (T := T) (interval := interval) (lag := lag);
    [lia | lia | lia | | | lia | lia | unfold poll_fuel; lia].
  - intros w0 Hw0. destruct (Hneg w0 Hw0) as [w1 Hc].
    destruct (Hround _ _ _ Hc) as (w2 & Hr & Hn).
    pose proof (Hlag _ _ _ Hr) as Hu. cbn in Hu.
    exists w2. split; [exact Hr | lia].
  - intros w0 Hw0. destruct (Hpos w0 Hw0) as [w1 Hc].
    destruct (Hround _ _ _ Hc) as (w2 & Hr & Hn).
    pose proof (Hlag _ _ _ Hr) as Hu. cbn in Hu.
    exists w2. split; [exact Hr | lia].
Qed.

(** The negative half, whatever the turns take. *)
Lemma poll_misses {A} (check round : Async (option A)) interval timeout_ms w :
  0 < interval ->
  (forall w0 w1 r, check w0 = (w1, Ret r) ->
     exists w2, round w0 = (w2, Ret r) /\
                now w0 + match r with
                         | Some _ => 0
                         | None => interval
                         end <= now w2) ->
  negative_before check (now w + timeout_ms) ->
  exists w',
    (t <- time_time;;
     while_before (poll_fuel timeout_ms interval) (t + timeout_ms) round) w
    = (w', Ret None) /\
    now w + timeout_ms <= now w'.
Proof.
  intros Hi Hround Hneg.
  unfold bind at 1, time_time.
  pose proof (poll_fuel_enough timeout_ms interval Hi) as Hfuel.
  apply while_misses with (interval := interval);
    [lia | | lia | unfold poll_fuel; lia].
  intros w0 Hw0. destruct (Hneg w0 Hw0) as [w1 Hc].
  destruct (Hround _ _ _ Hc) as (w2 & Hr & Hn).
  exists w2. split; [exact Hr | exact Hn].
Qed.

End Rounds.

(** ** Polling against an instant browser *)

Section InstantBrowser.
Context (E : Env) (Hinstant : instant E).
Import Config Grok Sora.

Lemma now_advance act w : now (advance E act w) = now w + nominal act.
Proof. cbn. rewrite Hinstant. lia. Qed.

(** In an instant browser a call leaves the clock where it was. *)
Lemma still_call {A} act (v : World -> A) w :
  nominal act = 0 ->
  sat (perform E act v id) w
    (fun w' _ => now w' = now w) (fun w' _ => now w' = now w).
Proof.
  intros Hn.
  eapply sat_conseq; [apply sat_perform | |]; cbn -[advance].
  - intros w' a _ (_ & -> & _). rewrite now_advance. lia.
  - intros w' e _ (_ & ->). rewrite now_advance. lia.
Qed.

Lemma still_scan_images imgs w :
  sat (scan_images E imgs) w
    (fun w' _ => now w' = now w) (fun w' _ => now w' = now w).
Proof.
  revert w. induction imgs as [|img rest IH]; intros w; cbn [scan_images].
  - apply sat_ret. reflexivity.
  - step (unfold get_attribute; apply still_call; reflexivity)
      as w1 a Ha Hw1; [|exact Hw1].
    destruct (_ && _).
    + destruct (PyStr.split_once _ _) as [[pre enc]|];
        [|apply sat_raise; exact Hw1].
      destruct (env_b64decode E enc);
        [apply sat_raise | apply sat_ret]; exact Hw1.
    + eapply sat_conseq; [apply IH | |]; cbn; intros; lia.
Qed.

Lemma still_collect_hrefs links w :
  sat (collect_hrefs E links) w
    (fun w' _ => now w' = now w) (fun w' _ => now w' = now w).
Proof.
  revert w. induction links as [|link rest IH]; intros w; cbn [collect_hrefs].
  - apply sat_ret. reflexivity.
  - step (unfold get_attribute; apply still_call; reflexivity)
      as w1 a Ha Hw1; [|exact Hw1].
    step (apply IH) as w2 hrefs Hhrefs Hw2; [|lia].
    destruct a as [[|c h]|]; apply sat_ret; lia.
Qed.

Lemma still_get_draft_hrefs p w :
  sat (_get_draft_hrefs E p) w
    (fun w' _ => now w' = now w) (fun w' _ => now w' = now w).
Proof.
  unfold _get_draft_hrefs.
  step (unfold query_selector_all; apply still_call; reflexivity)
    as w1 links Hlinks Hw1; [|exact Hw1].
  eapply sat_conseq; [apply still_collect_hrefs | |]; cbn; intros; lia.
Qed.

(** Against an instant browser a turn of either loop takes its sleep and
    nothing more. *)
Lemma image_round_instant p :
  takes_at_most (image_round E p) IMAGE_INTERVAL_MS 0.
Proof.
  intros w w' r Hrun.
  assert (Hs : sat (image_round E p) w
                 (fun w' r => now w' = now w + match r with
                                               | Some _ => 0
                                               | None => IMAGE_INTERVAL_MS
                                               end)
                 (fun _ _ => True)).
  { unfold image_round.
    step (unfold query_selector_all; apply still_call; reflexivity)
      as w1 imgs Himgs Hw1; [|exact I].
    step (apply still_scan_images) as w2 found Hfound Hw2; [|exact I].
    destruct found as [data|].
    - apply sat_ret. lia.
    - unfold sat, bind, sleep, ret. rewrite now_advance. cbn [nominal].
      unfold IMAGE_INTERVAL_MS. lia. }
  pose proof (sat_run _ _ _ _ _ _ Hs Hrun) as Hnow. cbv beta in Hnow. lia.
Qed.

Lemma draft_round_instant p snap :
  takes_at_most (draft_round E p snap) DRAFT_INTERVAL_MS 0.
Proof.
  intros w w' r Hrun.
  assert (Hs : sat (draft_round E p snap) w
                 (fun w' r => now w' = now w + match r with
                                               | Some _ => 0
                                               | None => DRAFT_INTERVAL_MS
                                               end)
                 (fun _ _ => True)).
  { unfold draft_round.
    step (apply still_get_draft_hrefs) as w1 L HL Hw1; [|exact I].
    destruct (new_hrefs L snap) as [|h tl].
    - step (unfold page_reload; apply still_call; reflexivity)
        as w2 u2 Hu2 Hw2; [|exact I].
      unfold sat, bind, sleep, ret. rewrite now_advance. cbn [nominal].
      unfold DRAFT_INTERVAL_MS. lia.
    - apply sat_ret. lia. }
  pose proof (sat_run _ _ _ _ _ _ Hs Hrun) as Hnow. cbv beta in Hnow. lia.
Qed.

End InstantBrowser.

(** ** The time-driven scenarios *)

Section TimedScenarios.
Import PyStr Config Scenario Grok Sora.

Lemma placeholder_is_short :
  startswith "data:image/" placeholder_src
  && (FULL_RES_MIN <? len placeholder_src) = false.
Proof. vm_compute. reflexivity. Qed.

Lemma full_src_is_full :
  startswith "data:image/" full_src && (FULL_RES_MIN <? len full_src) = true.
Proof. vm_compute. reflexivity. Qed.

Lemma full_src_splits :
  exists pre enc, split_once ","%char full_src = Some (pre, enc).
Proof.
  unfold full_src. generalize (repeat_char "A"%char (Z.to_nat 150000)).
  intros s. eexists _, _. cbn. reflexivity.
Qed.

Lemma env_late_instant : instant env_late.
Proof. intros w a. reflexivity. Qed.

Lemma env_late_turns_true :
  turns_true_at (image_check env_late 0%nat) 118000 [Byte.x01].
Proof.
  split; intros w Hw;
    unfold image_check, bind, query_selector_all, perform;
    cbn [env_late ideal env_fault env_count seq map id scan_images];
    unfold bind, get_attribute, perform;
    cbn [env_late ideal env_fault env_attribute id from_option
         String.eqb Ascii.eqb Bool.eqb];
    assert (Hn : now (advance env_late (AQuerySelectorAll 0%nat image_sel) w)
                 = now w) by (cbn; lia);
    rewrite Hn; clear Hn.
  - destruct (Z.ltb_spec (now w) 118000) as [_ | Hge]; [|lia].
    rewrite placeholder_is_short. eexists. reflexivity.
  - destruct (Z.ltb_spec (now w) 118000) as [Hlt | _]; [lia|].
    rewrite full_src_is_full.
    destruct full_src_splits as (pre & enc & ->).
    eexists. reflexivity.
Qed.

Lemma env_arrives_instant : instant env_arrives.
Proof. intros w a. reflexivity. Qed.

Lemma env_arrives_reload_ok : reload_ok env_arrives 0%nat.
Proof. intros w. reflexivity. Qed.

Lemma env_arrives_turns_true :
  turns_true_at (draft_check env_arrives 0%nat stale_snapshot) 100000 "/d/new".
Proof.
  assert (Hold : head (new_hrefs ["/d/old"] stale_snapshot) = None)
    by (vm_compute; reflexivity).
  assert (Hnew : head (new_hrefs ["/d/old"; "/d/new"] stale_snapshot)
                 = Some "/d/new") by (vm_compute; reflexivity).
  split; intros w Hw;
    unfold draft_check, _get_draft_hrefs, bind, query_selector_all, perform;
    cbn [env_arrives ideal env_fault env_count id].
  - destruct (Z.ltb_spec (now w) 100000) as [_ | Hge]; [|lia].
    cbn [seq map collect_hrefs]. unfold bind, get_attribute, perform, ret.
    cbn [env_arrives ideal env_fault env_attribute id el_index
         String.eqb Ascii.eqb Bool.eqb].
    rewrite Hold. eexists. reflexivity.
  - destruct (Z.ltb_spec (now w) 100000) as [Hlt | _]; [lia|].
    cbn [seq map collect_hrefs]. unfold bind, get_attribute, perform, ret.
    cbn [env_arrives ideal env_fault env_attribute id el_index
         String.eqb Ascii.eqb Bool.eqb].
    rewrite Hnew. eexists. reflexivity.
Qed.

Lemma env_sluggish_reload_ok : reload_ok env_sluggish 0%nat.
Proof. intros w. reflexivity. Qed.

Lemma env_sluggish_turns_true :
  turns_true_at (draft_check env_sluggish 0%nat stale_snapshot) 100000 "/d/new".
Proof.
  assert (Hold : head (new_hrefs ["/d/old"] stale_snapshot) = None)
    by (vm_compute; reflexivity).
  assert (Hnew : head (new_hrefs ["/d/old"; "/d/new"] stale_snapshot)
                 = Some "/d/new") by (vm_compute; reflexivity).
  split; intros w Hw;
    unfold draft_check, _get_draft_hrefs, bind, query_selector_all, perform;
    cbn [env_sluggish env_arrives ideal env_fault env_count id].
  - destruct (Z.ltb_spec (now w) 100000) as [_ | Hge]; [|lia].
    cbn [seq map collect_hrefs]. unfold bind, get_attribute, perform, ret.
    cbn [env_sluggish env_arrives ideal env_fault env_attribute id el_index
         String.eqb Ascii.eqb Bool.eqb].
    rewrite Hold. eexists. reflexivity.
  - destruct (Z.ltb_spec (now w) 100000) as [Hlt | _]; [lia|].
    cbn [seq map collect_hrefs]. unfold bind, get_attribute, perform, ret.
    cbn [env_sluggish env_arrives ideal env_fault env_attribute id el_index
         String.eqb Ascii.eqb Bool.eqb].
    rewrite Hnew. eexists. reflexivity.
Qed.

(** Against [env_sluggish] a turn of the drafts loop takes the reload's
    15 s on top of its sleep. *)
Lemma env_sluggish_takes :
  takes_at_most (draft_round env_sluggish 0%nat stale_snapshot)
    DRAFT_INTERVAL_MS 15000.
Proof.
  assert (Hold : new_hrefs ["/d/old"] stale_snapshot = [])
    by (vm_compute; reflexivity).
  assert (Hnew : new_hrefs ["/d/old"; "/d/new"] stale_snapshot = ["/d/new"])
    by (vm_compute; reflexivity).
  intros w w' r.
  unfold draft_round, _get_draft_hrefs, bind, query_selector_all, perform.
  cbn [env_sluggish env_arrives ideal env_fault env_count id].
  destruct (now w <? 100000);
    cbn [seq map collect_hrefs]; unfold bind, get_attribute, perform, ret;
    cbn [env_sluggish env_arrives ideal env_fault env_attribute id el_index
         String.eqb Ascii.eqb Bool.eqb];
    rewrite ?Hold, ?Hnew; cbn; intros [= <- <-]; cbn;
    unfold DRAFT_INTERVAL_MS, SORA_DRAFT_POLL_INTERVAL_S; lia.
Qed.

Lemma stale_listing_stays_negative D :
  negative_before (draft_check env_reload_fails 0%nat stale_snapshot) D.
Proof.
  intros w _. eexists. vm_compute. reflexivity.
Qed.

End TimedScenarios.

(** * The claims *)

Section Claims.
Import PyStr PyNum FacebookMetrics Browser Config Scenario Grok Sora Server.

(** C8: the metric parsers satisfy the worked examples, and
    [parse_number] is total: on every text it yields 0 unless the text,
    stripped and without commas, is an integer literal, whose value it
    then yields; placeholder dashes and other malformed texts give 0.
    [parse_distribution] maps "+0.3x" to 0.3, "-0.3x" to -0.3 and "--"
    to [None]. *)
Theorem parsers_examples_and_totality :
  parse_number "6,069,415" = 6069415 /\
  parse_number "--" = 0 /\
  parse_number "999" = 999 /\
  parse_number "" = 0 /\
  parse_number "-" = 0 /\
  parse_number " -- " = 0 /\
  parse_number "n/a" = 0 /\
  parse_number "1.5K" = 0 /\
  (forall text,
     parse_number text = 0 \/
     exists n, py_int (remove_char ","%char (strip text)) = Some n /\
               parse_number text = n) /\
  parse_distribution "+0.3x" = Some (Fdec (3 # 10)) /\
  parse_distribution "-0.3x" = Some (Fdec (-3 # 10)) /\
  parse_distribution "--" = None.
Proof.
  repeat (split; [vm_compute; reflexivity|]).
  split; [|repeat split; vm_compute; reflexivity].
  intros text. unfold parse_number.
  destruct (is_placeholder (strip text)); [left; reflexivity|].
  destruct (py_int _) as [n|]; [right; exists n; auto | left; reflexivity].
Qed.

(** C9: [wait_for_element] never raises: it returns [True] when
    [wait_for_selector] returns, and [False] when that call raises,
    whether for a timeout or any other error. *)
Theorem wait_for_element_never_raises E p selector timeout_ms w :
  exists w' b,
    wait_for_element E p selector timeout_ms w = (w', Ret b) /\
    b = match env_fault E w (AWaitForSelector p selector timeout_ms) with
        | None => true
        | Some _ => false
        end.
Proof.
  unfold wait_for_element, try_except, bind, wait_for_selector, perform, ret.
  destruct (env_fault E w _); eauto.
Qed.

(** C10: [aspect_ratio] is accepted and never read: two calls that
    differ only in it behave identically, at the workflows and at the
    tool surface. *)
Theorem aspect_ratio_is_ignored E path_join prompt output_path output_dir
    filename duration a1 a2 w :
  generate_grok_image E prompt output_path a1 w
    = generate_grok_image E prompt output_path a2 w /\
  generate_sora_video E prompt output_path duration a1 w
    = generate_sora_video E prompt output_path duration a2 w /\
  generate_image E path_join prompt output_dir filename a1 w
    = generate_image E path_join prompt output_dir filename a2 w /\
  generate_video E path_join prompt output_dir filename duration a1 w
    = generate_video E path_join prompt output_dir filename duration a2 w.
Proof. repeat split. Qed.

(** C7: both workflows always return a result dict and never raise; a
    success carries no error, a failure carries an error text, an empty
    path and a zero time. *)
Theorem workflows_return_well_formed E prompt output_path duration
    aspect_ratio w :
  (exists w' r,
     generate_grok_image E prompt output_path aspect_ratio w = (w', Ret r) /\
     well_formed r) /\
  (exists w' r,
     generate_sora_video E prompt output_path duration aspect_ratio w
       = (w', Ret r) /\
     well_formed r).
Proof.
  split.
  - destruct (sat_total _ _ _
      (sat_generate_grok_image E prompt output_path aspect_ratio w))
      as (w' & r & Heq & Hr).
    exists w', r. split; [exact Heq|].
    destruct Hr as [(Hs & He & _) | (e & ->)].
    + left. auto.
    + right. cbn. eauto.
  - destruct (sat_total _ _ _
      (sat_generate_sora_video E prompt output_path duration aspect_ratio w))
      as (w' & r & Heq & Hr).
    exists w', r. split; [exact Heq|].
    destruct Hr as [(Hs & He & _) | (e & ->)].
    + left. auto.
    + right. cbn. eauto.
Qed.

(** C4: when [generate_grok_image] reports success, the file at the
    output path holds the base64 decoding of the [src] of a result image
    whose data URI is longer than 150,000 characters; nothing shorter
    is ever saved. *)
Theorem grok_success_saves_full_res E prompt output_path aspect_ratio w w' r :
  generate_grok_image E prompt output_path aspect_ratio w = (w', Ret r) ->
  success r = true ->
  path r = output_path /\
  exists data,
    rendered_image E data /\ fs w' !! output_path = Some data.
Proof.
  intros Hrun Hok.
  pose proof (sat_run _ _ _ _ _ _
    (sat_generate_grok_image E prompt output_path aspect_ratio w) Hrun) as Hr.
  destruct Hr as [(_ & _ & Hp & Hdata) | (e & ->)]; [auto | discriminate].
Qed.

Lemma grok_success_saves_full_res_witness :
  path (mkResult true "out/image.png" 23500 None) = "out/image.png" /\
  exists data,
    rendered_image env_rendered data /\
    fs (fst grok_run) !! "out/image.png" = Some data.
Proof.
  refine (grok_success_saves_full_res env_rendered "a red fox"
            "out/image.png" "1:1" world0 (fst grok_run)
            (mkResult true "out/image.png" 23500 None) _ _).
  - vm_compute. reflexivity.
  - reflexivity.
Defined.

(** C2: when, after the click on Create, the wait on the drafts
    listing ends without a new entry, the call returns right there: the
    result is a failure whose error text contains "timed out", the world
    is the one the wait left (no further attempt, no further action),
    and the one click on Create of this attempt stays the last. *)
Theorem sora_timeout_is_terminal E prompt output_path duration attempt rest
    last_error w w0 p w1 snap w2 :
  get_page E SORA_STORYBOARD_URL w = (w0, Ret p) ->
  sora_steps_1_to_7 E prompt duration attempt p w0 = (w1, Ret (inr snap)) ->
  sora_await_new_entry E p snap w1 = (w2, Ret None) ->
  exists r,
    for_attempts (sora_attempt E prompt output_path duration)
      (attempt :: rest) last_error w = (w2, Ret r) /\
    success r = false /\
    path r = "" /\
    (exists e, error r = Some e /\ contains "timed out" e = true) /\
    commit_clicks (trace w1) = S (commit_clicks (trace w0)) /\
    commit_clicks (trace w2) = commit_clicks (trace w1).
Proof.
  intros Hopen Hcommit Hwait.
  exists (failed_result timed_out_msg).
  split; [|split; [reflexivity | split; [reflexivity | split; [|split]]]].
  - cbn [for_attempts].
    unfold bind at 1, sora_attempt, bind at 1, time_time, try_with_page.
    rewrite Hopen. unfold sora_steps, bind at 1. rewrite Hcommit.
    unfold sora_steps_8_to_10, bind at 1. rewrite Hwait. reflexivity.
  - eexists. split; [reflexivity | vm_compute; reflexivity].
  - pose proof (sat_run _ _ _ _ _ _
      (sat_sora_steps_1_to_7 E prompt duration attempt p w0) Hcommit) as Hs.
    destruct Hs as (_ & Hc & _). exact Hc.
  - pose proof (sat_run _ _ _ _ _ _
      (sat_sora_await_new_entry E p snap w1) Hwait) as Hs.
    destruct Hs as ((_ & Hc & _) & _). exact Hc.
Qed.

Lemma sora_timeout_is_terminal_witness :
  exists r,
    generate_sora_video env_stale "a red fox" "out/video.mp4" 25 "9:16" world0
      = (stale_waited, Ret r) /\
    success r = false /\
    path r = "" /\
    (exists e, error r = Some e /\ contains "timed out" e = true) /\
    commit_clicks (trace stale_committed) = S (commit_clicks (trace stale_opened)) /\
    commit_clicks (trace stale_waited) = commit_clicks (trace stale_committed).
Proof.
  refine (sora_timeout_is_terminal env_stale "a red fox" "out/video.mp4" 25
            1 [2; 3] "" world0 stale_opened 0%nat stale_committed
            stale_snapshot stale_waited _ _ _);
    vm_compute; reflexivity.
Defined.

(** C6: the snapshot handed to the wait is the listing read before this
    attempt clicked Create, and the wait works on that same set: the
    entry it reports is the first of a listing [L] read after the click,
    filtered to the entries that are in [L] and not in the snapshot. *)
Theorem new_draft_is_listing_minus_snapshot E prompt duration attempt p
    w0 w1 snap w2 h :
  sora_steps_1_to_7 E prompt duration attempt p w0 = (w1, Ret (inr snap)) ->
  sora_await_new_entry E p snap w1 = (w2, Ret (Some h)) ->
  snapshot_then_commit E w0 w1 snap /\
  exists wa wb L,
    trace w1 `suffix_of` trace wa /\
    _get_draft_hrefs E p wa = (wb, Ret L) /\
    head (new_hrefs L snap) = Some h /\
    (forall x, x ∈ new_hrefs L snap <-> x ∈ L /\ x ∉ snap) /\
    h ∈ L /\ h ∉ snap.
Proof.
  intros Hcommit Hwait. split.
  - exact (sat_run _ _ _ _ _ _
      (sat_sora_steps_1_to_7 E prompt duration attempt p w0) Hcommit).
  - pose proof (sat_run _ _ _ _ _ _
      (sat_sora_await_new_entry E p snap w1) Hwait) as [_ Hfresh].
    destruct (Hfresh h eq_refl) as (wa & wb & L & Hsuf & Hread & Hhead).
    exists wa, wb, L.
    assert (Hdiff : forall x, x ∈ new_hrefs L snap <-> x ∈ L /\ x ∉ snap).
    { intros x. unfold new_hrefs. rewrite list_elem_of_filter. tauto. }
    assert (Hin : h ∈ new_hrefs L snap).
    { destruct (new_hrefs L snap) as [|h0 tl]; [discriminate|].
      injection Hhead as ->. left. }
    apply Hdiff in Hin as Hin'. tauto.
Qed.

Lemma new_draft_is_listing_minus_snapshot_witness :
  snapshot_then_commit env_fresh fresh_opened fresh_committed stale_snapshot /\
  exists wa wb L,
    trace fresh_committed `suffix_of` trace wa /\
    _get_draft_hrefs env_fresh 0%nat wa = (wb, Ret L) /\
    head (new_hrefs L stale_snapshot) = Some "/d/new" /\
    (forall x, x ∈ new_hrefs L stale_snapshot <-> x ∈ L /\ x ∉ stale_snapshot) /\
    "/d/new" ∈ L /\ "/d/new" ∉ stale_snapshot.
Proof.
  refine (new_draft_is_listing_minus_snapshot env_fresh "a red fox" 25 1
            0%nat fresh_opened fresh_committed stale_snapshot fresh_waited
            "/d/new" _ _);
    vm_compute; reflexivity.
Defined.

(** C5, as amended.  For the image poll and for the drafts poll: when
    the browser adds at most [lag] milliseconds to a turn of the loop, a
    predicate that turns true at [T], not before the call and at least
    one polling interval plus [lag] before the deadline, makes the loop
    return the positive result at a moment in
    [T, T + interval + 2 * lag): within one interval of [T] when the
    browser answers at once.  A predicate that is negative at every
    moment before the deadline makes the loop return [None], at or after
    the deadline, whatever the browser takes.  For the drafts poll both
    halves need the reload between two turns not to raise. *)
Theorem polls_answer_on_first_turn_after E :
  (forall p timeout_ms w T data lag,
     turns_true_at (image_check E p) T data ->
     takes_at_most (image_round E p) IMAGE_INTERVAL_MS lag ->
     now w <= T -> T + IMAGE_INTERVAL_MS + lag <= now w + timeout_ms ->
     exists w',
       _poll_for_loaded_image E p timeout_ms w = (w', Ret (Some data)) /\
       T <= now w' < T + IMAGE_INTERVAL_MS + 2 * lag) /\
  (forall p timeout_ms w,
     negative_before (image_check E p) (now w + timeout_ms) ->
     exists w',
       _poll_for_loaded_image E p timeout_ms w = (w', Ret None) /\
       now w + timeout_ms <= now w') /\
  (forall p snap timeout_ms w T h lag,
     reload_ok E p ->
     turns_true_at (draft_check E p snap) T h ->
     takes_at_most (draft_round E p snap) DRAFT_INTERVAL_MS lag ->
     now w <= T -> T + DRAFT_INTERVAL_MS + lag <= now w + timeout_ms ->
     exists w',
       _poll_drafts_for_new E p snap timeout_ms w = (w', Ret (Some h)) /\
       T <= now w' < T + DRAFT_INTERVAL_MS + 2 * lag) /\
  (forall p snap timeout_ms w,
     reload_ok E p ->
     negative_before (draft_check E p snap) (now w + timeout_ms) ->
     exists w',
       _poll_drafts_for_new E p snap timeout_ms w = (w', Ret None) /\
       now w + timeout_ms <= now w').
Proof.
  assert (Hii : 0 < IMAGE_INTERVAL_MS) by reflexivity.
  assert (Hdi : 0 < DRAFT_INTERVAL_MS) by reflexivity.
  split; [|split; [|split]].
  - intros p timeout_ms w T data lag Hturn Hlag Hstart Hroom.
    rewrite poll_for_loaded_image_rounds.
    apply (poll_hits (image_check E p)); auto.
    apply image_round_of_check.
  - intros p timeout_ms w Hneg.
    rewrite poll_for_loaded_image_rounds.
    apply (poll_misses (image_check E p)); auto.
    apply image_round_of_check.
  - intros p snap timeout_ms w T h lag Hreload Hturn Hlag Hstart Hroom.
    rewrite poll_drafts_for_new_rounds.
    apply (poll_hits (draft_check E p snap)); auto.
    intros w0 w1 r. apply draft_round_of_check. exact Hreload.
  - intros p snap timeout_ms w Hreload Hneg.
    rewrite poll_drafts_for_new_rounds.
    apply (poll_misses (draft_check E p snap)); auto.
    intros w0 w1 r. apply draft_round_of_check. exact Hreload.
Qed.

Lemma polls_answer_on_first_turn_after_witness :
  (exists w',
     _poll_for_loaded_image env_late 0%nat 180000 world0
       = (w', Ret (Some [Byte.x01])) /\
     118000 <= now w' < 118000 + IMAGE_INTERVAL_MS + 2 * 0) /\
  (exists w',
     _poll_for_loaded_image env_late 0%nat 60000 world0 = (w', Ret None) /\
     now world0 + 60000 <= now w') /\
  (exists w',
     _poll_drafts_for_new env_sluggish 0%nat stale_snapshot SORA_TIMEOUT_MS
       world0
       = (w', Ret (Some "/d/new")) /\
     100000 <= now w' < 100000 + DRAFT_INTERVAL_MS + 2 * 15000) /\
  (exists w',
     _poll_drafts_for_new env_arrives 0%nat stale_snapshot 90000 world0
       = (w', Ret None) /\
     now world0 + 90000 <= now w').
Proof.
  destruct (polls_answer_on_first_turn_after env_late)
    as (Himg & Hnone & _ & _).
  destruct (polls_answer_on_first_turn_after env_sluggish)
    as (_ & _ & Hdraft & _).
  destruct (polls_answer_on_first_turn_after env_arrives)
    as (_ & _ & _ & Hstale).
  split; [|split; [|split]].
  - apply Himg; [exact env_late_turns_true
                | exact (image_round_instant env_late env_late_instant 0%nat)
                | cbn; lia | vm_compute; discriminate].
  - apply Hnone. intros w Hw.
    apply (proj1 env_late_turns_true). cbn in Hw. lia.
  - apply Hdraft; [exact env_sluggish_reload_ok | exact env_sluggish_turns_true
                  | exact env_sluggish_takes
                  | cbn; lia | vm_compute; discriminate].
  - apply Hstale; [exact env_arrives_reload_ok|]. intros w Hw.
    apply (proj1 env_arrives_turns_true). cbn in Hw. lia.
Defined.

(** C5, as the specification words it, fails in three ways.  A render
    that turns true at 118 s, inside the 120 s deadline, is missed by the
    image poll, which looks at 117 s and next at 120 s, and returns
    [None].  A draft that is listed from 100 s on is reported at 135 s,
    more than one 30 s interval later, when each reload takes 15 s.  And
    a listing that never changes makes the drafts poll raise, not return
    [None], when the reload between two turns raises. *)
Lemma polls_fail_as_worded :
  ~ positive_as_specified (image_check env_late 0%nat)
      (_poll_for_loaded_image env_late 0%nat) IMAGE_INTERVAL_MS
      DEFAULT_TIMEOUT_MS world0 118000 [Byte.x01] /\
  ~ positive_as_specified (draft_check env_sluggish 0%nat stale_snapshot)
      (_poll_drafts_for_new env_sluggish 0%nat stale_snapshot)
      DRAFT_INTERVAL_MS SORA_TIMEOUT_MS world0 100000 "/d/new" /\
  ~ negative_as_specified (draft_check env_reload_fails 0%nat stale_snapshot)
      (_poll_drafts_for_new env_reload_fails 0%nat stale_snapshot)
      SORA_TIMEOUT_MS world0.
Proof.
  split; [|split].
  - intros Hclaim.
    destruct (Hclaim env_late_turns_true)
      as (w' & Hrun & _); [cbn; lia | vm_compute; reflexivity |].
    vm_compute in Hrun. discriminate Hrun.
  - intros Hclaim.
    destruct (Hclaim env_sluggish_turns_true)
      as (w' & Hrun & Hnow); [cbn; lia | vm_compute; reflexivity |].
    vm_compute in Hrun. injection Hrun as <-.
    vm_compute in Hnow. apply Hnow. reflexivity.
  - intros Hclaim.
    destruct (Hclaim (stale_listing_stays_negative _)) as (w' & Hrun).
    vm_compute in Hrun. discriminate Hrun.
Qed.

(** C1 fails on the code: when reloading the drafts listing raises after
    Create has been clicked, the [except] block lets the loop go on, and
    each of the three attempts clicks Create. *)
Theorem create_clicked_on_every_attempt :
  let run := generate_sora_video env_reload_fails "a red fox" "out/video.mp4"
               25 "9:16" world0 in
  commit_clicks (trace (fst run)) = 3%nat /\
  snd run = Ret (failed_result "Timeout 120000ms exceeded.").
Proof. vm_compute. split; reflexivity. Qed.

(** C3 fails on the code: an attempt that ends in [break] does not close
    its page.  After a login redirect on the last attempt, and after a
    timed-out wait for the new draft, the call returns with the tab of
    that attempt still open. *)
Theorem page_left_open_on_break :
  elements (open_pages (fst (generate_grok_image env_login "a red fox"
                               "out/image.png" "1:1" world0))) = [2%nat] /\
  elements (open_pages (fst (generate_sora_video env_login "a red fox"
                               "out/video.mp4" 25 "9:16" world0))) = [2%nat] /\
  elements (open_pages (fst (generate_sora_video env_stale "a red fox"
                               "out/video.mp4" 25 "9:16" world0))) = [0%nat].
Proof. vm_compute. repeat split; reflexivity. Qed.

End Claims.

(** * Further properties of the workflows *)

Section WorkflowExtras.
Import PyStr Browser Config Scenario Grok Sora.

Lemma for_attempts_last_error (body : Z -> Async ctl) :
  (forall a w, sat (body a) w
                 (fun _ c => match c with
                             | Return d => success d = true
                             | _ => True
                             end)
                 (fun _ _ => False)) ->
  forall attempts last_error w,
    attempts <> [] ->
    sat (for_attempts body attempts last_error) w
      (fun w' r => success r = true \/
                   exists e, last_error_of body attempts w w' e /\
                             r = failed_result e)
      (fun _ _ => False).
Proof.
  intros Hbody. induction attempts as [|a rest IH]; intros le w Hne;
    [contradiction|].
  cbn [for_attempts]. unfold sat, bind.
  pose proof (Hbody a w) as Hb. unfold sat in Hb.
  destruct (body a w) as [w1 [[d | e | e]|e|]] eqn:Hrun; try contradiction.
  - left. exact Hb.
  - destruct rest as [|b rest].
    + right. exists e. split; [apply last_continue; exact Hrun | reflexivity].
    + specialize (IH e w1 ltac:(discriminate)). unfold sat in IH.
      destruct (for_attempts body (b :: rest) e w1) as [w' [r|e'|]];
        try contradiction.
      destruct IH as [Hs | (e' & Hlast & ->)]; [left; exact Hs | right].
      exists e'. split; [|reflexivity].
      eapply earlier_continue; eassumption.
  - right. exists e. split; [apply last_break; exact Hrun | reflexivity].
Qed.

Lemma grok_attempt_returns_success E prompt output_path a w :
  sat (grok_attempt E prompt output_path a) w
    (fun _ c => match c with Return d => success d = true | _ => True end)
    (fun _ _ => False).
Proof.
  eapply sat_conseq; [apply sat_grok_attempt | |]; cbn; auto.
  intros w' [d | e | e] _ H; [exact (proj1 H) | exact I | exact I].
Qed.

Lemma sora_attempt_returns_success E prompt output_path duration a w :
  sat (sora_attempt E prompt output_path duration a) w
    (fun _ c => match c with Return d => success d = true | _ => True end)
    (fun _ _ => False).
Proof.
  eapply sat_conseq; [apply sat_sora_attempt | |]; cbn; auto.
  intros w' [d | e | e] _ H; [exact (proj1 H) | exact I | exact I].
Qed.

(** X1: whatever made a workflow give up, and however many attempts ran,
    a failure result carries the text "Failed after 3 attempts: " followed
    by the error of the last attempt that ran: the one that ended in
    [break], or the third one when all three ended in [continue].  Both
    workflows return either that or a success. *)
Theorem failure_text_always_says_three_attempts E prompt output_path duration
    aspect_ratio w :
  (exists w' r,
     generate_grok_image E prompt output_path aspect_ratio w = (w', Ret r) /\
     (success r = true \/
      exists e,
        last_error_of (grok_attempt E prompt output_path) attempt_range
          w w' e /\
        success r = false /\
        error r = Some ("Failed after 3 attempts: " +:+ e))) /\
  (exists w' r,
     generate_sora_video E prompt output_path duration aspect_ratio w
       = (w', Ret r) /\
     (success r = true \/
      exists e,
        last_error_of (sora_attempt E prompt output_path duration)
          attempt_range w w' e /\
        success r = false /\
        error r = Some ("Failed after 3 attempts: " +:+ e))).
Proof.
  split.
  - destruct (sat_total _ _ _
      (for_attempts_last_error (grok_attempt E prompt output_path)
         (grok_attempt_returns_success E prompt output_path)
         attempt_range "" w ltac:(discriminate)))
      as (w' & r & Heq & Hr).
    exists w', r. split; [exact Heq|].
    destruct Hr as [Hs | (e & Hlast & ->)]; [left; exact Hs | right].
    exists e. split; [exact Hlast | split; reflexivity].
  - destruct (sat_total _ _ _
      (for_attempts_last_error (sora_attempt E prompt output_path duration)
         (sora_attempt_returns_success E prompt output_path duration)
         attempt_range "" w ltac:(discriminate)))
      as (w' & r & Heq & Hr).
    exists w', r. split; [exact Heq|].
    destruct Hr as [Hs | (e & Hlast & ->)]; [left; exact Hs | right].
    exists e. split; [exact Hlast | split; reflexivity].
Qed.

(** X2: [_set_duration] is best effort: whatever the page does, it
    returns without raising, and it never clicks Create. *)
Theorem set_duration_is_best_effort E p duration w :
  exists w',
    _set_duration E p duration w = (w', Ret tt) /\
    commit_clicks (trace w') = commit_clicks (trace w) /\
    trace w `suffix_of` trace w'.
Proof.
  destruct (sat_total _ _ _ (sat_set_duration E p duration w))
    as (w' & [] & Heq & (_ & Hc & Hs)).
  exists w'. auto.
Qed.

(** X3: with a timeout that is zero or negative the three waiting loops
    give up at once, without looking at the page: the polls return [None],
    the scene-card wait returns [False], and the world is untouched. *)
Theorem polls_give_up_at_once_without_time E p snap timeout w :
  timeout <= 0 ->
  _poll_for_loaded_image E p timeout w = (w, Ret None) /\
  _poll_drafts_for_new E p snap timeout w = (w, Ret None) /\
  _wait_for_scene_cards E p timeout w = (w, Ret false).
Proof.
  intros Hle.
  assert (Hcond : (now w <? now w + timeout) = false) by (apply Z.ltb_ge; lia).
  assert (Hcond' : (now w <? now w + timeout * 1000) = false)
    by (apply Z.ltb_ge; lia).
  unfold _poll_for_loaded_image, _poll_drafts_for_new, _wait_for_scene_cards,
    bind, time_time, poll_fuel.
  rewrite !Nat.add_succ_r. cbn [while_before].
  rewrite Hcond, Hcond'. repeat split.
Qed.

Lemma polls_give_up_at_once_without_time_witness :
  _poll_for_loaded_image env_stale 0%nat 0 world0 = (world0, Ret None) /\
  _poll_drafts_for_new env_stale 0%nat stale_snapshot 0 world0
    = (world0, Ret None) /\
  _wait_for_scene_cards env_stale 0%nat 0 world0 = (world0, Ret false).
Proof.
  apply (polls_give_up_at_once_without_time env_stale 0%nat stale_snapshot 0
           world0).
  lia.
Defined.

Lemma collect_hrefs_nonempty E links w :
  sat (collect_hrefs E links) w
    (fun _ L => Forall (fun h => h <> "") L) (fun _ _ => True).
Proof.
  revert w. induction links as [|link rest IH]; intros w; cbn [collect_hrefs].
  - apply sat_ret. constructor.
  - step call as w1 href Hhref Hf1; [|exact I].
    step (apply IH) as w2 hrefs Hhrefs Hall; [|exact I].
    destruct href as [[|c h]|]; apply sat_ret; auto.
Qed.

(** X4: a listing read by [_get_draft_hrefs] has no empty entry, so the
    entry [_poll_drafts_for_new] reports is never the empty string: the
    caller's [if not new_draft_href] fires on [None] only. *)
Theorem reported_draft_is_never_empty E p snap timeout w w' h :
  _poll_drafts_for_new E p snap timeout w = (w', Ret (Some h)) ->
  h <> "".
Proof.
  intros Hrun.
  pose proof (sat_run _ _ _ _ _ _ (sat_poll_drafts_for_new E p snap timeout w)
                Hrun) as [_ Hfresh].
  destruct (Hfresh h eq_refl) as (wa & wb & L & _ & Hread & Hhead).
  assert (Hall : Forall (fun h => h <> "") L).
  { unfold _get_draft_hrefs, bind in Hread.
    destruct (query_selector_all E p draft_sel wa) as [w1 [links|e|]];
      try discriminate.
    exact (sat_run _ _ _ _ _ _ (collect_hrefs_nonempty E links w1) Hread). }
  assert (Hin : h ∈ new_hrefs L snap).
  { destruct (new_hrefs L snap) as [|h0 tl]; [discriminate|].
    injection Hhead as ->. left. }
  unfold new_hrefs in Hin. apply list_elem_of_filter in Hin as [_ Hin].
  rewrite Forall_forall in Hall. apply Hall. exact Hin.
Qed.

Lemma reported_draft_is_never_empty_witness : "/d/new" <> "".
Proof.
  refine (reported_draft_is_never_empty env_arrives 0%nat stale_snapshot
            SORA_TIMEOUT_MS world0
            (fst (_poll_drafts_for_new env_arrives 0%nat stale_snapshot
                    SORA_TIMEOUT_MS world0)) "/d/new" _).
  vm_compute. reflexivity.
Defined.

(** X5: with an empty snapshot every listed draft counts as new: if the
    first reading of the listing is not empty, the poll reports its first
    entry at once, whether or not that draft existed before the commit. *)
Theorem empty_snapshot_reports_first_listed E p timeout w w1 h L :
  0 < timeout ->
  _get_draft_hrefs E p w = (w1, Ret (h :: L)) ->
  _poll_drafts_for_new E p ∅ timeout w = (w1, Ret (Some h)).
Proof.
  intros Hpos Hread.
  assert (Hcond : (now w <? now w + timeout) = true) by (apply Z.ltb_lt; lia).
  unfold _poll_drafts_for_new, bind at 1, time_time, poll_fuel.
  rewrite Nat.add_succ_r. cbn [while_before]. rewrite Hcond.
  unfold bind at 1. rewrite Hread.
  unfold new_hrefs. rewrite filter_cons_True by set_solver. reflexivity.
Qed.

Lemma empty_snapshot_reports_first_listed_witness :
  _poll_drafts_for_new env_stale 0%nat ∅ SORA_TIMEOUT_MS world0
  = (fst (_get_draft_hrefs env_stale 0%nat world0), Ret (Some "/d/old")).
Proof.
  refine (empty_snapshot_reports_first_listed env_stale 0%nat SORA_TIMEOUT_MS
            world0 _ "/d/old" [] _ _).
  - reflexivity.
  - vm_compute. reflexivity.
Defined.

End WorkflowExtras.

(** ** Files, clicks and time across a whole call *)

Lemma sat_and {A} (m : Async A) w (Q1 Q2 : World -> A -> Prop)
    (X1 X2 : World -> string -> Prop) :
  sat m w Q1 X1 -> sat m w Q2 X2 ->
  sat m w (fun w' a => Q1 w' a /\ Q2 w' a) (fun w' e => X1 w' e /\ X2 w' e).
Proof. unfold sat. destruct (m w) as [w' [a|e|]]; auto. Qed.

Lemma only_output_eq out a b c d :
  only_output out a b -> fs c = fs a -> fs d = fs b -> only_output out c d.
Proof. unfold only_output. intros H -> ->. exact H. Qed.

Lemma only_output_of_eq out w w' : fs w' = fs w -> only_output out w w'.
Proof. unfold only_output. intros ->. reflexivity. Qed.

Lemma only_output_trans out a b c :
  only_output out a b -> only_output out b c -> only_output out a c.
Proof.
  unfold only_output. intros H1 H2 q Hq. rewrite H2, H1 by exact Hq.
  reflexivity.
Qed.

Lemma only_output_insert out content a b c :
  fs c = <[out := content]> (fs b) -> fs b = fs a -> only_output out a c.
Proof.
  unfold only_output. intros -> -> q Hq.
  apply lookup_insert_ne. congruence.
Qed.

Lemma kept_eq E out a b c d :
  kept E out a b -> fs c = fs a -> fs d = fs b -> kept E out c d.
Proof.
  unfold kept, only_output. intros [H1 H2] -> ->. split; assumption.
Qed.

Lemma kept_of_eq E out w w' : fs w' = fs w -> kept E out w w'.
Proof.
  intros H. split; [apply only_output_of_eq; exact H | intros _; exact H].
Qed.

Lemma kept_trans E out a b c :
  kept E out a b -> kept E out b c -> kept E out a c.
Proof.
  intros [H1 H1'] [H2 H2']. split.
  - eapply only_output_trans; eassumption.
  - intros Hc. rewrite (H2' Hc). exact (H1' Hc).
Qed.

(** [kept] and [only_output] from one such hypothesis and equalities
    between file systems. *)
Ltac keeps :=
  solve [ apply kept_of_eq; congruence
        | apply only_output_of_eq; congruence
        | match goal with
          | H : kept ?E ?o _ _ |- kept ?E ?o _ _ =>
              apply (kept_eq _ _ _ _ _ _ H); congruence
          | H : only_output ?o _ _ |- only_output ?o _ _ =>
              apply (only_output_eq _ _ _ _ _ H); congruence
          | H : kept ?E ?o _ _ |- only_output ?o _ _ =>
              apply (only_output_eq _ _ _ _ _ (proj1 H)); congruence
          end ].

Ltac calms :=
  unfold calm, spent in *;
  repeat match goal with
         | H : _ /\ _ |- _ => destruct H
         end;
  repeat match goal with
         | |- _ /\ _ => split
         end;
  first [keeps | frames].

(** Sequencing when only the postconditions matter. *)
Tactic Notation "next" tactic3(tac) :=
  let H := fresh "H" in
  eapply sat_bind;
    [ tac
    | intros ?w ?a _ H; cbv beta in H
    | intros ?w ?e _ H; cbv beta in H;
      first [contradiction | solve [calms] | idtac] ].

Section Calm.
Context (E : Env).
Import PyStr Browser Config Scenario Grok Sora.

Lemma calm_refl w : calm w w.
Proof. split; [apply frame_refl | reflexivity]. Qed.

Lemma calm_call {A} act (v : World -> A) w :
  is_commit act = false -> 0 <= nominal act ->
  sat (perform E act v id) w
    (fun w' a => calm w w' /\ a = v w) (fun w' _ => calm w w').
Proof.
  intros Hc Hn. eapply sat_conseq; [apply sat_perform | |]; cbn.
  - intros w' a _ (_ & -> & ->). split; [|reflexivity].
    split; [apply frame_advance; assumption | reflexivity].
  - intros w' e _ (_ & ->).
    split; [apply frame_advance; assumption | reflexivity].
Qed.

Lemma calm_sleep ms w :
  0 <= ms ->
  sat (sleep E ms) w (fun w' _ => calm w w' /\ now w + ms <= now w')
    (fun _ _ => False).
Proof.
  intros Hms. eapply sat_conseq; [apply sat_sleep; exact Hms | |]; cbn; auto.
  intros w' a Heq [Hf Hn]. split; [|exact Hn].
  split; [exact Hf|]. unfold sleep in Heq. injection Heq as <-. reflexivity.
Qed.

Lemma calm_query_selector p sel w :
  sat (query_selector E p sel) w
    (fun w' r => calm w w' /\ (r = None \/ r = Some (Element p sel 0)))
    (fun w' _ => calm w w').
Proof.
  eapply sat_conseq; [unfold query_selector; apply calm_call | |]; cbn;
    try reflexivity; try lia; auto.
  intros w' r _ [Hf ->]. split; [exact Hf|].
  destruct (env_count E w p sel); auto.
Qed.

Lemma calm_new_page w :
  sat (new_page E) w (fun w' _ => calm w w') (fun w' _ => calm w w').
Proof.
  unfold new_page.
  assert (Hf : frame w (advance E (ANewPage (next_page w)) w))
    by (apply frame_advance; [reflexivity | cbn; lia]).
  eapply sat_conseq; [apply sat_perform | |]; cbn.
  - intros w' a _ (_ & -> & _). split; [exact Hf | reflexivity].
  - intros w' e _ (_ & ->). split; [exact Hf | reflexivity].
Qed.

Lemma calm_close_page p w :
  sat (close_page E p) w (fun w' _ => calm w w') (fun _ _ => False).
Proof.
  eapply sat_conseq; [apply sat_close_page | |]; cbn; auto.
Qed.

(** The write: a call that returns has stored the content; a call that
    raises has touched no other file, and not this one either when the
    failure is clean. *)
Lemma kept_write_bytes out content w :
  sat (write_bytes E out content) w
    (fun w' _ => frame w w' /\ fs w' = <[out := content]> (fs w))
    (fun w' _ => frame w w' /\ kept E out w w').
Proof.
  assert (Hf : frame w (advance E (AWriteBytes out content) w))
    by (apply frame_advance; [reflexivity | cbn; lia]).
  unfold sat, write_bytes.
  destruct (env_fault E w (AWriteBytes out content)) as [e|] eqn:He.
  - destruct (env_partial E w out content) as [n|] eqn:Hp.
    + split; [exact Hf|]. split.
      * intros q Hq. cbn. apply lookup_insert_ne. congruence.
      * intros Hc. rewrite (Hc _ _ _ He) in Hp. discriminate.
    + split; [exact Hf | apply kept_of_eq; reflexivity].
  - split; [exact Hf | reflexivity].
Qed.

End Calm.

(** A browser call that is not the commit and writes no file. *)
Ltac ccall := unfold_calls; apply calm_call; [reflexivity | cbn; lia].

Section CalmHelpers.
Context (E : Env).
Import PyStr Browser Config Scenario Grok Sora.

Lemma calm_get_page url w :
  sat (get_page E url) w (fun w' _ => calm w w') (fun w' _ => calm w w').
Proof.
  unfold get_page.
  next (apply calm_new_page). next ccall. apply sat_ret. calms.
Qed.

Lemma calm_wait_for_element p sel t w :
  sat (wait_for_element E p sel t) w (fun w' _ => calm w w')
    (fun _ _ => False).
Proof.
  unfold wait_for_element.
  eapply sat_try_except with (Qm := fun w' _ => calm w w')
                             (Xm := fun w' _ => calm w w').
  - next ccall. apply sat_ret. calms.
  - auto.
  - intros w1 e _ Hf. apply sat_ret. exact Hf.
Qed.

Lemma calm_retry_or_break delay attempt p msg w :
  0 <= delay ->
  sat (retry_or_break E delay attempt p msg) w
    (fun w' c => calm w w' /\ not_returned c) (fun _ _ => False).
Proof.
  intros Hd.
  eapply sat_conseq; [apply sat_retry_or_break; exact Hd | |]; cbn; auto.
  intros w' c _ (Hf & Hfs & Hc). split; [split; assumption|].
  exists msg. exact Hc.
Qed.

Lemma calm_on_exception delay attempt p e w :
  0 <= delay ->
  sat (on_exception E delay attempt p e) w
    (fun w' c => calm w w' /\ c = Continue e) (fun _ _ => False).
Proof.
  intros Hd. unfold on_exception.
  eapply sat_bind with (Qm := fun w' _ => calm w w') (Xm := fun _ _ => False).
  - destruct p as [p|]; [apply calm_close_page | apply sat_ret, calm_refl].
  - intros w1 _ _ Hf1.
    eapply sat_bind with (Qm := fun w' _ => calm w1 w')
                         (Xm := fun _ _ => False).
    + destruct (attempt <? RETRY_ATTEMPTS).
      * eapply sat_conseq; [apply calm_sleep; lia | |]; cbn; auto.
        intros w' a _ [H _]; exact H.
      * apply sat_ret, calm_refl.
    + intros w2 _ _ Hf2. apply sat_ret. split; [calms | reflexivity].
    + auto.
  - auto.
Qed.

Lemma calm_scan_images imgs w :
  sat (scan_images E imgs) w (fun w' _ => calm w w') (fun w' _ => calm w w').
Proof.
  revert w. induction imgs as [|img rest IH]; intros w; cbn [scan_images].
  - apply sat_ret, calm_refl.
  - next ccall.
    destruct (_ && _).
    + destruct (split_once _ _) as [[pre enc]|]; [|apply sat_raise; calms].
      destruct (env_b64decode E enc); [apply sat_raise | apply sat_ret]; calms.
    + eapply sat_conseq; [apply IH | |]; cbn; intros; calms.
Qed.

Lemma calm_poll_for_loaded_image p timeout_ms w :
  sat (_poll_for_loaded_image E p timeout_ms) w
    (fun w' _ => calm w w') (fun w' _ => calm w w').
Proof.
  unfold _poll_for_loaded_image.
  step (apply sat_time_time) as w0 t Ht Hw; [|contradiction].
  destruct Hw as [-> ->]. cbv zeta.
  apply sat_poll with (interval := SCREENSHOT_POLL_INTERVAL_S * 1000)
                      (Inv := fun w0 => calm w w0).
  - reflexivity.
  - apply calm_refl.
  - intros w0 Hinv.
    next ccall. next (apply calm_scan_images).
    match goal with |- sat (match ?f with _ => _ end) _ _ _ => destruct f end.
    + apply sat_ret. calms.
    + next (apply calm_sleep; vm_compute; discriminate).
      apply sat_ret. calms.
  - intros w0 Hinv. exact Hinv.
Qed.

Lemma calm_find_duration_button p labels :
  (forall label, In label labels ->
     is_commit (AClick (Element p (has_text_sel label) 0)) = false) ->
  forall w,
    sat (find_duration_button E p labels) w
      (fun w' r => calm w w' /\
                   forall b, r = Some b -> is_commit (AClick b) = false)
      (fun w' _ => calm w w').
Proof.
  induction labels as [|label rest IH]; intros Hl w; cbn [find_duration_button].
  - apply sat_ret. split; [apply calm_refl | discriminate].
  - next (apply calm_query_selector).
    match goal with H : _ /\ (_ \/ _) |- _ => destruct H as [Hf1 [-> | ->]] end.
    + eapply sat_conseq;
        [apply IH; intros; apply Hl; right; assumption | |]; cbn.
      * intros w' r _ [Hf2 Hr]. split; [calms | exact Hr].
      * intros w' e _ Hf2. calms.
    + apply sat_ret. split; [exact Hf1|].
      intros b [= <-]. apply Hl. left; reflexivity.
Qed.

Lemma calm_set_duration p duration w :
  sat (_set_duration E p duration) w (fun w' _ => calm w w')
    (fun _ _ => False).
Proof.
  unfold _set_duration.
  eapply sat_try_except with (Qm := fun w' _ => calm w w')
                             (Xm := fun w' _ => calm w w').
  - eapply sat_bind.
    + apply calm_find_duration_button.
      intros label Hin. cbn in Hin.
      repeat (destruct Hin as [<- | Hin]; [reflexivity|]). contradiction.
    + intros w1 btn _ [Hf1 Hnc]. destruct btn as [btn|].
      * next (unfold click; apply calm_call;
              [apply Hnc; reflexivity | cbn; lia]).
        next (apply calm_sleep; lia).
        next ccall.
        match goal with |- sat (if ?c then _ else _) _ _ _ => destruct c end.
        -- next ccall.
           eapply sat_conseq; [apply calm_sleep; lia | |]; cbn;
             [|intros; contradiction].
           intros w6 u6 _ Hf6. calms.
        -- apply sat_ret. calms.
      * apply sat_ret. exact Hf1.
    + intros w1 e _ Hf1. exact Hf1.
  - auto.
  - intros w1 e _ Hf. apply sat_ret. exact Hf.
Qed.

Lemma calm_wait_for_scene_cards p timeout_s w :
  sat (_wait_for_scene_cards E p timeout_s) w (fun w' _ => calm w w')
    (fun w' _ => calm w w').
Proof.
  unfold _wait_for_scene_cards.
  step (apply sat_time_time) as w0 t Ht Hw; [|contradiction].
  destruct Hw as [-> ->]. cbv zeta.
  eapply sat_bind with (Qm := fun w' _ => calm w w')
                       (Xm := fun w' _ => calm w w').
  - apply sat_poll with (interval := 5000) (Inv := fun w0 => calm w w0).
    + reflexivity.
    + apply calm_refl.
    + intros w0 Hinv.
      next ccall.
      match goal with |- sat (if ?c then _ else _) _ _ _ => destruct c end;
        [apply sat_ret; calms|].
      next ccall.
      match goal with |- sat (if ?c then _ else _) _ _ _ => destruct c end;
        [apply sat_ret; calms|].
      next (apply calm_sleep; lia).
      apply sat_ret. calms.
    + intros w0 Hinv. exact Hinv.
  - intros w1 r _ Hf. apply sat_ret. exact Hf.
  - auto.
Qed.

Lemma calm_collect_hrefs links w :
  sat (collect_hrefs E links) w (fun w' _ => calm w w')
    (fun w' _ => calm w w').
Proof.
  revert w. induction links as [|link rest IH]; intros w; cbn [collect_hrefs].
  - apply sat_ret, calm_refl.
  - next ccall. next (apply IH).
    match goal with |- sat (match ?h with _ => _ end) _ _ _ =>
      destruct h as [[|c h]|] end; apply sat_ret; calms.
Qed.

Lemma calm_get_draft_hrefs p w :
  sat (_get_draft_hrefs E p) w (fun w' _ => calm w w')
    (fun w' _ => calm w w').
Proof.
  unfold _get_draft_hrefs.
  next ccall.
  eapply sat_conseq; [apply calm_collect_hrefs | |]; cbn; intros; calms.
Qed.

Lemma calm_poll_drafts_for_new p snap timeout_ms w :
  sat (_poll_drafts_for_new E p snap timeout_ms) w
    (fun w' _ => calm w w') (fun w' _ => calm w w').
Proof.
  unfold _poll_drafts_for_new.
  step (apply sat_time_time) as w0 t Ht Hw; [|contradiction].
  destruct Hw as [-> ->]. cbv zeta.
  apply sat_poll with (interval := SORA_DRAFT_POLL_INTERVAL_S * 1000)
                      (Inv := fun w0 => calm w w0).
  - reflexivity.
  - apply calm_refl.
  - intros w0 Hinv.
    next (apply calm_get_draft_hrefs).
    match goal with |- sat (match ?l with _ => _ end) _ _ _ => destruct l end.
    + next ccall.
      next (apply calm_sleep; vm_compute; discriminate).
      apply sat_ret. calms.
    + apply sat_ret. calms.
  - intros w0 Hinv. exact Hinv.
Qed.

End CalmHelpers.

Section Budgets.
Context (E : Env).
Import PyStr Browser Config Scenario Grok Sora.

Lemma budget_grok_steps prompt output_path attempt start_time p w :
  sat (grok_steps E prompt output_path attempt start_time p) w
    (fun w' c => frame w w' /\ ended E output_path 23500 start_time w w' c)
    (fun w' _ => frame w w' /\ kept E output_path w w').
Proof.
  assert (Hretry : forall msg w0, calm w w0 ->
    sat (retry_or_break E RETRY_DELAY_S attempt p msg) w0
      (fun w' c => frame w w' /\ ended E output_path 23500 start_time w w' c)
      (fun w' _ => frame w w' /\ kept E output_path w w')).
  { intros msg w0 Hw0.
    eapply sat_conseq;
      [apply calm_retry_or_break; vm_compute; discriminate | |]; cbn;
      [|intros; contradiction].
    intros w' c _ (Hc & msg' & [-> | ->]); cbn; calms. }
  unfold grok_steps.
  next (apply calm_sleep; lia).
  next (apply sat_page_url).
  match goal with H : _ = _ /\ _ |- _ => destruct H as [-> _] end.
  match goal with |- sat (if ?c then _ else _) _ _ _ => destruct c end;
    [apply Hretry; calms|].
  next (apply calm_wait_for_element).
  match goal with |- sat (if negb ?c then _ else _) _ _ _ => destruct c end;
    cbn [negb]; [|apply Hretry; calms].
  next (apply calm_query_selector).
  match goal with H : _ /\ (_ \/ _) |- _ => destruct H as [? [-> | ->]] end;
    [apply sat_raise; calms|].
  next ccall. next ccall. next ccall. next ccall.
  next (apply calm_sleep; lia).
  next (apply calm_query_selector).
  match goal with H : _ /\ (_ \/ _) |- _ => destruct H as [? [-> | ->]] end;
    [apply Hretry; calms|].
  next ccall.
  next (apply calm_sleep; lia).
  next (apply calm_poll_for_loaded_image).
  match goal with |- sat (match ?d with _ => _ end) _ _ _ =>
    destruct d as [[|b data]|] end;
    [apply Hretry; calms | | apply Hretry; calms].
  next ccall.
  eapply sat_bind with
    (Qm := fun w' _ => frame w w' /\ now w + 23500 <= now w' /\
                       only_output output_path w w')
    (Xm := fun w' _ => frame w w' /\ kept E output_path w w').
  - eapply sat_conseq; [apply kept_write_bytes | |]; cbn.
    + intros w' u _ [Hf Hfs]. split; [calms|]. split; [calms|].
      eapply only_output_insert; [exact Hfs | calms].
    + intros w' e _ [Hf Hk]. calms.
  - intros w15 u15 _ (Hf15 & Hn15 & Ho15).
    next (apply sat_time_time).
    match goal with H : _ = _ /\ _ = _ |- _ => destruct H as [-> ->] end.
    next (apply sat_close_page).
    apply sat_ret. split; [calms|]. cbn.
    split; [reflexivity | split; [lia | calms]].
  - intros w' e _ Hx. exact Hx.
Qed.

Lemma budget_grok_attempt prompt output_path attempt w :
  sat (grok_attempt E prompt output_path attempt) w
    (attempt_post E output_path 23500 w) (fun _ _ => False).
Proof.
  unfold grok_attempt.
  step (apply sat_time_time) as w0 t Ht Hw; [|contradiction].
  destruct Hw as [-> ->].
  eapply sat_try_with_page with (Qa := fun w' _ => calm w w')
                                (Xa := fun w' _ => calm w w').
  - apply calm_get_page.
  - intros w1 e Hc.
    eapply sat_conseq;
      [apply calm_on_exception; vm_compute; discriminate | |]; cbn; auto.
    intros w' c _ [Hc' ->]. unfold attempt_post. calms.
  - intros w1 p0 Hc.
    eapply sat_conseq; [apply budget_grok_steps | |]; cbn.
    + intros w' c _ [Hf Hend]. unfold attempt_post. split; [calms|].
      destruct c as [d | e | e]; cbn in *; [|calms..].
      destruct Hend as (Hs & Hgen & Ho). split; [exact Hs|]. calms.
    + intros w2 e _ Hc2.
      eapply sat_conseq;
        [apply calm_on_exception; vm_compute; discriminate | |]; cbn; auto.
      intros w' c _ [Hc' ->]. unfold attempt_post. calms.
Qed.

Lemma budget_for_attempts (body : Z -> Async ctl) out least :
  (forall a w, sat (body a) w (attempt_post E out least w) (fun _ _ => False)) ->
  forall attempts last_error w,
    sat (for_attempts body attempts last_error) w
      (call_post E out least (length attempts) w) (fun _ _ => False).
Proof.
  intros Hbody. induction attempts as [|a rest IH]; intros le w;
    cbn [for_attempts length].
  - apply sat_ret. split; [lia|].
    split; [apply only_output_of_eq; reflexivity|].
    right; split; [reflexivity | apply kept_of_eq; reflexivity].
  - step (apply Hbody) as w1 c Hc Hp; [|contradiction].
    destruct Hp as [Hclicks Hend]. destruct c as [d | e | e].
    + destruct Hend as (Hs & Hgen & Ho).
      apply sat_ret. split; [lia|]. split; [exact Ho|]. left. split; assumption.
    + eapply sat_conseq; [apply IH | |]; cbn; auto.
      intros w' r _ (Hclicks' & Ho & Hr). split; [lia|].
      split; [eapply only_output_trans; [exact (proj1 Hend) | exact Ho]|].
      destruct Hr as [Hr | [Hs Hfs]]; [left; exact Hr | right].
      split; [exact Hs | eapply kept_trans; eassumption].
    + apply sat_ret. split; [lia|]. split; [exact (proj1 Hend)|].
      right; split; [reflexivity | exact Hend].
Qed.

(** The click on Create: one more click on record, no file written. *)
Lemma spent_click_commit el w :
  is_commit (AClick el) = true ->
  sat (click E el) w
    (fun w' _ => now w <= now w' /\ fs w' = fs w /\
                 commit_clicks (trace w') = S (commit_clicks (trace w)))
    (fun w' _ => now w <= now w' /\ fs w' = fs w /\
                 commit_clicks (trace w') = S (commit_clicks (trace w))).
Proof.
  intros Hc.
  pose proof (sat_click_commit E el w Hc) as Hs.
  unfold sat, click, perform in *.
  destruct (env_fault E w (AClick el)); cbn in *; intuition.
Qed.

Lemma budget_sora_steps_1_to_7 prompt duration attempt p w :
  sat (sora_steps_1_to_7 E prompt duration attempt p) w
    (fun w' r => match r with
                 | inl c => calm w w' /\ not_returned c
                 | inr _ => now w + 17000 <= now w' /\ fs w' = fs w /\
                            commit_clicks (trace w')
                            = S (commit_clicks (trace w))
                 end)
    (fun w' _ => spent w w').
Proof.
  assert (Hretry : forall msg w0, calm w w0 ->
    sat (c <- retry_or_break E SORA_RETRY_DELAY_S attempt p msg;; ret (inl c)) w0
      (fun w' (r : ctl + gset string) =>
         match r with
         | inl c => calm w w' /\ not_returned c
         | inr _ => now w + 17000 <= now w' /\ fs w' = fs w /\
                    commit_clicks (trace w') = S (commit_clicks (trace w))
         end) (fun w' _ => spent w w')).
  { intros msg w0 Hw0.
    next (apply calm_retry_or_break; vm_compute; discriminate).
    apply sat_ret.
    match goal with H : _ /\ not_returned _ |- _ => destruct H as [? Hnr] end.
    split; [calms | exact Hnr]. }
  unfold sora_steps_1_to_7.
  next (apply calm_sleep; lia).
  next (apply sat_page_url).
  match goal with H : _ = _ /\ _ |- _ => destruct H as [-> _] end.
  match goal with |- sat (if ?c then _ else _) _ _ _ => destruct c end;
    [apply Hretry; calms|].
  next (apply calm_set_duration).
  next (apply calm_wait_for_element).
  match goal with |- sat (if negb ?c then _ else _) _ _ _ => destruct c end;
    cbn [negb]; [|apply Hretry; calms].
  next (apply calm_query_selector).
  match goal with H : _ /\ (_ \/ _) |- _ => destruct H as [? [-> | ->]] end;
    [apply sat_raise; calms|].
  next ccall. next ccall.
  next (apply calm_sleep; lia).
  next ccall.
  next (apply calm_sleep; lia).
  next (apply calm_wait_for_scene_cards).
  next (apply calm_get_page).
  next (apply calm_sleep; lia).
  next (apply calm_get_draft_hrefs).
  cbv zeta.
  next (apply calm_close_page).
  match goal with |- sat _ ?w15 _ _ =>
    assert (Hhere : calm w w15 /\ now w + 12000 <= now w15) by calms
  end.
  destruct Hhere as [Hhere Htime].
  repeat match goal with H : calm _ _ /\ _ |- _ => clear H
                       | H : calm _ _ |- _ =>
                           lazymatch H with Hhere => fail | _ => clear H end
         end.
  next (apply calm_query_selector).
  eapply sat_bind with
    (Qm := fun w' r => (calm w w' /\ now w + 12000 <= now w') /\
                       (r = None \/ exists sel, r = Some (Element p sel 0) /\
                          is_commit (AClick (Element p sel 0)) = true))
    (Xm := fun w' _ => spent w w').
  - match goal with H : _ /\ (_ \/ _) |- _ => destruct H as [? [-> | ->]] end.
    + eapply sat_conseq; [apply calm_query_selector | |]; cbn.
      * intros w' r _ [Hf17 Hr]. split; [calms|].
        destruct Hr as [-> | ->]; [left; reflexivity|].
        right. exists create_aria_sel. split; reflexivity.
      * intros w' e _ Hf17. calms.
    + apply sat_ret. split; [calms|].
      right. exists create_text_sel. split; reflexivity.
  - intros w17 btn _ [[Hf17 Ht17] Hbtn].
    destruct Hbtn as [-> | (sel & -> & Hcommit)]; [apply Hretry; exact Hf17|].
    cbn [negb].
    eapply sat_bind with
      (Qm := fun w' _ => now w + 17000 <= now w' /\ fs w' = fs w /\
               commit_clicks (trace w') = S (commit_clicks (trace w)))
      (Xm := fun w' _ => spent w w').
    + next (apply spent_click_commit; exact Hcommit).
      eapply sat_conseq; [apply calm_sleep; lia | |]; cbn;
        [|intros; contradiction].
      intros w19 u19 _ Hf19. calms.
    + intros w20 u20 _ H20. apply sat_ret. exact H20.
    + intros w' e _ Hx. exact Hx.
  - intros w' e _ Hx. exact Hx.
Qed.

Lemma budget_sora_await_new_entry p snap w :
  sat (sora_await_new_entry E p snap) w
    (fun w' _ => calm w w' /\ now w + 3000 <= now w')
    (fun w' _ => calm w w').
Proof.
  unfold sora_await_new_entry.
  next ccall.
  next (apply calm_sleep; lia).
  eapply sat_conseq; [apply calm_poll_drafts_for_new | |]; cbn;
    intros; calms.
Qed.

Lemma budget_sora_steps_8_to_10 output_path start_time p snap w :
  sat (sora_steps_8_to_10 E output_path start_time p snap) w
    (fun w' c => frame w w' /\ ended E output_path 8000 start_time w w' c)
    (fun w' _ => frame w w' /\ kept E output_path w w').
Proof.
  unfold sora_steps_8_to_10.
  next (apply budget_sora_await_new_entry).
  match goal with |- sat (match ?h with _ => _ end) _ _ _ =>
    destruct h as [[|c h]|] end;
    [apply sat_ret; cbn; calms | | apply sat_ret; cbn; calms].
  next (apply calm_query_selector).
  eapply sat_bind with (Qm := fun w' _ => calm w w' /\ now w + 3000 <= now w')
                       (Xm := fun w' _ => calm w w').
  - match goal with H : _ /\ (_ \/ _) |- _ => destruct H as [? [-> | ->]] end.
    + eapply sat_conseq; [unfold page_goto; apply calm_call | |]; cbn;
        try reflexivity; try lia; intros; calms.
    + eapply sat_conseq; [unfold click; apply calm_call | |]; cbn;
        try reflexivity; try lia; intros; calms.
  - intros w3 u3 _ Hf3.
    next (apply calm_sleep; lia).
    next (apply calm_query_selector).
    match goal with H : _ /\ (_ \/ _) |- _ => destruct H as [? [-> | ->]] end;
      [apply sat_ret; cbn; calms|].
    next ccall.
    cbv zeta.
    match goal with |- sat (if negb ?c then _ else _) _ _ _ => destruct c end;
      cbn [negb]; [|apply sat_ret; cbn; calms].
    next ccall. next ccall.
    eapply sat_bind with
      (Qm := fun w' _ => frame w w' /\ now w + 8000 <= now w' /\
                         only_output output_path w w')
      (Xm := fun w' _ => frame w w' /\ kept E output_path w w').
    + eapply sat_conseq; [apply kept_write_bytes | |]; cbn.
      * intros w' u _ [Hf Hfs]. split; [calms|]. split; [calms|].
        eapply only_output_insert; [exact Hfs | calms].
      * intros w' e _ [Hf Hk]. calms.
    + intros w9 u9 _ (Hf9 & Hn9 & Ho9).
      next (apply sat_time_time).
      match goal with H : _ = _ /\ _ = _ |- _ => destruct H as [-> ->] end.
      next (apply sat_close_page).
      apply sat_ret. split; [calms|]. cbn.
      split; [reflexivity | split; [lia | calms]].
    + intros w' e _ Hx. exact Hx.
  - intros w' e _ Hx. calms.
Qed.

Lemma budget_sora_steps prompt output_path duration attempt start_time p w :
  sat (sora_steps E prompt output_path duration attempt start_time p) w
    (fun w' c => (commit_clicks (trace w') <= S (commit_clicks (trace w)))%nat /\
                 ended E output_path 25000 start_time w w' c)
    (fun w' _ => now w <= now w' /\ kept E output_path w w' /\
                 (commit_clicks (trace w') <= S (commit_clicks (trace w)))%nat).
Proof.
  unfold sora_steps.
  step (apply budget_sora_steps_1_to_7) as w1 r Hr Hq; [|calms].
  destruct r as [c | snap].
  - apply sat_ret. destruct Hq as [Hc (msg & [-> | ->])]; cbn; calms.
  - destruct Hq as (Hn1 & Hfs1 & Hc1).
    eapply sat_conseq; [apply budget_sora_steps_8_to_10 | |]; cbn.
    + intros w' c _ [Hf Hend]. split; [calms|].
      destruct c as [d | e | e]; cbn in *; [|calms..].
      destruct Hend as (Hs & Hgen & Ho).
      split; [exact Hs | split; [lia | calms]].
    + intros w' e _ Hc. calms.
Qed.

Lemma budget_sora_attempt prompt output_path duration attempt w :
  sat (sora_attempt E prompt output_path duration attempt) w
    (attempt_post E output_path 25000 w) (fun _ _ => False).
Proof.
  unfold sora_attempt.
  step (apply sat_time_time) as w0 t Ht Hw; [|contradiction].
  destruct Hw as [-> ->].
  eapply sat_try_with_page with (Qa := fun w' _ => calm w w')
                                (Xa := fun w' _ => calm w w').
  - apply calm_get_page.
  - intros w1 e Hc.
    eapply sat_conseq;
      [apply calm_on_exception; vm_compute; discriminate | |]; cbn; auto.
    intros w' c _ [Hc' ->]. unfold attempt_post. calms.
  - intros w1 p0 Hc.
    eapply sat_conseq; [apply budget_sora_steps | |]; cbn.
    + intros w' c _ [Hclicks Hend]. unfold attempt_post. split; [calms|].
      destruct c as [d | e | e]; cbn in *; [|calms..].
      destruct Hend as (Hs & Hgen & Ho). split; [exact Hs|]. calms.
    + intros w2 e _ Hsp.
      eapply sat_conseq;
        [apply calm_on_exception; vm_compute; discriminate | |]; cbn; auto.
      intros w' c _ [Hc' ->]. unfold attempt_post. calms.
Qed.

Lemma budget_generate_grok_image prompt output_path aspect_ratio w :
  sat (generate_grok_image E prompt output_path aspect_ratio) w
    (call_post E output_path 23500 3 w) (fun _ _ => False).
Proof.
  unfold generate_grok_image.
  apply (budget_for_attempts _ output_path 23500
           (budget_grok_attempt prompt output_path) attempt_range "" w).
Qed.

Lemma budget_generate_sora_video prompt output_path duration aspect_ratio w :
  sat (generate_sora_video E prompt output_path duration aspect_ratio) w
    (call_post E output_path 25000 3 w) (fun _ _ => False).
Proof.
  unfold generate_sora_video.
  apply (budget_for_attempts _ output_path 25000
           (budget_sora_attempt prompt output_path duration)
           attempt_range "" w).
Qed.

End Budgets.

Section BudgetTheorems.
Import PyStr Browser Config Scenario Grok Sora.

(** X6: one attempt of the video workflow clicks Create at most once,
    whether it returns, breaks, continues or ends in the [except] block;
    a whole call therefore clicks it at most three times. *)
Theorem create_clicked_at_most_once_per_attempt E prompt output_path duration
    aspect_ratio attempt w :
  (commit_clicks (trace (fst (sora_attempt E prompt output_path duration
                                attempt w)))
   <= S (commit_clicks (trace w)))%nat /\
  (commit_clicks (trace (fst (generate_sora_video E prompt output_path duration
                                aspect_ratio w)))
   <= commit_clicks (trace w) + 3)%nat.
Proof.
  split.
  - destruct (sat_total _ _ _
      (budget_sora_attempt E prompt output_path duration attempt w))
      as (w' & c & -> & Hc & _). exact Hc.
  - destruct (sat_total _ _ _
      (budget_generate_sora_video E prompt output_path duration aspect_ratio w))
      as (w' & r & -> & Hc & _). exact Hc.
Qed.

(** X7: a call changes no file other than [output_path], whether it
    succeeds or fails.  A call that fails leaves [output_path] as it was
    too, provided a write that raises leaves the file as it was:
    [Path.write_bytes] opens the file for writing before it writes, so a
    write that raises later can leave the file emptied or half written,
    and neither workflow removes it.  This holds for the image and for the
    video workflow. *)
Theorem generation_changes_only_its_output E prompt output_path duration
    aspect_ratio w :
  (exists w' r,
     generate_grok_image E prompt output_path aspect_ratio w = (w', Ret r) /\
     only_output output_path w w' /\
     (success r = false -> clean_failure E output_path -> fs w' = fs w)) /\
  (exists w' r,
     generate_sora_video E prompt output_path duration aspect_ratio w
       = (w', Ret r) /\
     only_output output_path w w' /\
     (success r = false -> clean_failure E output_path -> fs w' = fs w)).
Proof.
  split.
  - destruct (sat_total _ _ _
      (budget_generate_grok_image E prompt output_path aspect_ratio w))
      as (w' & r & Heq & _ & Ho & Hr).
    exists w', r. split; [exact Heq|]. split; [exact Ho|].
    intros Hs Hc. destruct Hr as [[? _] | [_ Hk]]; [congruence|].
    exact (proj2 Hk Hc).
  - destruct (sat_total _ _ _
      (budget_generate_sora_video E prompt output_path duration aspect_ratio w))
      as (w' & r & Heq & _ & Ho & Hr).
    exists w', r. split; [exact Heq|]. split; [exact Ho|].
    intros Hs Hc. destruct Hr as [[? _] | [_ Hk]]; [congruence|].
    exact (proj2 Hk Hc).
Qed.

Lemma generation_changes_only_its_output_witness :
  fs (fst (generate_grok_image env_login "a red fox" "out/image.png" "1:1"
             world0)) = fs world0 /\
  fs (fst (generate_sora_video env_login "a red fox" "out/video.mp4" 25 "16:9"
             world0)) = fs world0.
Proof.
  assert (Hclean : forall out, clean_failure env_login out)
    by (intros out w content e _; reflexivity).
  destruct (generation_changes_only_its_output env_login "a red fox"
              "out/image.png" 25 "1:1" world0)
    as [(w1 & r1 & Heq1 & _ & Hkept1) _].
  destruct (generation_changes_only_its_output env_login "a red fox"
              "out/video.mp4" 25 "16:9" world0)
    as [_ (w2 & r2 & Heq2 & _ & Hkept2)].
  rewrite Heq1, Heq2. cbn [fst].
  split.
  - apply Hkept1; [|apply Hclean].
    vm_compute in Heq1. injection Heq1 as _ <-. reflexivity.
  - apply Hkept2; [|apply Hclean].
    vm_compute in Heq2. injection Heq2 as _ <-. reflexivity.
Defined.

(** X8: a success never reports less than the fixed settle delays of its
    workflow: at least 23,500 ms for an image and 25,000 ms for a video,
    however fast the browser answers. *)
Theorem success_reports_at_least_the_settle_delays E prompt output_path
    duration aspect_ratio w :
  (exists w' r,
     generate_grok_image E prompt output_path aspect_ratio w = (w', Ret r) /\
     (success r = false \/ 23500 <= generation_time_ms r)) /\
  (exists w' r,
     generate_sora_video E prompt output_path duration aspect_ratio w
       = (w', Ret r) /\
     (success r = false \/ 25000 <= generation_time_ms r)).
Proof.
  split.
  - destruct (sat_total _ _ _
      (budget_generate_grok_image E prompt output_path aspect_ratio w))
      as (w' & r & Heq & _ & _ & Hr).
    exists w', r. split; [exact Heq|]. destruct Hr as [[_ ?] | [? _]]; auto.
  - destruct (sat_total _ _ _
      (budget_generate_sora_video E prompt output_path duration aspect_ratio w))
      as (w' & r & Heq & _ & _ & Hr).
    exists w', r. split; [exact Heq|]. destruct Hr as [[_ ?] | [? _]]; auto.
Qed.

End BudgetTheorems.

(** * browser.py and server.py: the page helpers *)

Section BrowserToolsProps.
Import PyStr Browser Config Scenario MoreScenarios BrowserTools ServerChecks.

Lemma get_page_cases E url w :
  (exists w1 p, get_page E url w = (w1, Ret p)) \/
  (exists w1 e, get_page E url w = (w1, Raise e)).
Proof.
  pose proof (sat_get_page E url w) as Hs. unfold sat in Hs.
  destruct (get_page E url w) as [w1 [p|e|]]; [eauto | eauto | contradiction].
Qed.

Lemma check_auth_returns E url selector w :
  exists w' st, check_auth E url selector w = (w', Ret st).
Proof.
  unfold check_auth, try_except, bind at 1.
  destruct (get_page_cases E url w) as [(w1 & p & Hget) | (w1 & e & Hget)];
    rewrite Hget; [|eexists _, _; reflexivity].
  unfold bind, sleep, wait_for_element, try_except, bind, wait_for_selector,
    perform, page_url, close_page, try_except, page_close, ret.
  destruct (env_fault E (advance E (ASleep 2000) w1)
              (AWaitForSelector p selector 10000)); cbn [id];
    match goal with
    | |- context [env_fault E ?w0 (AClosePage p)] =>
        destruct (env_fault E w0 (AClosePage p))
    end; eexists _, _; reflexivity.
Qed.

(** X9: [check_auth] never raises.  It reports [authenticated] exactly
    when the page could be opened and the wait for the indicator, started
    two seconds later, did not raise. *)
Theorem check_auth_reports_the_indicator E url selector w :
  exists w' st,
    check_auth E url selector w = (w', Ret st) /\
    (authenticated st = true <->
     exists w1 p,
       get_page E url w = (w1, Ret p) /\
       env_fault E (advance E (ASleep 2000) w1)
         (AWaitForSelector p selector 10000) = None).
Proof.
  unfold check_auth, try_except, bind at 1.
  destruct (get_page_cases E url w) as [(w1 & p & Hget) | (w1 & e & Hget)];
    rewrite Hget.
  - unfold bind, sleep, wait_for_element, try_except, bind, wait_for_selector,
      perform, page_url, close_page, try_except, page_close, ret.
    destruct (env_fault E (advance E (ASleep 2000) w1)
                (AWaitForSelector p selector 10000)) as [e|] eqn:Hwait;
      cbn [id];
      match goal with
      | |- context [env_fault E ?w0 (AClosePage p)] =>
          destruct (env_fault E w0 (AClosePage p))
      end;
      eexists _, _; (split; [reflexivity|]); cbn;
      (split; [intros Hauth; try discriminate; eauto
              | intros (w1' & p' & [= <- <-] & Hw); congruence]).
  - eexists _, _. split; [reflexivity|]. cbn.
    split; [discriminate | intros (w1' & p' & Hget' & _); discriminate].
Qed.

(** X10: when [check_auth] could open its page, the last thing it does is
    to call [close] on that tab, whatever the wait did.  The tab is closed
    when that call does not raise; when it raises, [close_page] swallows
    the exception and the code does nothing more about the tab. *)
Theorem check_auth_closes_its_tab E url selector w w1 p :
  get_page E url w = (w1, Ret p) ->
  let w2 := advance E (AWaitForSelector p selector 10000)
              (advance E (ASleep 2000) w1) in
  trace (fst (check_auth E url selector w)) = AClosePage p :: trace w2 /\
  (env_fault E w2 (AClosePage p) = None ->
   open_pages (fst (check_auth E url selector w)) = open_pages w1 ∖ {[p]}).
Proof.
  intros Hget w2. subst w2.
  remember (check_auth E url selector w) as r eqn:Hr. revert Hr.
  unfold check_auth, try_except, bind at 1. rewrite Hget.
  unfold bind, sleep, wait_for_element, try_except, bind, wait_for_selector,
    perform, page_url, close_page, try_except, page_close, ret.
  destruct (env_fault E (advance E (ASleep 2000) w1)
              (AWaitForSelector p selector 10000)); cbn [id];
    destruct (env_fault E _ (AClosePage p));
    intros ->; split; try reflexivity; intros [=]; reflexivity.
Qed.

Lemma check_auth_closes_its_tab_witness :
  trace (fst (check_auth env_stale GROK_URL grok_indicator world0))
  = [AClosePage 0%nat; AWaitForSelector 0%nat grok_indicator 10000;
     ASleep 2000; AGoto 0%nat GROK_URL; ANewPage 0%nat] /\
  open_pages (fst (check_auth env_stale GROK_URL grok_indicator world0)) = ∅.
Proof.
  destruct (check_auth_closes_its_tab env_stale GROK_URL grok_indicator world0
              (fst (get_page env_stale GROK_URL world0)) 0%nat)
    as [Ht Ho]; [vm_compute; reflexivity|].
  split; [exact Ht|]. rewrite Ho by reflexivity. vm_compute. reflexivity.
Defined.

(** X11: [get_page] has no cleanup of its own: when the tab opens and the
    navigation raises, the exception goes to the caller and the new tab
    stays open.  [check_auth] then answers "Error checking auth" and
    leaves that tab behind. *)
Theorem failed_navigation_leaves_tab_open E url selector w e :
  env_fault E w (ANewPage (next_page w)) = None ->
  env_fault E (with_open (next_page w) (advance E (ANewPage (next_page w)) w))
    (AGoto (next_page w) url) = Some e ->
  exists w',
    get_page E url w = (w', Raise e) /\
    next_page w ∈ open_pages w' /\
    trace w' = AGoto (next_page w) url :: ANewPage (next_page w) :: trace w /\
    check_auth E url selector w
    = (w', Ret {| authenticated := false;
                  message := "Error checking auth: " +:+ e |}).
Proof.
  intros Hnew Hgoto.
  assert (Hget : get_page E url w
                 = (advance E (AGoto (next_page w) url)
                      (with_open (next_page w)
                         (advance E (ANewPage (next_page w)) w)), Raise e)).
  { unfold get_page, bind, new_page, page_goto, perform.
    rewrite Hnew, Hgoto. reflexivity. }
  eexists. split; [exact Hget|]. split; [cbn; set_solver|].
  split; [reflexivity|].
  unfold check_auth, try_except, bind at 1. rewrite Hget. reflexivity.
Qed.

Lemma failed_navigation_leaves_tab_open_witness :
  exists w',
    get_page env_offline GROK_URL world0
      = (w', Raise "net::ERR_INTERNET_DISCONNECTED") /\
    next_page world0 ∈ open_pages w' /\
    trace w' = AGoto (next_page world0) GROK_URL
               :: ANewPage (next_page world0) :: trace world0 /\
    check_auth env_offline GROK_URL grok_indicator world0
    = (w', Ret {| authenticated := false;
                  message := "Error checking auth: "
                             +:+ "net::ERR_INTERNET_DISCONNECTED" |}).
Proof.
  apply (failed_navigation_leaves_tab_open env_offline GROK_URL grok_indicator
           world0 "net::ERR_INTERNET_DISCONNECTED"); reflexivity.
Defined.

(** X12: [download_file] does not swallow errors.  It either returns the
    path, having stored exactly the body of the response at the output
    path, or it raises.  When it raises, no other file has changed, and the
    output path is as it was or, when the write itself broke off, holds the
    first bytes of the body. *)
Theorem download_file_stores_the_body_or_raises E path_str p url output_path w :
  match download_file E path_str p url output_path w with
  | (w', Ret s) =>
      s = path_str output_path /\
      fs w' = <[output_path := env_body E w p url]> (fs w)
  | (w', Raise _) =>
      fs w' = fs w \/
      exists n, fs w' = <[output_path := firstn n (env_body E w p url)]> (fs w)
  | (_, Diverge) => False
  end.
Proof.
  unfold download_file, bind, request_get_body, mkdir_parent, write_bytes,
    perform, ret.
  destruct (env_fault E w (ARequestGet p url)); [left; reflexivity|].
  cbn [id].
  destruct (env_fault E _ (AMkdirParent output_path)); [left; reflexivity|].
  cbn [id].
  destruct (env_fault E _ (AWriteBytes output_path _)).
  - destruct (env_partial E _ output_path _) as [n|];
      [right; exists n; reflexivity | left; reflexivity].
  - split; reflexivity.
Qed.

(** X13: [check_browser_session] never raises and always answers for both
    services: the Sora check runs from the world the Grok check left,
    also when the Grok check ended in an error. *)
Theorem check_browser_session_answers_for_both E w :
  exists w1 w2 grok_status sora_status,
    check_auth E GROK_URL grok_indicator w = (w1, Ret grok_status) /\
    check_auth E SORA_STORYBOARD_URL sora_indicator w1 = (w2, Ret sora_status) /\
    check_browser_session E w = (w2, Ret (grok_status, sora_status)).
Proof.
  destruct (check_auth_returns E GROK_URL grok_indicator w) as (w1 & g & Hg).
  destruct (check_auth_returns E SORA_STORYBOARD_URL sora_indicator w1)
    as (w2 & s & Hs).
  exists w1, w2, g, s. split; [exact Hg|]. split; [exact Hs|].
  unfold check_browser_session, bind. rewrite Hg, Hs. reflexivity.
Qed.

End BrowserToolsProps.

(** * browser.py: the session singletons *)

Section SessionProps.
Import Session.

Lemma shutdown_state F g :
  g_playwright (fst (shutdown F g)) = None /\
  g_context (fst (shutdown F g)) = None.
Proof.
  unfold shutdown.
  destruct g as [[pw|] [ctx|] calls next]; cbn;
    repeat (match goal with
            | |- context [F ?g0 ?c] => destruct (F g0 c)
            end; cbn); split; reflexivity.
Qed.

(** X14: [shutdown] never raises and leaves no session behind: both
    globals are [None] afterwards, whether or not closing the context or
    stopping Playwright raised.  A second [shutdown] makes no call. *)
Theorem shutdown_clears_and_is_idempotent F g :
  exists g',
    shutdown F g = (g', Ret tt) /\
    g_playwright g' = None /\ g_context g' = None /\
    shutdown F g' = (g', Ret tt).
Proof.
  unfold shutdown.
  destruct g as [[pw|] [ctx|] calls next]; cbn;
    repeat (match goal with
            | |- context [F ?g0 ?c] => destruct (F g0 c)
            end; cbn);
    eexists; repeat split.
Qed.

(** X15: a stored context that is still alive is handed back as it is:
    the only call made is the liveness probe; Playwright is not started,
    nothing is launched and the globals do not change. *)
Theorem live_context_is_reused F g ctx :
  g_context g = Some ctx ->
  F g (CProbe ctx) = None ->
  get_context F g = (logged (CProbe ctx) g, Ret ctx).
Proof.
  intros Hctx Hlive. unfold get_context. rewrite Hctx, Hlive. reflexivity.
Qed.

Lemma live_context_is_reused_witness :
  get_context (fun _ _ => None) (mkGlobals (Some 0%nat) (Some 1%nat) [] 2%nat)
  = (logged (CProbe 1%nat) (mkGlobals (Some 0%nat) (Some 1%nat) [] 2%nat),
     Ret 1%nat).
Proof.
  apply live_context_is_reused; reflexivity.
Defined.

Lemma launch_context_outcome F g :
  match launch_context F g with
  | (g', Ret ctx) =>
      g_context g' = Some ctx /\ g_playwright g' <> None /\
      launches (g_calls g') = S (launches (g_calls g))
  | (g', Raise _) =>
      g_context g' = g_context g /\
      (launches (g_calls g') <= S (launches (g_calls g)))%nat
  | (_, Diverge) => False
  end /\
  starts (g_calls (fst (launch_context F g)))
  = (starts (g_calls g) + match g_playwright g with
                          | Some _ => 0
                          | None => 1
                          end)%nat.
Proof.
  unfold launch_context, _ensure_playwright.
  destruct g as [[pw|] ctx calls next]; cbn;
    repeat match goal with
           | |- context [F ?g0 ?c] => destruct (F g0 c); cbn
           end;
    repeat split; try discriminate; try lia.
Qed.

(** X16: after [get_context] the stored context is never a dead one: if
    it returns, the handle it returns is the one stored and Playwright is
    running; if it raises, nothing is stored, also when a dead context
    had been stored before. *)
Theorem get_context_never_keeps_a_dead_context F g :
  match get_context F g with
  | (g', Ret ctx) => g_context g' = Some ctx /\
                     (g_context g = Some ctx \/ g_playwright g' <> None)
  | (g', Raise _) => g_context g' = None
  | (_, Diverge) => False
  end.
Proof.
  unfold get_context.
  destruct (g_context g) as [ctx|] eqn:Hctx.
  - destruct (F g (CProbe ctx)) as [e|].
    + pose proof (launch_context_outcome F
                    (set_context None (logged (CProbe ctx) g))) as [Hl _].
      destruct (launch_context F _) as [g' [c|e'|]]; cbn in *; intuition.
    + cbn. auto.
  - pose proof (launch_context_outcome F g) as [Hl _].
    destruct (launch_context F g) as [g' [c|e'|]]; cbn in *;
      [intuition | destruct Hl as [Hl _]; congruence | exact Hl].
Qed.

(** X17: Playwright is started at most once per call of [get_context],
    and only when the global is [None]: with Playwright already running
    no call ever starts it again, whatever happened to the context. *)
Theorem playwright_is_started_only_when_absent F g :
  starts (g_calls (fst (get_context F g))) = starts (g_calls g) \/
  (g_playwright g = None /\
   starts (g_calls (fst (get_context F g))) = S (starts (g_calls g))).
Proof.
  unfold get_context.
  destruct (g_context g) as [ctx|] eqn:Hctx.
  - destruct (F g (CProbe ctx)) as [e|].
    + pose proof (launch_context_outcome F
                    (set_context None (logged (CProbe ctx) g))) as [_ Hs].
      rewrite Hs. unfold starts. cbn.
      destruct (g_playwright g); [left; lia | right; split; [reflexivity | lia]].
    + cbn. left. reflexivity.
  - pose proof (launch_context_outcome F g) as [_ Hs]. rewrite Hs.
    destruct (g_playwright g); [left; lia | right; split; [reflexivity | lia]].
Qed.

(** X18: after [shutdown] the next [get_context] builds the session
    afresh: without probing anything it starts Playwright and, if nothing
    raises, launches one new context and stores it. *)
Theorem get_context_after_shutdown_starts_afresh F g :
  let g0 := fst (shutdown F g) in
  F g0 CStart = None ->
  F (set_playwright (Some (g_next g0)) (fresh (logged CStart g0))) CMkdir
    = None ->
  F (logged CMkdir
       (set_playwright (Some (g_next g0)) (fresh (logged CStart g0))))
    (CLaunch (g_next g0)) = None ->
  exists g',
    get_context F g0 = (g', Ret (S (g_next g0))) /\
    g_playwright g' = Some (g_next g0) /\
    g_context g' = Some (S (g_next g0)) /\
    g_calls g' = CLaunch (g_next g0) :: CMkdir :: CStart :: g_calls g0.
Proof.
  destruct (shutdown_state F g) as (Hpw & Hctx).
  cbv zeta. set (g0 := fst (shutdown F g)) in *.
  intros Hstart Hmkdir Hlaunch.
  unfold get_context, launch_context, _ensure_playwright.
  rewrite Hctx, Hpw, Hstart. cbv zeta.
  rewrite Hmkdir, Hlaunch. eexists. repeat split.
Qed.

Lemma get_context_after_shutdown_starts_afresh_witness :
  exists g',
    get_context (fun _ _ => None)
      (fst (shutdown (fun _ _ => None)
              (mkGlobals (Some 0%nat) (Some 1%nat) [] 2%nat)))
    = (g', Ret 3%nat) /\
    g_playwright g' = Some 2%nat /\
    g_context g' = Some 3%nat /\
    g_calls g' = [CLaunch 2%nat; CMkdir; CStart; CStop 0%nat;
                  CCloseContext 1%nat].
Proof.
  apply (get_context_after_shutdown_starts_afresh (fun _ _ => None)
           (mkGlobals (Some 0%nat) (Some 1%nat) [] 2%nat)); reflexivity.
Defined.

End SessionProps.

(** * facebook_metrics.py: the scraper *)

Section ScraperSpecs.
Context (E : Env) (J : Scraper.Scripts) (isoformat : Z -> string).
Import PyStr Browser Scraper.

Lemma steady_refl w : steady w w.
Proof. split; [lia | reflexivity]. Qed.

Ltac steadies :=
  repeat match goal with H : _ /\ _ |- _ => destruct H end;
  unfold steady in *;
  repeat match goal with H : _ /\ _ |- _ => destruct H end;
  subst; repeat split; try lia; try congruence.

Lemma steady_advance act w : 0 <= nominal act -> steady w (advance E act w).
Proof.
  intros Hn. split; cbn; [|reflexivity].
  pose proof (N2Z.is_nonneg (env_latency E w act)). lia.
Qed.

Lemma steady_elapse ms w : steady w (elapse ms w).
Proof. split; cbn; [lia | reflexivity]. Qed.

Lemma steady_sleep ms w :
  0 <= ms ->
  sat (sleep E ms) w (fun w' _ => steady w w' /\ now w + ms <= now w')
    (fun _ _ => False).
Proof.
  intros Hms. unfold sat, sleep. split; [apply steady_advance; exact Hms|].
  cbn. pose proof (N2Z.is_nonneg (env_latency E w (ASleep ms))). lia.
Qed.

Lemma steady_wait_for_element p sel t w :
  sat (wait_for_element E p sel t) w (fun w' _ => steady w w')
    (fun _ _ => False).
Proof.
  unfold sat, wait_for_element, try_except, bind, wait_for_selector, perform,
    ret.
  destruct (env_fault E w _); cbn [id]; apply steady_advance; cbn; lia.
Qed.

Lemma steady_get_page url w :
  sat (get_page E url) w (fun w' p => now w <= now w')
    (fun w' _ => now w <= now w').
Proof.
  eapply sat_conseq; [apply sat_get_page | |]; cbn; intros; frames.
Qed.

Lemma closing_page p w :
  sat (close_page E p) w
    (fun w' _ => now w <= now w' /\ closed_last E p (open_pages w) w')
    (fun _ _ => False).
Proof.
  unfold sat, close_page, try_except, page_close, ret.
  pose proof (N2Z.is_nonneg (env_latency E w (AClosePage p))) as Hlat.
  destruct (env_fault E w (AClosePage p)) eqn:He; cbn.
  - split; [lia|]. exists w. rewrite He. repeat split. discriminate.
  - split; [lia|]. exists w. repeat split.
Qed.

Lemma steady_evaluate_scroll p w :
  sat (evaluate_scroll J p) w (fun w' _ => steady w w')
    (fun w' _ => steady w w').
Proof.
  unfold sat, evaluate_scroll.
  destruct (js_scroll J w p) as [ms [e|]]; apply steady_elapse.
Qed.

Lemma steady_evaluate_row_count p w :
  sat (evaluate_row_count J p) w (fun w' _ => steady w w')
    (fun w' _ => steady w w').
Proof.
  unfold sat, evaluate_row_count.
  destruct (js_row_count J w p) as [ms [e|n]]; apply steady_elapse.
Qed.

Lemma steady_evaluate_rows p w :
  sat (evaluate_rows J p) w (fun w' _ => steady w w')
    (fun w' _ => steady w w').
Proof.
  unfold sat, evaluate_rows.
  destruct (js_rows J w p) as [ms [e|rows]]; apply steady_elapse.
Qed.

(** The scroll loop touches no tab; when it runs at least one round and
    returns, a second has passed. *)
Lemma steady_scroll_loop p rounds :
  forall prev_count w,
    sat (scroll_loop E J p rounds prev_count) w
      (fun w' _ => steady w w' /\
                   now w + match rounds with O => 0 | S _ => 1000 end
                   <= now w')
      (fun w' _ => steady w w').
Proof.
  induction rounds as [|rounds IH]; intros prev w; cbn [scroll_loop].
  - apply sat_ret. split; [apply steady_refl | lia].
  - step (apply steady_evaluate_scroll) as w1 u1 Hu1 Hs1; [|exact Hs1].
    step (apply steady_sleep; lia) as w2 u2 Hu2 Hs2; [|contradiction].
    step (apply steady_evaluate_row_count) as w3 n Hn Hs3; [|steadies].
    destruct (n =? prev).
    + apply sat_ret. steadies.
    + eapply sat_conseq; [apply IH | |]; cbn.
      * intros w' u _ [Hs4 _]. steadies.
      * intros w' e _ Hs4. steadies.
Qed.

Lemma sat_scrape_steps start p w :
  start <= now w ->
  sat (scrape_steps E J isoformat start p) w
    (fun w' r => closed_last E p (open_pages w) w' /\ scrape_shape r)
    (fun w' _ => steady w w').
Proof.
  intros Hstart. unfold scrape_steps, _iso_now.
  assert (Hfail : forall (w0 : World) msg, steady w w0 ->
    sat (close_page E p;;
         scraped_at <- (fun w => (w, Ret (isoformat (now w))));;
         ret (failed_scrape scraped_at msg)) w0
      (fun w' r => closed_last E p (open_pages w) w' /\ scrape_shape r)
      (fun w' _ => steady w w')).
  { intros w0 msg Hs0.
    step (apply closing_page) as w1 u1 Hu1 Hc1; [|contradiction].
    unfold sat, bind, ret. cbn.
    split; [|right; repeat split; eauto].
    destruct Hs0 as [_ <-]. exact (proj2 Hc1). }
  step (apply steady_wait_for_element) as w1 found Hfound Hs1; [|contradiction].
  destruct found; cbn [negb].
  - step (apply steady_sleep; lia) as w2 u2 Hu2 Hs2; [|contradiction].
    step (apply steady_scroll_loop) as w3 u3 Hu3 Hs3; [|steadies].
    step (apply steady_evaluate_rows) as w4 rows Hrows Hs4; [|steadies].
    cbv zeta.
    step (apply closing_page) as w5 u5 Hu5 Hc5; [|contradiction].
    unfold sat, bind, time_time, ret. cbn.
    split.
    { replace (open_pages w) with (open_pages w4) by steadies.
      exact (proj2 Hc5). }
    left. repeat split.
    eexists. split; [reflexivity|]. steadies.
  - step (apply sat_page_url) as w2 url Hurl Hw2; [|contradiction].
    destruct Hw2 as [-> _].
    destruct (contains "login" (lower_str url)); apply Hfail; exact Hs1.
Qed.

Lemma sat_scrape w :
  sat (scrape_facebook_content_library E J isoformat) w
    (fun _ r => scrape_shape r) (fun _ _ => False).
Proof.
  unfold scrape_facebook_content_library.
  step (apply sat_time_time) as w0 t Ht Hw; [|contradiction].
  destruct Hw as [-> ->].
  eapply sat_try_with_page with (Qa := fun w' _ => now w <= now w')
                                (Xa := fun _ _ => True).
  - eapply sat_conseq; [apply steady_get_page | |]; cbn; auto.
  - intros w1 e _. unfold sat, bind, ret, _iso_now. cbn.
    right. repeat split. eauto.
  - intros w1 p Hn.
    eapply sat_conseq; [apply sat_scrape_steps; exact Hn | |]; cbn.
    + intros w' r _ [_ Hr]. exact Hr.
    + intros w2 e _ _.
      step (apply closing_page) as w3 u3 Hu3 Hc3; [|contradiction].
      unfold sat, bind, ret, _iso_now. cbn. right. repeat split. eauto.
Qed.

End ScraperSpecs.

Section ScraperProps.
Import PyStr PyNum FacebookMetrics Browser Scenario Scraper.

(** X19: the scraper never raises: it always returns a dict, either a
    success with no error, a post count equal to the number of posts and
    an elapsed time of at least three seconds, or a failure with an error
    text, no posts, no count and no elapsed time. *)
Theorem scraper_always_returns_a_result E J isoformat w :
  exists w' r,
    scrape_facebook_content_library E J isoformat w = (w', Ret r) /\
    scrape_shape r.
Proof. exact (sat_total _ _ _ (sat_scrape E J isoformat w)). Qed.

(** X20: unlike the generation workflows, the scraper calls [close_page]
    on every path: once [get_page] has returned the tab, the last call the
    scraper makes is [close] on that tab, on success, on a missing table,
    on a login page and in the [except] block, and it has opened or closed
    no other tab before.  The tab is closed when that call does not
    raise; when it raises, [close_page] swallows the exception and the
    code does nothing more about the tab. *)
Theorem scraper_closes_its_tab_on_every_path E J isoformat w w1 p :
  get_page E FB_CONTENT_LIBRARY w = (w1, Ret p) ->
  closed_last E p (open_pages w1)
    (fst (scrape_facebook_content_library E J isoformat w)).
Proof.
  intros Hget.
  assert (Hnow : now w <= now w1).
  { pose proof (sat_run _ _ _ _ _ _ (sat_get_page E FB_CONTENT_LIBRARY w) Hget).
    frames. }
  unfold scrape_facebook_content_library, bind at 1, time_time, try_with_page.
  rewrite Hget.
  pose proof (sat_scrape_steps E J isoformat (now w) p w1 Hnow) as Hs.
  unfold sat in Hs.
  destruct (scrape_steps E J isoformat (now w) p w1) as [w2 [r|e|]];
    [exact (proj1 Hs) | | contradiction].
  destruct Hs as [_ Htabs].
  pose proof (closing_page E p w2) as Hc. unfold sat in Hc.
  unfold bind at 1.
  destruct (close_page E p w2) as [w3 [[]|e'|]]; try contradiction.
  cbn. rewrite <- Htabs. exact (proj2 Hc).
Qed.

Lemma scraper_closes_its_tab_on_every_path_witness :
  closed_last env_login 0%nat {[0%nat]}
    (fst (scrape_facebook_content_library env_login
            (mkScripts (fun _ _ => (0%N, None)) (fun _ _ => (0%N, inr 0))
               (fun _ _ => (0%N, inr [])))
            (fun _ => "2026-02-18T00:00:00+00:00") world0)).
Proof.
  replace ({[0%nat]} : gset page)
    with (open_pages (fst (get_page env_login FB_CONTENT_LIBRARY world0)))
    by (vm_compute; reflexivity).
  apply (scraper_closes_its_tab_on_every_path env_login _ _ world0
           (fst (get_page env_login FB_CONTENT_LIBRARY world0)) 0%nat).
  vm_compute. reflexivity.
Defined.

End ScraperProps.

(** * facebook_metrics.py: the parsers *)

Section ParserProps.
Import PyStr PyNum FacebookMetrics Scraper.

Lemma str_forall_lstrip f s :
  (forall c, is_space c = true -> f c = true) ->
  str_forall f (lstrip s) = true -> str_forall f s = true.
Proof.
  intros Hsp. induction s as [|c s IH]; cbn; [auto|].
  destruct (is_space c) eqn:Hc.
  - intros H. rewrite (Hsp c Hc), (IH H). reflexivity.
  - cbn. auto.
Qed.

Lemma str_forall_rstrip f s :
  (forall c, is_space c = true -> f c = true) ->
  str_forall f (rstrip s) = true -> str_forall f s = true.
Proof.
  intros Hsp. induction s as [|c s IH]; cbn; [auto|].
  destruct (rstrip s) as [|d r] eqn:Hr.
  - destruct (is_space c) eqn:Hc; cbn; intros H.
    + rewrite (Hsp c Hc), IH; reflexivity.
    + apply andb_prop in H as [-> _]. rewrite IH; reflexivity.
  - cbn [str_forall]. intros H. apply andb_prop in H as [-> H].
    rewrite (IH H). reflexivity.
Qed.

Lemma str_forall_strip f s :
  (forall c, is_space c = true -> f c = true) ->
  str_forall f (strip s) = true -> str_forall f s = true.
Proof.
  intros Hsp H. apply str_forall_lstrip; [exact Hsp|].
  apply str_forall_rstrip; [exact Hsp | exact H].
Qed.

Lemma str_forall_c_lstrip f s :
  (forall c, is_c_space c = true -> f c = true) ->
  str_forall f (c_lstrip s) = true -> str_forall f s = true.
Proof.
  intros Hsp. induction s as [|c s IH]; cbn; [auto|].
  destruct (is_c_space c) eqn:Hc.
  - intros H. rewrite (Hsp c Hc), (IH H). reflexivity.
  - cbn. auto.
Qed.

Lemma str_forall_c_rstrip f s :
  (forall c, is_c_space c = true -> f c = true) ->
  str_forall f (c_rstrip s) = true -> str_forall f s = true.
Proof.
  intros Hsp. induction s as [|c s IH]; cbn; [auto|].
  destruct (c_rstrip s) as [|d r] eqn:Hr.
  - destruct (is_c_space c) eqn:Hc; cbn; intros H.
    + rewrite (Hsp c Hc), IH; reflexivity.
    + apply andb_prop in H as [-> _]. rewrite IH; reflexivity.
  - cbn [str_forall]. intros H. apply andb_prop in H as [-> H].
    rewrite (IH H). reflexivity.
Qed.

Lemma str_forall_c_strip f s :
  (forall c, is_c_space c = true -> f c = true) ->
  str_forall f (c_strip s) = true -> str_forall f s = true.
Proof.
  intros Hsp H. apply str_forall_c_lstrip; [exact Hsp|].
  apply str_forall_c_rstrip; [exact Hsp | exact H].
Qed.

Lemma c_space_is_space c : is_c_space c = true -> is_space c = true.
Proof.
  unfold is_c_space, is_space. intros H.
  apply orb_prop in H as [H | H].
  - rewrite H. reflexivity.
  - apply Nat.eqb_eq in H. rewrite H. reflexivity.
Qed.

Lemma str_forall_remove_char f c s :
  f c = true ->
  str_forall f (remove_char c s) = true -> str_forall f s = true.
Proof.
  intros Hc. induction s as [|d s IH]; cbn; [auto|].
  destruct (Ascii.eqb_spec c d) as [<- | Hne].
  - intros H. rewrite Hc, (IH H). reflexivity.
  - cbn. intros H. apply andb_prop in H as [-> H]. rewrite (IH H). reflexivity.
Qed.

Lemma str_forall_mono (f g : ascii -> bool) s :
  (forall c, f c = true -> g c = true) ->
  str_forall f s = true -> str_forall g s = true.
Proof.
  intros Hfg. induction s as [|c s IH]; cbn; [auto|].
  intros H. apply andb_prop in H as [Hc H].
  rewrite (Hfg c Hc), (IH H). reflexivity.
Qed.

(** A digit part that uses up the whole text is made of digits and
    underscores. *)
Lemma digitpart_go_whole n :
  forall s acc cnt v k,
    (String.length s <= n)%nat ->
    digitpart_go acc cnt s = (v, k, EmptyString) ->
    str_forall (fun c => is_digit c || Ascii.eqb c "_"%char) s = true.
Proof.
  induction n as [|n IH]; intros s acc cnt v k Hlen Hgo.
  - destruct s; [reflexivity | cbn in Hlen; lia].
  - destruct s as [|c s']; [reflexivity|]. cbn in Hlen.
    cbn [digitpart_go] in Hgo. cbn [str_forall].
    destruct (is_digit c) eqn:Hc.
    + cbn. eapply IH; [|exact Hgo]. lia.
    + destruct (Ascii.eqb c "_"%char) eqn:Hu; [|discriminate].
      destruct s' as [|d s'']; [discriminate|].
      destruct (is_digit d) eqn:Hd; [|discriminate].
      cbn [str_forall]. rewrite Hd. cbn. cbn in Hlen.
      assert (Hs : str_forall (fun c => is_digit c || Ascii.eqb c "_"%char) s''
                   = true) by (eapply IH; [|exact Hgo]; lia).
      exact Hs.
Qed.

Lemma py_int_chars s n :
  py_int s = Some n -> str_forall numeric_char s = true.
Proof.
  unfold py_int. intros H.
  apply str_forall_c_strip.
  { intros c Hc. unfold numeric_char. rewrite (c_space_is_space c Hc),
      orb_true_r. reflexivity. }
  assert (Hbody : forall body,
    (exists v k, digitpart body = Some (v, k, EmptyString)) ->
    str_forall numeric_char body = true).
  { intros body (v0 & k0 & Hb). unfold digitpart in Hb.
    destruct body as [|c body']; [congruence|].
    destruct (is_digit c) eqn:Hc; [|congruence].
    destruct (digitpart_go (digit_val c) 1 body') as [[v k] r] eqn:Hgo.
    destruct r; [|congruence].
    cbn [str_forall]. unfold numeric_char at 1. rewrite Hc. cbn.
    eapply str_forall_mono;
      [|eapply digitpart_go_whole; [reflexivity | exact Hgo]].
    intros d Hd. unfold numeric_char.
    apply orb_prop in Hd as [-> | ->]; rewrite ?orb_true_r; reflexivity. }
  destruct (c_strip s) as [|c body] eqn:Hs.
  - cbn in H. discriminate.
  - assert (Hsign : forall sg b, sign (String c body) = (sg, b) ->
              match digitpart b with
              | Some (v, cnt, EmptyString) =>
                  if cnt <=? INT_MAX_STR_DIGITS then Some (sg * v) else None
              | _ => None
              end = Some n ->
              str_forall numeric_char (String c body) = true).
    { intros sg b Hsg Hd.
      assert (Hb : str_forall numeric_char b = true).
      { apply Hbody. destruct (digitpart b) as [[[v k] [|? ?]]|];
          try discriminate. eauto. }
      unfold sign in Hsg.
      destruct (Ascii.eqb_spec c "+"%char) as [-> | Hp].
      { injection Hsg as <- <-. cbn [str_forall]. rewrite Hb. reflexivity. }
      destruct (Ascii.eqb_spec c "-"%char) as [-> | Hm].
      { injection Hsg as <- <-. cbn [str_forall]. rewrite Hb. reflexivity. }
      assert (b = String c body) as ->; [|exact Hb].
      destruct c as [[] [] [] [] [] [] [] []]; try congruence;
        injection Hsg as <- <-; reflexivity. }
    destruct (sign (String c body)) as [sg b] eqn:Hsg.
    eapply Hsign; [reflexivity | exact H].
Qed.

(** X21: a metric in ASCII text that is written with any character other
    than digits, white space, commas, underscores and signs parses to 0:
    "1.5K", "12%" or "3 min" are silently read as 0, not rejected.  (Text
    outside ASCII is outside the model: [int()] reads the decimal digits
    of other scripts too.) *)
Theorem parse_number_is_zero_on_foreign_characters text :
  str_forall is_ascii text = true ->
  str_forall numeric_char text = false ->
  parse_number text = 0.
Proof.
  intros _ Hforeign. unfold parse_number.
  destruct (is_placeholder (strip text)); [reflexivity|].
  destruct (py_int (remove_char ","%char (strip text))) as [n|] eqn:Hint;
    [|reflexivity].
  exfalso. apply py_int_chars in Hint.
  apply str_forall_remove_char in Hint; [|reflexivity].
  apply str_forall_strip in Hint; [congruence|].
  intros c Hc. unfold numeric_char. rewrite Hc, orb_true_r. reflexivity.
Qed.

Lemma parse_number_is_zero_on_foreign_characters_witness :
  parse_number "1.5K" = 0.
Proof.
  apply parse_number_is_zero_on_foreign_characters; reflexivity.
Defined.

(** X22: the type of a parsed row.  The watch time is the eighth metric
    cell, and 0 when the row has fewer than eight cells.  A row that the
    page typed "post" (or gave no type) and that has a positive watch time
    becomes a "reel"; every other row keeps the type the page gave it: a
    row of another type whatever its watch time, and a "post" whose watch
    time is zero or negative, which includes every "post" with fewer than
    eight cells. *)
Theorem row_type_changes_only_for_posts_with_watch_time row :
  let cells := default [] (r_metrics row) in
  let given := default "post" (r_postType row) in
  watch_time_ms (parse_row row) = parse_number (metric cells 7 "0") /\
  ((length cells <= 7)%nat -> watch_time_ms (parse_row row) = 0) /\
  (given = "post" -> 0 < watch_time_ms (parse_row row) ->
   post_type (parse_row row) = "reel") /\
  (given <> "post" \/ watch_time_ms (parse_row row) <= 0 ->
   post_type (parse_row row) = given).
Proof.
  intros cells given. subst cells given.
  unfold parse_row. cbn [watch_time_ms post_type].
  split; [reflexivity|]. split; [|split].
  - intros Hlen.
    assert (Hm : metric (default [] (r_metrics row)) 7 "0" = "0").
    { unfold metric.
      destruct (nth_error (default [] (r_metrics row)) 7) eqn:Hn;
        [|reflexivity].
      assert (7 < length (default [] (r_metrics row)))%nat
        by (apply nth_error_Some; congruence).
      lia. }
    rewrite Hm. reflexivity.
  - intros -> Hpos. apply Z.ltb_lt in Hpos. rewrite Hpos. reflexivity.
  - intros [Hne | Hle].
    + destruct (String.eqb_spec (default "post" (r_postType row)) "post");
        [contradiction | reflexivity].
    + apply Z.ltb_ge in Hle. rewrite Hle, andb_false_r. reflexivity.
Qed.

Lemma row_type_changes_only_for_posts_with_watch_time_witness :
  watch_time_ms (parse_row (mkRawRow (Some "hello") None (Some "post")
                              (Some ["10"; "8"; "3"]))) = 0 /\
  post_type (parse_row (mkRawRow (Some "hello") None (Some "post")
                          (Some ["10"; "8"; "3"]))) = "post" /\
  post_type (parse_row (mkRawRow None None None
                          (Some ["1"; "1"; "1"; "1"; "1"; "1"; "--"; "900"])))
  = "reel" /\
  post_type (parse_row (mkRawRow None None (Some "post")
                          (Some ["1"; "1"; "1"; "1"; "1"; "1"; "--"; "-5"])))
  = "post" /\
  post_type (parse_row (mkRawRow None None (Some "story")
                          (Some ["1"; "1"; "1"; "1"; "1"; "1"; "--"; "900"])))
  = "story".
Proof.
  split; [|split; [|split; [|split]]].
  - apply (proj1 (proj2 (row_type_changes_only_for_posts_with_watch_time
                           (mkRawRow (Some "hello") None (Some "post")
                              (Some ["10"; "8"; "3"]))))).
    cbn. lia.
  - apply (proj2 (proj2 (proj2
             (row_type_changes_only_for_posts_with_watch_time
                (mkRawRow (Some "hello") None (Some "post")
                   (Some ["10"; "8"; "3"])))))).
    right. vm_compute. discriminate.
  - apply (proj1 (proj2 (proj2
             (row_type_changes_only_for_posts_with_watch_time
                (mkRawRow None None None
                   (Some ["1"; "1"; "1"; "1"; "1"; "1"; "--"; "900"])))))).
    + reflexivity.
    + vm_compute. reflexivity.
  - apply (proj2 (proj2 (proj2
             (row_type_changes_only_for_posts_with_watch_time
                (mkRawRow None None (Some "post")
                   (Some ["1"; "1"; "1"; "1"; "1"; "1"; "--"; "-5"])))))).
    right. vm_compute. discriminate.
  - apply (proj2 (proj2 (proj2
             (row_type_changes_only_for_posts_with_watch_time
                (mkRawRow None None (Some "story")
                   (Some ["1"; "1"; "1"; "1"; "1"; "1"; "--"; "900"])))))).
    left. discriminate.
Defined.

End ParserProps.
